(** * Analytics-Curators: the normalisation and aggregation pipeline of App.tsx

    A shallow embedding of the data pipeline of the dashboard
    (row normaliser, record store ingestion, filter stage, aggregators)
    together with the properties stated about it.

    Modelling conventions.
    - A JavaScript [number] that carries a metric (views, reactions, er,
      sums and means) is a value of [number]: an exact rational extended
      with [NaN], [+Infinity] and [-Infinity].  Rounding of IEEE-754 doubles,
      overflow to an infinity and the sign of zero are not modelled: the sum,
      the product and the quotient of finite numbers are exact and finite
      here.
    - A [Date] is a valid date, given by its time value, an integer count of
      milliseconds; fields derived from a valid date ([weekdayIndex], [hour])
      are integers.  The one call that can turn a parsed date into an Invalid
      Date is [setHours]; it returns [None] then.  A record built on an
      Invalid Date is an [UndatedRecord]; [PostRecord] is the type of the
      records with a valid date, and the filter stage and the aggregators are
      modelled on stores of such records.
    - An exception that escapes a function is an outcome of its own
      ([RangeError], [Aborted]).
    - A counter that is only ever incremented by one is a [nat].
    - A JavaScript [Map] is an association list in insertion order.
    - Functions of the host (the JavaScript engine and the XLSX library) that
      the code calls but does not define are fields of the class [Host]. *)

From Stdlib Require Import List Bool Arith ZArith QArith Qround Qcanon Qabs Lia Lqa.
From Stdlib Require Import String Ascii Permutation Sorted.
From Stdlib Require Import DecimalString.
Import ListNotations.

Local Open Scope Z_scope.

(** ** JavaScript numbers *)

Module JS.

Inductive number : Type :=
| NaN
| PInf
| NInf
| Fin (q : Q).

Definition fin (q : Q) : number := Fin (Qred q).
Definition of_Z (z : Z) : number := Fin (inject_Z z).
Definition of_nat (n : nat) : number := of_Z (Z.of_nat n).

Definition Qzerob (q : Q) : bool := Qeq_bool q 0.
Definition Qnegb (q : Q) : bool := negb (Qle_bool 0 q).

Definition neg (a : number) : number :=
match a with
| NaN => NaN
| PInf => NInf
| NInf => PInf
| Fin q => fin (- q)
end.

(** [a + b] *)
Definition add (a b : number) : number :=
match a, b with
| NaN, _ | _, NaN => NaN
| PInf, NInf | NInf, PInf => NaN
| PInf, _ | _, PInf => PInf
| NInf, _ | _, NInf => NInf
| Fin x, Fin y => fin (x + y)
end.

(** [a - b] *)
Definition sub (a b : number) : number := add a (neg b).

Definition inf_of_sign (negative : bool) : number :=
if negative then NInf else PInf.

(** [a * b] *)
Definition mul (a b : number) : number :=
match a, b with
| NaN, _ | _, NaN => NaN
| Fin x, Fin y => fin (x * y)
| Fin x, PInf | PInf, Fin x =>
    if Qzerob x then NaN else inf_of_sign (Qnegb x)
| Fin x, NInf | NInf, Fin x =>
    if Qzerob x then NaN else inf_of_sign (negb (Qnegb x))
| PInf, PInf | NInf, NInf => PInf
| PInf, NInf | NInf, PInf => NInf
end.

(** [a / b]: a zero divisor gives [NaN] or an infinity, as in JavaScript. *)
Definition div (a b : number) : number :=
match a, b with
| NaN, _ | _, NaN => NaN
| Fin x, Fin y =>
    if Qzerob y
    then (if Qzerob x then NaN else inf_of_sign (Qnegb x))
    else fin (x / y)
| Fin _, (PInf | NInf) => Fin 0
| PInf, Fin y => inf_of_sign (Qnegb y)
| NInf, Fin y => inf_of_sign (negb (Qnegb y))
| (PInf | NInf), (PInf | NInf) => NaN
end.

(** [a < b] *)
Definition ltb (a b : number) : bool :=
match a, b with
| NaN, _ | _, NaN => false
| _, NInf => false
| NInf, _ => true
| PInf, _ => false
| Fin _, PInf => true
| Fin x, Fin y => negb (Qle_bool y x)
end.

(** [a <= b] *)
Definition leb (a b : number) : bool :=
match a, b with
| NaN, _ | _, NaN => false
| NInf, _ => true
| _, PInf => true
| _, NInf => false
| PInf, _ => false
| Fin x, Fin y => Qle_bool x y
end.

(** [a > b] and [a >= b] *)
Definition gtb (a b : number) : bool := ltb b a.
Definition geb (a b : number) : bool := leb b a.

(** ToBoolean on a number: [0] and [NaN] are falsy. *)
Definition truthy (a : number) : bool :=
match a with
| NaN => false
| PInf | NInf => true
| Fin q => negb (Qzerob q)
end.

(** [a || b] on numbers. *)
Definition or_else (a b : number) : number := if truthy a then a else b.

Definition isNaN (a : number) : bool :=
match a with NaN => true | _ => false end.

Definition isFinite (a : number) : bool :=
match a with Fin _ => true | _ => false end.

(** [Math.max(a, b)] *)
Definition Math_max (a b : number) : number :=
match a, b with
| NaN, _ | _, NaN => NaN
| _, _ => if ltb a b then b else a
end.

(** [Math.floor(a)] *)
Definition Math_floor (a : number) : number :=
match a with
| Fin q => of_Z (Qfloor q)
| _ => a
end.

(** [Math.round(a)]: the nearest integer, ties towards [+Infinity]. *)
Definition Math_round (a : number) : number :=
match a with
| Fin q => of_Z (Qfloor (q + (1 # 2)))
| _ => a
end.

(** Truncation of a rational towards zero. *)
Definition Qtrunc (q : Q) : Z :=
if Qnegb q then Qceiling q else Qfloor q.

(** [a % b]: the remainder has the sign of the dividend. *)
Definition rem (a b : number) : number :=
match a, b with
| NaN, _ | _, NaN => NaN
| (PInf | NInf), _ => NaN
| Fin x, (PInf | NInf) => a
| Fin x, Fin y =>
    if Qzerob y then NaN
    else fin (x - y * inject_Z (Qtrunc (x / y)))
end.

End JS.

Import JS.

(** ** JavaScript values, strings and arrays *)

(** A valid [Date] object is represented by its time value in milliseconds;
    an Invalid Date has none. *)
Definition Date : Type := Z.

Definition getTime (d : Date) : Z := d.

(** The values a cell of a row can hold.  A sheet is read without the
    option that turns date cells into [Date] objects, so its rows hold
    numbers, texts and booleans; a [Date] cell, for the branch of
    [parseDate] that accepts one, is a valid date. *)
Inductive JSValue : Type :=
| VUndefined
| VNull
| VBool (b : bool)
| VNum (n : number)
| VStr (s : string)
| VDate (d : Date).

(** A raw spreadsheet row: an object read by column name. *)
Definition Row : Type := list (string * JSValue).

(** [row[key]]: a missing property reads as [undefined]. *)
Fixpoint Row_get (row : Row) (key : string) : JSValue :=
  match row with
  | [] => VUndefined
  | (k, v) :: rest => if String.eqb k key then v else Row_get rest key
  end.

(** ToBoolean *)
Definition ToBoolean (v : JSValue) : bool :=
  match v with
  | VUndefined | VNull => false
  | VBool b => b
  | VNum n => truthy n
  | VStr s => negb (String.eqb s EmptyString)
  | VDate _ => true
  end.

(** [a ?? b] *)
Definition nullish (a b : JSValue) : JSValue :=
  match a with
  | VUndefined | VNull => b
  | _ => a
  end.

(** [s.split(sep)] for a one-character separator. *)
Fixpoint String_split_from (sep : ascii) (cur s : string) : list string :=
  match s with
  | EmptyString => [cur]
  | String c s' =>
      if Ascii.eqb c sep
      then cur :: String_split_from sep EmptyString s'
      else String_split_from sep (cur ++ String c EmptyString) s'
  end.

Definition String_split (sep : ascii) (s : string) : list string :=
  String_split_from sep EmptyString s.

Fixpoint String_repeat (c : ascii) (n : nat) : string :=
  match n with
  | O => EmptyString
  | S n' => String c (String_repeat c n')
  end.

(** [s.padStart(n, c)] for a one-character filler. *)
Definition String_padStart (n : nat) (c : ascii) (s : string) : string :=
  (String_repeat c (n - String.length s) ++ s)%string.

(** [z.toString()] for an integer. *)
Definition Z_toString (z : Z) : string := NilZero.string_of_int (Z.to_int z).

(** [z || dflt] on an integer-valued number. *)
Definition Z_or (z dflt : Z) : Z := if z =? 0 then dflt else z.

(** [Array.prototype.sort(cmp)].  The engine's sort is stable; for a
    comparator that is a total preorder the result is the unique stable
    sorted arrangement, computed here by insertion: an element moves past
    exactly those elements it compares strictly greater than. *)
Section ArraySort.
Context {A : Type}.
Variable cmp : A -> A -> Z.

Fixpoint sort_insert (x : A) (l : list A) : list A :=
  match l with
  | [] => [x]
  | y :: l' => if 0 <? cmp x y then y :: sort_insert x l' else x :: l
  end.

Fixpoint Array_sort (l : list A) : list A :=
  match l with
  | [] => []
  | x :: l' => sort_insert x (Array_sort l')
  end.
End ArraySort.

(** A comparator [(a, b) => key(a) - key(b)] and the order it sorts by. *)
Definition by_key {A : Type} (key : A -> Z) (a b : A) : Z := key a - key b.
Definition key_le {A : Type} (key : A -> Z) (a b : A) : Prop := key a <= key b.

(** ** The JavaScript [Map], in insertion order *)

Section JSMap.
Context {K V : Type}.
Variable eqb : K -> K -> bool.

Definition JSMap : Type := list (K * V).

Fixpoint Map_get (m : JSMap) (k : K) : option V :=
  match m with
  | [] => None
  | (k', v) :: m' => if eqb k' k then Some v else Map_get m' k
  end.

Definition Map_has (m : JSMap) (k : K) : bool :=
  match Map_get m k with Some _ => true | None => false end.

(** [m.set(k, v)]: an existing key keeps its position. *)
Fixpoint Map_set (m : JSMap) (k : K) (v : V) : JSMap :=
  match m with
  | [] => [(k, v)]
  | (k', v') :: m' =>
      if eqb k' k then (k, v) :: m' else (k', v') :: Map_set m' k v
  end.

(** [const e = m.get(k)!; e.f += ...]: the entry object is updated in
    place, so the map sees the change. *)
Definition Map_update (m : JSMap) (k : K) (f : V -> V) : JSMap :=
  match Map_get m k with
  | Some v => Map_set m k (f v)
  | None => m
  end.

(** The two shapes of accumulation loop the aggregators use.  In the first
    every bucket exists before the loop; in the second the group of an item
    is created when the item is the first of its group. *)
Section Accumulate.
Context {A : Type}.
Variable key : A -> K.
Variable init : A -> V.
Variable upd : A -> V -> V.

Definition bucket_fold (xs : list A) (m : JSMap) : JSMap :=
  fold_left (fun m x => Map_update m (key x) (upd x)) xs m.

Definition group_step (m : JSMap) (x : A) : JSMap :=
  let m :=
    if negb (Map_has m (key x)) then Map_set m (key x) (init x)
    else m in
  Map_update m (key x) (upd x).

Definition group_fold (xs : list A) (m : JSMap) : JSMap :=
  fold_left group_step xs m.

(** The value a group ends with, given the items of the group. *)
Definition group_value (g : list A) : option V :=
  match g with
  | [] => None
  | x :: _ => Some (fold_left (fun v x => upd x v) g (init x))
  end.
End Accumulate.
End JSMap.

Arguments JSMap : clear implicits.

(** ** The data model *)

Record PostRecord : Type := {
  id : nat;
  date : string;
  dateObj : Date;
  monthKey : string;
  weekdayIndex : Z;
  weekdayLabel : string;
  hour : Z;
  views : number;
  reactions : number;
  er : number;
  postType : string
}.

(** A returned record whose [dateObj] is an Invalid Date.  The fields read
    from the date are then fixed: [dateObj.getTime()], [weekdayIndex] and
    [hour] are [NaN], [weekdayLabel] is [undefined] and [monthKey] is the
    text ["NaN-NaN"].  The fields below are the ones that vary. *)
Record UndatedRecord : Type := {
  u_id : nat;
  u_date : string;
  u_views : number;
  u_reactions : number;
  u_er : number;
  u_postType : string
}.

(** The object that [mapRowToPost] returns. *)
Inductive Returned : Type :=
| Dated (p : PostRecord)
| Undated (u : UndatedRecord).

(** How a call of [mapRowToPost] completes: with [null], with a record, or
    with the [RangeError] that [toISOString] throws on an Invalid Date. *)
Inductive Mapped : Type :=
| Null
| Returns (r : Returned)
| RangeError.

(** The fields that every returned record has. *)
Definition id_of (r : Returned) : nat :=
  match r with Dated p => id p | Undated u => u_id u end.

Definition views_of (r : Returned) : number :=
  match r with Dated p => views p | Undated u => u_views u end.

Definition reactions_of (r : Returned) : number :=
  match r with Dated p => reactions p | Undated u => u_reactions u end.

Definition er_of (r : Returned) : number :=
  match r with Dated p => er p | Undated u => u_er u end.

Definition postType_of (r : Returned) : string :=
  match r with Dated p => postType p | Undated u => u_postType u end.

(** [r.dateObj.getTime()] *)
Definition getTime_of (r : Returned) : number :=
  match r with Dated p => of_Z (getTime (dateObj p)) | Undated _ => NaN end.

Definition WEEKDAYS : list string :=
  ["Вс"; "Пн"; "Вт"; "Ср"; "Чт"; "Пт"; "Сб"]%string.

Record GapBucket : Type := {
  gb_id : string;
  gb_label : string;
  gb_min : number;
  gb_max : number
}.

Definition GAP_BUCKETS : list GapBucket := [
  {| gb_id := "<6"; gb_label := "< 6 часов"; gb_min := of_Z 0; gb_max := of_Z 6 |};
  {| gb_id := "6-12"; gb_label := "6–12 часов"; gb_min := of_Z 6; gb_max := of_Z 12 |};
  {| gb_id := "12-24"; gb_label := "12–24 часа"; gb_min := of_Z 12; gb_max := of_Z 24 |};
  {| gb_id := "24-48"; gb_label := "24–48 часов"; gb_min := of_Z 24; gb_max := of_Z 48 |};
  {| gb_id := ">48"; gb_label := "> 48 часов"; gb_min := of_Z 48; gb_max := PInf |}
].

Record TimeSegment : Type := {
  ts_id : string;
  ts_label : string;
  minHour : Z;
  maxHour : Z
}.

Definition TIME_SEGMENTS : list TimeSegment := [
  {| ts_id := "night"; ts_label := "00–06 (ночь)"; minHour := 0; maxHour := 6 |};
  {| ts_id := "morning"; ts_label := "06–10 (утро)"; minHour := 6; maxHour := 10 |};
  {| ts_id := "day"; ts_label := "10–17 (день)"; minHour := 10; maxHour := 17 |};
  {| ts_id := "evening"; ts_label := "17–22 (вечер)"; minHour := 17; maxHour := 22 |};
  {| ts_id := "late"; ts_label := "22–24 (поздний вечер)"; minHour := 22; maxHour := 24 |}
].

(** ** The host: functions the code calls but does not define *)

(** The object returned by [XLSX.SSF.parse_date_code]. *)
Record DateCode : Type := {
  dc_y : Z;
  dc_m : Z;
  dc_d : Z;
  dc_H : Z;
  dc_M : Z;
  dc_S : Z
}.

Class Host : Type := {
  (** [Number(s)] for a string [s] *)
  StringToNumber : string -> number;
  (** [String(n)] for a number [n] *)
  NumberToString : number -> string;
  (** [String(d)] for a date [d] *)
  DateToString : Date -> string;
  (** [d.toISOString()] for a valid date [d]; on an Invalid Date the method
      throws a [RangeError] *)
  toISOString : Date -> string;
  (** [s.trim()] *)
  String_trim : string -> string;
  (** [new Date(s)] for a string [s]; [None] when the time value is [NaN] *)
  Date_parse : string -> option Date;
  (** [XLSX.SSF.parse_date_code(n)]; [None] for a [null] result *)
  parse_date_code : number -> option DateCode;
  (** [new Date(y, m, d, H, M, S)] on the fields of a date code, which are
      those of a calendar date up to the year 9999 *)
  Date_of_fields : Z -> Z -> Z -> Z -> Z -> Z -> Date;
  (** [d.setHours(h, m, s, ms)] on a valid date [d]: the new time value, or
      [None] when the call leaves an Invalid Date, which it does when an
      argument is not finite or the new time value is beyond the range of
      8.64e15 milliseconds around the epoch *)
  setHours : Date -> number -> number -> number -> number -> option Date;
  getFullYear : Date -> Z;
  getMonth : Date -> Z;
  getDay : Date -> Z;
  getHours : Date -> Z;
  getDay_range : forall d, 0 <= getDay d < 7
}.

Section Normalizer.
Context `{Host}.

(** [Number(v)] *)
Definition Number (v : JSValue) : number :=
  match v with
  | VUndefined => NaN
  | VNull => of_Z 0
  | VBool b => if b then of_Z 1 else of_Z 0
  | VNum n => n
  | VStr s => StringToNumber s
  | VDate d => of_Z (getTime d)
  end.

(** [String(v)] *)
Definition JSString (v : JSValue) : string :=
  match v with
  | VUndefined => "undefined"
  | VNull => "null"
  | VBool b => if b then "true" else "false"
  | VNum n => NumberToString n
  | VStr s => s
  | VDate d => DateToString d
  end.

(** [new Date(v)] followed by the validity test [isNaN(d.getTime())]:
    [None] is an invalid date. *)
Definition new_Date (v : JSValue) : option Date :=
  match v with
  | VUndefined => None
  | VNull => Some 0
  | VBool b => Some (if b then 1 else 0)
  | VNum n => match n with Fin q => Some (Qtrunc q) | _ => None end
  | VStr s => Date_parse s
  | VDate d => Some d
  end.

Definition parseDate (value : JSValue) : option Date :=
  if negb (ToBoolean value) then None
  else
    match value with
    | VNum n =>
        match parse_date_code n with
        | None => None
        | Some parsed =>
            Some (Date_of_fields
                    (dc_y parsed)
                    (Z_or (dc_m parsed) 1 - 1)
                    (Z_or (dc_d parsed) 1)
                    (Z_or (dc_H parsed) 0)
                    (Z_or (dc_M parsed) 0)
                    (Z_or (dc_S parsed) 0))
        end
    | VDate d => Some d
    | _ => new_Date value
    end.

(** [WEEKDAYS[i]]; the index comes from [getDay] and is in range. *)
Definition WEEKDAYS_at (i : Z) : string :=
  nth (Z.to_nat i) WEEKDAYS EmptyString.

(** [v !== undefined], [v !== null], [v !== s] for a string [s] *)
Definition not_undefined (v : JSValue) : bool :=
  match v with VUndefined => false | _ => true end.

Definition not_null (v : JSValue) : bool :=
  match v with VNull => false | _ => true end.

Definition not_string (v : JSValue) (s : string) : bool :=
  match v with VStr s' => negb (String.eqb s' s) | _ => true end.

(** [parts[i]] of a destructured array, with a default for [undefined]. *)
Definition part_or (parts : list string) (i : nat) (dflt : JSValue) : JSValue :=
  match nth_error parts i with
  | Some s => VStr s
  | None => dflt
  end.

(** [mapRowToPost] of the dashboard with the gap and time-of-day charts.
    Nothing in the [try] block can throw, so its [catch] is not modelled.
    [setHours] mutates the date in place; the later reads see the merged
    time.  When the merged date is an Invalid Date the calendar getters give
    [NaN] and do not throw; [toISOString], which is called when the date
    cell is not text, throws. *)
Definition mapRowToPost (row : Row) (index : nat) : Mapped :=
  let rawDate := Row_get row "Дата" in
  let rawTime := Row_get row "Время поста" in
  let viewsRaw :=
    nullish (Row_get row "Количество просмотров в день поста")
            (Row_get row "Количество просмотров общее") in
  let reactionsRaw := Row_get row "Количество реакций" in
  let postTypeRaw := nullish (Row_get row "Тип поста") (VStr "Без типа") in
  let erRaw := Row_get row "ER (Engagement Rate)" in
  match parseDate rawDate with
  | None => Null
  | Some dateObj =>
      let dateObj : option Date :=
        if ToBoolean rawTime then
          match rawTime with
          | VNum rawTime =>
              let totalMinutes :=
                Math_round (mul (mul rawTime (of_Z 24)) (of_Z 60)) in
              let hours := Math_floor (div totalMinutes (of_Z 60)) in
              let minutes := rem totalMinutes (of_Z 60) in
              setHours dateObj hours minutes (of_Z 0) (of_Z 0)
          | _ =>
              let timeStr := String_trim (JSString rawTime) in
              let parts := String_split ":" timeStr in
              let hStr := part_or parts 0 VUndefined in
              let mStr := part_or parts 1 (VStr "0") in
              let sStr := part_or parts 2 (VStr "0") in
              let h := or_else (Number hStr) (of_Z 0) in
              let m := or_else (Number mStr) (of_Z 0) in
              let s := or_else (Number sStr) (of_Z 0) in
              setHours dateObj h m s (of_Z 0)
          end
        else Some dateObj in
      let views := or_else (Number viewsRaw) (of_Z 0) in
      let reactions := or_else (Number reactionsRaw) (of_Z 0) in
      let er :=
        if not_undefined erRaw && not_null erRaw && not_string erRaw EmptyString
        then
          let erNum := Number erRaw in
          if isFinite erNum then div erNum (of_Z 100) else of_Z 0
        else
          if gtb views (of_Z 0) then div reactions views else of_Z 0 in
      match dateObj with
      | Some dateObj =>
          let year := getFullYear dateObj in
          let month := getMonth dateObj + 1 in
          let monthKey :=
            (Z_toString year ++ "-"
             ++ String_padStart 2 "0" (Z_toString month))%string in
          let weekdayIndex := getDay dateObj in
          let weekdayLabel := WEEKDAYS_at weekdayIndex in
          let hour := getHours dateObj in
          Returns
            (Dated
               {| id := index;
                  date := match rawDate with
                          | VStr s => s
                          | _ => toISOString dateObj
                          end;
                  dateObj := dateObj;
                  monthKey := monthKey;
                  weekdayIndex := weekdayIndex;
                  weekdayLabel := weekdayLabel;
                  hour := hour;
                  views := views;
                  reactions := reactions;
                  er := er;
                  postType := JSString (nullish postTypeRaw (VStr "Без типа")) |})
      | None =>
          match rawDate with
          | VStr s =>
              Returns
                (Undated
                   {| u_id := index;
                      u_date := s;
                      u_views := views;
                      u_reactions := reactions;
                      u_er := er;
                      u_postType :=
                        JSString (nullish postTypeRaw (VStr "Без типа")) |})
          | _ => RangeError
          end
      end
  end.
End Normalizer.

(** The earlier dashboard (src/App.tsx): the same normaliser, except that
    the time cell is always read as text. *)
Module AppTsx.
Section Normalizer.
Context `{Host}.

Definition mapRowToPost (row : Row) (index : nat) : Mapped :=
let rawDate := Row_get row "Дата" in
let rawTime := Row_get row "Время поста" in
let viewsRaw :=
  nullish (Row_get row "Количество просмотров в день поста")
          (Row_get row "Количество просмотров общее") in
let reactionsRaw := Row_get row "Количество реакций" in
let postTypeRaw := nullish (Row_get row "Тип поста") (VStr "Без типа") in
let erRaw := Row_get row "ER (Engagement Rate)" in
match parseDate rawDate with
| None => Null
| Some dateObj =>
    let dateObj : option Date :=
      if ToBoolean rawTime then
        let timeStr := String_trim (JSString rawTime) in
        let parts := String_split ":" timeStr in
        let hStr := part_or parts 0 VUndefined in
        let mStr := part_or parts 1 VUndefined in
        let sStr := part_or parts 2 VUndefined in
        let h := or_else (Number hStr) (of_Z 0) in
        let m := or_else (Number mStr) (of_Z 0) in
        let s := or_else (Number sStr) (of_Z 0) in
        setHours dateObj h m s (of_Z 0)
      else Some dateObj in
    let views := or_else (Number viewsRaw) (of_Z 0) in
    let reactions := or_else (Number reactionsRaw) (of_Z 0) in
    let er :=
      if not_undefined erRaw && not_null erRaw && not_string erRaw EmptyString
      then
        let erNum := Number erRaw in
        if isFinite erNum then div erNum (of_Z 100) else of_Z 0
      else
        if gtb views (of_Z 0) then div reactions views else of_Z 0 in
    match dateObj with
    | Some dateObj =>
        let year := getFullYear dateObj in
        let month := getMonth dateObj + 1 in
        let monthKey :=
          (Z_toString year ++ "-"
           ++ String_padStart 2 "0" (Z_toString month))%string in
        let weekdayIndex := getDay dateObj in
        let weekdayLabel := WEEKDAYS_at weekdayIndex in
        let hour := getHours dateObj in
        Returns
          (Dated
             {| id := index;
                date := match rawDate with
                        | VStr s => s
                        | _ => toISOString dateObj
                        end;
                dateObj := dateObj;
                monthKey := monthKey;
                weekdayIndex := weekdayIndex;
                weekdayLabel := weekdayLabel;
                hour := hour;
                views := views;
                reactions := reactions;
                er := er;
                postType := JSString (nullish postTypeRaw (VStr "Без типа")) |})
    | None =>
        match rawDate with
        | VStr s =>
            Returns
              (Undated
                 {| u_id := index;
                    u_date := s;
                    u_views := views;
                    u_reactions := reactions;
                    u_er := er;
                    u_postType :=
                      JSString (nullish postTypeRaw (VStr "Без типа")) |})
        | _ => RangeError
        end
    end
end.
End Normalizer.
End AppTsx.

(** ** Record store ingestion and the filter stage *)

Record AppState : Type := {
  posts : list PostRecord;
  selectedMonth : string;
  selectedPostType : string;
  selectedWeekday : string
}.

(** [(a, b) => a.dateObj.getTime() - b.dateObj.getTime()] on two records
    with valid dates. *)
Definition cmp_dateObj (a b : PostRecord) : Z :=
  getTime (dateObj a) - getTime (dateObj b).

(** How the handler of an upload completes.  When every record has a valid
    date the comparator of the sort is consistent and the sorted array is
    installed as the store.  When a record has an Invalid Date the
    comparator returns [NaN] on every pair with that record, which makes it
    an inconsistent one: the order that the engine leaves is then
    implementation-defined, and the store is some arrangement of the array
    [parsed]; such a store is not one of dated records.  When
    [mapRowToPost] throws, the exception leaves the handler before
    [setPosts], and the state stays as it was. *)
Inductive Upload : Type :=
| Installed (st : AppState)
| InstalledUndated (parsed : list Returned)
| Aborted.

(** The records of [parsed] when all of them have a valid date. *)
Fixpoint all_dated (parsed : list Returned) : option (list PostRecord) :=
  match parsed with
  | [] => Some []
  | Dated p :: rest =>
      match all_dated rest with
      | Some ps => Some (p :: ps)
      | None => None
      end
  | Undated _ :: _ => None
  end.

Section Ingestion.
Context `{Host}.

(** [json.forEach((row, idx) => { ...; if (mapped) parsed.push(mapped) })];
    [None] when a call of [mapRowToPost] throws. *)
Fixpoint forEach_row (json : list Row) (idx : nat) (parsed : list Returned)
    : option (list Returned) :=
  match json with
  | [] => Some parsed
  | row :: rest =>
      match mapRowToPost row idx with
      | Returns mapped => forEach_row rest (S idx) (parsed ++ [mapped])
      | Null => forEach_row rest (S idx) parsed
      | RangeError => None
      end
  end.

(** The body of [reader.onload], from the parsed sheet [json] on. *)
Definition handleFileUpload (json : list Row) : Upload :=
  match forEach_row json 0%nat [] with
  | None => Aborted
  | Some parsed =>
      match all_dated parsed with
      | Some parsed =>
          Installed
            {| posts := Array_sort cmp_dateObj parsed;
               selectedMonth := "all";
               selectedPostType := "all";
               selectedWeekday := "all" |}
      | None => InstalledUndated parsed
      end
  end.
End Ingestion.

Definition filteredPosts (st : AppState) : list PostRecord :=
  filter
    (fun p =>
       if negb (String.eqb (selectedMonth st) "all")
          && negb (String.eqb (monthKey p) (selectedMonth st)) then false
       else if negb (String.eqb (selectedPostType st) "all")
               && negb (String.eqb (postType p) (selectedPostType st)) then false
       else if negb (String.eqb (selectedWeekday st) "all")
               && negb (String.eqb (weekdayLabel p) (selectedWeekday st)) then false
       else true)
    (posts st).

(** ** Aggregators *)

Module Kpi.
Record t : Type := {
  totalPosts : nat;
  avgViews : number;
  avgReactions : number;
  avgEr : number
}.
End Kpi.

Definition kpi (filteredPosts : list PostRecord) : Kpi.t :=
  if (List.length filteredPosts =? 0)%nat then
    {| Kpi.totalPosts := 0;
       Kpi.avgViews := of_Z 0;
       Kpi.avgReactions := of_Z 0;
       Kpi.avgEr := of_Z 0 |}
  else
    let totalPosts := List.length filteredPosts in
    let sumViews := fold_left (fun acc p => add acc (views p)) filteredPosts (of_Z 0) in
    let sumReactions :=
      fold_left (fun acc p => add acc (reactions p)) filteredPosts (of_Z 0) in
    let avgViews := div sumViews (of_nat totalPosts) in
    let avgReactions := div sumReactions (of_nat totalPosts) in
    let avgEr :=
      div (fold_left (fun acc p => add acc (er p)) filteredPosts (of_Z 0))
          (of_nat totalPosts) in
    {| Kpi.totalPosts := totalPosts;
       Kpi.avgViews := avgViews;
       Kpi.avgReactions := avgReactions;
       Kpi.avgEr := avgEr |}.

(** *** Grouped by weekday *)

Module WeekdayViews.
Record entry : Type := { weekday : string; viewsSum : number; count : nat }.
Record row : Type := { out_weekday : string; avgViews : number }.
End WeekdayViews.

Definition viewsByWeekday_map (filteredPosts : list PostRecord)
    : JSMap Z WeekdayViews.entry :=
  fold_left
    (fun map p =>
       let map :=
         if negb (Map_has Z.eqb map (weekdayIndex p))
         then Map_set Z.eqb map (weekdayIndex p)
                {| WeekdayViews.weekday := weekdayLabel p;
                   WeekdayViews.viewsSum := of_Z 0;
                   WeekdayViews.count := 0 |}
         else map in
       Map_update Z.eqb map (weekdayIndex p)
         (fun entry =>
            {| WeekdayViews.weekday := WeekdayViews.weekday entry;
               WeekdayViews.viewsSum := add (WeekdayViews.viewsSum entry) (views p);
               WeekdayViews.count := WeekdayViews.count entry + 1 |}))
    filteredPosts [].

(** [Array.from(map.entries()).sort(([a], [b]) => a - b)] *)
Definition viewsByWeekday_sorted (filteredPosts : list PostRecord)
    : list (Z * WeekdayViews.entry) :=
  Array_sort (fun a b => fst a - fst b) (viewsByWeekday_map filteredPosts).

Definition viewsByWeekday (filteredPosts : list PostRecord)
    : list WeekdayViews.row :=
  map
    (fun '(weekdayIndex, e) =>
       {| WeekdayViews.out_weekday := WeekdayViews.weekday e;
          WeekdayViews.avgViews :=
            if (0 <? WeekdayViews.count e)%nat
            then div (WeekdayViews.viewsSum e) (of_nat (WeekdayViews.count e))
            else of_Z 0 |})
    (viewsByWeekday_sorted filteredPosts).

Module WeekdayEr.
Record entry : Type := { weekday : string; erSum : number; count : nat }.
Record row : Type := { out_weekday : string; avgErPercent : number }.
End WeekdayEr.

Definition erByWeekday_map (filteredPosts : list PostRecord)
    : JSMap Z WeekdayEr.entry :=
  fold_left
    (fun map p =>
       let map :=
         if negb (Map_has Z.eqb map (weekdayIndex p))
         then Map_set Z.eqb map (weekdayIndex p)
                {| WeekdayEr.weekday := weekdayLabel p;
                   WeekdayEr.erSum := of_Z 0;
                   WeekdayEr.count := 0 |}
         else map in
       Map_update Z.eqb map (weekdayIndex p)
         (fun entry =>
            {| WeekdayEr.weekday := WeekdayEr.weekday entry;
               WeekdayEr.erSum := add (WeekdayEr.erSum entry) (er p);
               WeekdayEr.count := WeekdayEr.count entry + 1 |}))
    filteredPosts [].

Definition erByWeekday_sorted (filteredPosts : list PostRecord)
    : list (Z * WeekdayEr.entry) :=
  Array_sort (fun a b => fst a - fst b) (erByWeekday_map filteredPosts).

Definition erByWeekday (filteredPosts : list PostRecord) : list WeekdayEr.row :=
  map
    (fun '(weekdayIndex, e) =>
       {| WeekdayEr.out_weekday := WeekdayEr.weekday e;
          WeekdayEr.avgErPercent :=
            if (0 <? WeekdayEr.count e)%nat
            then mul (div (WeekdayEr.erSum e) (of_nat (WeekdayEr.count e))) (of_Z 100)
            else of_Z 0 |})
    (erByWeekday_sorted filteredPosts).

(** *** Gap buckets and time-of-day segments *)

(** The accumulator types [BucketAgg] and [SegmentAgg] have the same shape. *)
Record BucketAgg : Type := {
  label : string;
  viewsSum : number;
  erSum : number;
  count : nat
}.

Definition SegmentAgg : Type := BucketAgg.

(** [agg.viewsSum += p.views; agg.erSum += p.er; agg.count += 1] *)
Definition agg_add (p : PostRecord) (agg : BucketAgg) : BucketAgg :=
  {| label := label agg;
     viewsSum := add (viewsSum agg) (views p);
     erSum := add (erSum agg) (er p);
     count := count agg + 1 |}.

(** The accumulator read by [map.get(id)!] when the key is missing; every
    key read is set beforehand, so it is never used. *)
Definition agg_missing : BucketAgg :=
  {| label := EmptyString; viewsSum := NaN; erSum := NaN; count := 0 |}.

Module GapRow.
Record t : Type := {
  bucketId : string;
  bucketLabel : string;
  avgViews : number;
  avgErPercent : number
}.
End GapRow.

(** [GAP_BUCKETS.forEach((b) => map.set(b.id, {...}))] *)
Definition gap_map_init : JSMap string BucketAgg :=
  fold_left
    (fun map b =>
       Map_set String.eqb map (gb_id b)
         {| label := gb_label b; viewsSum := of_Z 0; erSum := of_Z 0; count := 0 |})
    GAP_BUCKETS [].

(** [diffMs / (1000 * 60 * 60)] *)
Definition gapHours_of (prev cur : PostRecord) : number :=
  let diffMs := getTime (dateObj cur) - getTime (dateObj prev) in
  div (of_Z diffMs) (of_Z (1000 * 60 * 60)).

(** [GAP_BUCKETS[GAP_BUCKETS.length - 1]] *)
Definition gap_last_bucket : GapBucket :=
  nth (List.length GAP_BUCKETS - 1) GAP_BUCKETS
    {| gb_id := EmptyString; gb_label := EmptyString; gb_min := NaN; gb_max := NaN |}.

(** [GAP_BUCKETS.find(...) ?? GAP_BUCKETS[GAP_BUCKETS.length - 1]] *)
Definition gap_bucket_of (gapHours : number) : GapBucket :=
  match find (fun b => geb gapHours (gb_min b) && ltb gapHours (gb_max b)) GAP_BUCKETS with
  | Some b => b
  | None => gap_last_bucket
  end.

(** One turn of the loop [for (let i = 1; i < sorted.length; i++)]. *)
Definition gap_step (map : JSMap string BucketAgg) (prev cur : PostRecord)
    : JSMap string BucketAgg :=
  let gapHours := gapHours_of prev cur in
  let bucket := gap_bucket_of gapHours in
  Map_update String.eqb map (gb_id bucket) (agg_add cur).

(** The loop from index [i] on, with [prev = sorted[i - 1]] and
    [rest = sorted.slice(i)]. *)
Fixpoint gap_loop (prev : PostRecord) (rest : list PostRecord)
    (map : JSMap string BucketAgg) : JSMap string BucketAgg :=
  match rest with
  | [] => map
  | cur :: rest' => gap_loop cur rest' (gap_step map prev cur)
  end.

(** The accumulator map when the loop of [gapStats] ends. *)
Definition gapStats_map (filteredPosts : list PostRecord) : JSMap string BucketAgg :=
  let sorted := Array_sort cmp_dateObj filteredPosts in
  match sorted with
  | [] => gap_map_init
  | first :: rest => gap_loop first rest gap_map_init
  end.

Definition gapStats (filteredPosts : list PostRecord) : list GapRow.t :=
  if (List.length filteredPosts <? 2)%nat then []
  else
    let map := gapStats_map filteredPosts in
    List.map
      (fun b =>
         let agg :=
           match Map_get String.eqb map (gb_id b) with
           | Some agg => agg
           | None => agg_missing
           end in
         {| GapRow.bucketId := gb_id b;
            GapRow.bucketLabel := gb_label b;
            GapRow.avgViews :=
              if negb (count agg =? 0)%nat
              then div (viewsSum agg) (of_nat (count agg))
              else of_Z 0;
            GapRow.avgErPercent :=
              if negb (count agg =? 0)%nat
              then mul (div (erSum agg) (of_nat (count agg))) (of_Z 100)
              else of_Z 0 |})
      GAP_BUCKETS.

Module SegmentRow.
Record t : Type := {
  segmentId : string;
  segmentLabel : string;
  avgViews : number;
  avgErPercent : number
}.
End SegmentRow.

(** [TIME_SEGMENTS.forEach((s) => map.set(s.id, {...}))] *)
Definition segment_map_init : JSMap string SegmentAgg :=
  fold_left
    (fun map s =>
       Map_set String.eqb map (ts_id s)
         {| label := ts_label s; viewsSum := of_Z 0; erSum := of_Z 0; count := 0 |})
    TIME_SEGMENTS [].

(** [TIME_SEGMENTS[0]] *)
Definition segment_first : TimeSegment :=
  nth 0 TIME_SEGMENTS
    {| ts_id := EmptyString; ts_label := EmptyString; minHour := 0; maxHour := 0 |}.

(** [TIME_SEGMENTS.find(...) ?? TIME_SEGMENTS[0]] *)
Definition segment_of (p : PostRecord) : TimeSegment :=
  match find (fun s => (minHour s <=? hour p) && (hour p <? maxHour s)) TIME_SEGMENTS with
  | Some s => s
  | None => segment_first
  end.

(** The accumulator map when the [forEach] of [timeOfDayStats] ends. *)
Definition timeOfDayStats_map (filteredPosts : list PostRecord)
    : JSMap string SegmentAgg :=
  fold_left
    (fun map p =>
       let seg := segment_of p in
       Map_update String.eqb map (ts_id seg) (agg_add p))
    filteredPosts segment_map_init.

Definition timeOfDayStats (filteredPosts : list PostRecord) : list SegmentRow.t :=
  if (List.length filteredPosts =? 0)%nat then []
  else
    let map := timeOfDayStats_map filteredPosts in
    List.map
      (fun s =>
         let agg :=
           match Map_get String.eqb map (ts_id s) with
           | Some agg => agg
           | None => agg_missing
           end in
         {| SegmentRow.segmentId := ts_id s;
            SegmentRow.segmentLabel := ts_label s;
            SegmentRow.avgViews :=
              if negb (count agg =? 0)%nat
              then div (viewsSum agg) (of_nat (count agg))
              else of_Z 0;
            SegmentRow.avgErPercent :=
              if negb (count agg =? 0)%nat
              then mul (div (erSum agg) (of_nat (count agg))) (of_Z 100)
              else of_Z 0 |})
      TIME_SEGMENTS.

(** *** Weekday by hour heatmap *)

Module Heat.
Record agg : Type := {
  weekdayIndex : Z;
  weekday : string;
  hour : Z;
  viewsSum : number;
  count : nat
}.
Record cell : Type := {
  c_weekdayIndex : Z;
  c_weekday : string;
  c_hour : Z;
  avgViews : number
}.
Record t : Type := { cells : list cell; maxViews : number }.

(** The key [`${p.weekdayIndex}-${p.hour}`]: the text determines the pair
    of integers and the pair the text, so the pair itself is the key. *)
Definition key : Type := Z * Z.
Definition key_eqb (a b : key) : bool :=
  (fst a =? fst b) && (snd a =? snd b).
End Heat.

Definition heatmap_cellMap (filteredPosts : list PostRecord)
    : JSMap Heat.key Heat.agg :=
  fold_left
    (fun cellMap p =>
       let key := (weekdayIndex p, hour p) in
       let cellMap :=
         if negb (Map_has Heat.key_eqb cellMap key)
         then Map_set Heat.key_eqb cellMap key
                {| Heat.weekdayIndex := weekdayIndex p;
                   Heat.weekday := weekdayLabel p;
                   Heat.hour := hour p;
                   Heat.viewsSum := of_Z 0;
                   Heat.count := 0 |}
         else cellMap in
       Map_update Heat.key_eqb cellMap key
         (fun cell =>
            {| Heat.weekdayIndex := Heat.weekdayIndex cell;
               Heat.weekday := Heat.weekday cell;
               Heat.hour := Heat.hour cell;
               Heat.viewsSum := add (Heat.viewsSum cell) (views p);
               Heat.count := Heat.count cell + 1 |}))
    filteredPosts [].

Definition heatmapData (filteredPosts : list PostRecord) : Heat.t :=
  let cellMap := heatmap_cellMap filteredPosts in
  let cells :=
    map
      (fun '(_, value) =>
         {| Heat.c_weekdayIndex := Heat.weekdayIndex value;
            Heat.c_weekday := Heat.weekday value;
            Heat.c_hour := Heat.hour value;
            Heat.avgViews :=
              if (0 <? Heat.count value)%nat
              then div (Heat.viewsSum value) (of_nat (Heat.count value))
              else of_Z 0 |})
      cellMap in
  let maxViews :=
    or_else (fold_left (fun m c => Math_max m (Heat.avgViews c)) cells (of_Z 0))
            (of_Z 1) in
  {| Heat.cells := cells; Heat.maxViews := maxViews |}.

(** ** A sample host

    An instance of [Host] for running the pipeline on sample sheets: the
    clock is UTC, the calendar is the proleptic Gregorian one, and number
    literals are plain decimals.  The properties below hold for every host;
    this one only serves to evaluate them on concrete rows. *)

Module SampleHost.

Definition ms_per_day : Z := 86400000.

(** Days since 1970-01-01 of a civil date ([m] from 1 to 12). *)
Definition days_from_civil (y m d : Z) : Z :=
  let y' := if m <=? 2 then y - 1 else y in
  let era := y' / 400 in
  let yoe := y' - era * 400 in
  let mp := if 2 <? m then m - 3 else m + 9 in
  let doy := (153 * mp + 2) / 5 + d - 1 in
  let doe := yoe * 365 + yoe / 4 - yoe / 100 + doy in
  era * 146097 + doe - 719468.

(** The civil date (year, month from 1 to 12, day) of a day number. *)
Definition civil_from_days (days : Z) : Z * Z * Z :=
  let z := days + 719468 in
  let era := z / 146097 in
  let doe := z - era * 146097 in
  let yoe := (doe - doe / 1460 + doe / 36524 - doe / 146096) / 365 in
  let y := yoe + era * 400 in
  let doy := doe - (365 * yoe + yoe / 4 - yoe / 100) in
  let mp := (5 * doy + 2) / 153 in
  let d := doy - (153 * mp + 2) / 5 + 1 in
  let m := if mp <? 10 then mp + 3 else mp - 9 in
  ((if m <=? 2 then y + 1 else y), m, d).

Definition year_of (t : Date) : Z := fst (fst (civil_from_days (t / ms_per_day))).
Definition month_of (t : Date) : Z := snd (fst (civil_from_days (t / ms_per_day))) - 1.
Definition day_of (t : Date) : Z := snd (civil_from_days (t / ms_per_day)).
Definition weekday_of (t : Date) : Z := (t / ms_per_day + 4) mod 7.
Definition hours_of (t : Date) : Z := (t mod ms_per_day) / 3600000.
Definition minutes_of (t : Date) : Z := (t mod 3600000) / 60000.
Definition seconds_of (t : Date) : Z := (t mod 60000) / 1000.
Definition millis_of (t : Date) : Z := t mod 1000.

Definition of_fields (y m d H M S : Z) : Date :=
  let ym := y + m / 12 in
  let mn := m mod 12 in
  (days_from_civil ym (mn + 1) 1 + d - 1) * ms_per_day
  + H * 3600000 + M * 60000 + S * 1000.

(** The largest time value of a valid date. *)
Definition max_time : Z := 8640000000000000.

(** [setHours]: the arguments are truncated to integers and added to the
    start of the day; an argument that is not finite, or a sum out of range,
    leaves an Invalid Date. *)
Definition set_hours (t : Date) (h m s ms : number) : option Date :=
  match h, m, s, ms with
  | Fin h, Fin m, Fin s, Fin ms =>
      let t' :=
        (t / ms_per_day) * ms_per_day
        + Qtrunc h * 3600000 + Qtrunc m * 60000 + Qtrunc s * 1000 + Qtrunc ms in
      if Z.abs t' <=? max_time then Some t' else None
  | _, _, _, _ => None
  end.

Definition is_space (c : ascii) : bool :=
  let n := nat_of_ascii c in
  ((n =? 32) || (n =? 9) || (n =? 10) || (n =? 11) || (n =? 12) || (n =? 13))%nat.

Fixpoint trim_left (s : string) : string :=
  match s with
  | String c s' => if is_space c then trim_left s' else s
  | EmptyString => s
  end.

Fixpoint string_rev (s acc : string) : string :=
  match s with
  | EmptyString => acc
  | String c s' => string_rev s' (String c acc)
  end.

Definition trim (s : string) : string :=
  string_rev (trim_left (string_rev (trim_left s) EmptyString)) EmptyString.

Definition digits (s : string) : option Z :=
  match NilEmpty.uint_of_string s with
  | Some u => Some (Z.of_uint u)
  | None => None
  end.

(** An unsigned decimal literal: digits, with an optional fraction. *)
Definition unsigned_decimal (s : string) : option Q :=
  match String_split "." s with
  | [i] =>
      if String.eqb i EmptyString then None
      else option_map inject_Z (digits i)
  | [i; f] =>
      if String.eqb i EmptyString && String.eqb f EmptyString then None
      else
        match digits i, digits f with
        | Some a, Some b =>
            Some (Qred (inject_Z a
                        + inject_Z b / inject_Z (10 ^ Z.of_nat (String.length f))))
        | _, _ => None
        end
  | _ => None
  end.

Definition string_to_number (s : string) : number :=
  let t := trim s in
  match t with
  | EmptyString => of_Z 0
  | String c t' =>
      let negative := Ascii.eqb c "-"%char in
      let body := if negative || Ascii.eqb c "+"%char then t' else t in
      if String.eqb body "Infinity"%string then inf_of_sign negative
      else
        match unsigned_decimal body with
        | Some q => Fin (if negative then Qred (- q) else q)
        | None => NaN
        end
  end.

(** The digits of [r / d] after the point, at most [fuel] of them. *)
Fixpoint fraction_digits (fuel : nat) (r d : Z) : string :=
  match fuel with
  | O => EmptyString
  | S fuel' =>
      if r =? 0 then EmptyString
      else (Z_toString (10 * r / d) ++ fraction_digits fuel' (10 * r mod d) d)%string
  end.

Definition number_to_string (n : number) : string :=
  match n with
  | NaN => "NaN"%string
  | PInf => "Infinity"%string
  | NInf => "-Infinity"%string
  | Fin q =>
      let q := Qred q in
      let d := Z.pos (Qden q) in
      let a := Z.abs (Qnum q) in
      let sign := if Qnum q <? 0 then "-"%string else EmptyString in
      let frac := fraction_digits 17 (a mod d) d in
      (sign ++ Z_toString (a / d)
       ++ (if String.eqb frac EmptyString then EmptyString else "." ++ frac))%string
  end.

Definition pad2 (z : Z) : string := String_padStart 2 "0" (Z_toString z).
Definition pad3 (z : Z) : string := String_padStart 3 "0" (Z_toString z).
Definition pad4 (z : Z) : string := String_padStart 4 "0" (Z_toString z).

Definition to_iso_string (t : Date) : string :=
  (pad4 (year_of t) ++ "-" ++ pad2 (month_of t + 1) ++ "-" ++ pad2 (day_of t)
   ++ "T" ++ pad2 (hours_of t) ++ ":" ++ pad2 (minutes_of t) ++ ":"
   ++ pad2 (seconds_of t) ++ "." ++ pad3 (millis_of t) ++ "Z")%string.

Definition day_names : list string :=
  ["Sun"; "Mon"; "Tue"; "Wed"; "Thu"; "Fri"; "Sat"]%string.

Definition month_names : list string :=
  ["Jan"; "Feb"; "Mar"; "Apr"; "May"; "Jun";
   "Jul"; "Aug"; "Sep"; "Oct"; "Nov"; "Dec"]%string.

Definition date_to_string (t : Date) : string :=
  (nth (Z.to_nat (weekday_of t)) day_names EmptyString ++ " "
   ++ nth (Z.to_nat (month_of t)) month_names EmptyString ++ " "
   ++ pad2 (day_of t) ++ " " ++ pad4 (year_of t) ++ " "
   ++ pad2 (hours_of t) ++ ":" ++ pad2 (minutes_of t) ++ ":" ++ pad2 (seconds_of t)
   ++ " GMT+0000 (Coordinated Universal Time)")%string.

(** A date-only text [YYYY-MM-DD], read as UTC midnight. *)
Definition date_parse (s : string) : option Date :=
  match String_split "-" (trim s) with
  | [ys; ms; ds] =>
      match digits ys, digits ms, digits ds with
      | Some y, Some m, Some d =>
          if (String.length ys =? 4)%nat && (String.length ms =? 2)%nat
             && (String.length ds =? 2)%nat
             && (1 <=? m) && (m <=? 12) && (1 <=? d) && (d <=? 31)
          then Some (of_fields y (m - 1) d 0 0 0)
          else None
      | _, _, _ => None
      end
  | _ => None
  end.

(** The spreadsheet date serial: whole days count from the end of 1899,
    with the fictitious 29 February 1900 as day 60; the fraction is the
    time of day. *)
Definition date_code (n : number) : option DateCode :=
  match n with
  | Fin q =>
      if Qnegb q || negb (Qle_bool q (inject_Z 2958465)) then None
      else
        let date := Qfloor q in
        let secs := Qfloor ((q - inject_Z date) * inject_Z 86400) in
        let '(y, m, d) :=
          if date =? 0 then (1900, 1, 0)
          else if date =? 60 then (1900, 2, 29)
          else if date <? 60 then civil_from_days (date - 25568)
          else civil_from_days (date - 25569) in
        Some {| dc_y := y; dc_m := m; dc_d := d;
                dc_H := secs / 3600;
                dc_M := (secs / 60) mod 60;
                dc_S := secs mod 60 |}
  | _ => None
  end.

#[export] Instance host : Host := {|
  StringToNumber := string_to_number;
  NumberToString := number_to_string;
  DateToString := date_to_string;
  toISOString := to_iso_string;
  String_trim := trim;
  Date_parse := date_parse;
  parse_date_code := date_code;
  Date_of_fields := of_fields;
  setHours := set_hours;
  getFullYear := year_of;
  getMonth := month_of;
  getDay := weekday_of;
  getHours := hours_of;
  getDay_range := fun t => Z.mod_pos_bound (t / ms_per_day + 4) 7 eq_refl
|}.

End SampleHost.

(** The two rows of the example sheet. *)
Definition sample_rows : list Row := [
  [("Дата", VStr "2024-01-01"); ("Время поста", VStr "10:00:00");
   ("Количество просмотров в день поста", VNum (of_Z 100));
   ("Количество реакций", VNum (of_Z 10)); ("Тип поста", VStr "news")];
  [("Дата", VStr "2024-01-01"); ("Время поста", VStr "22:00:00");
   ("Количество просмотров в день поста", VNum (of_Z 50));
   ("Количество реакций", VNum (of_Z 25)); ("Тип поста", VStr "meme")]
]%string.

Import SampleHost.

(** Three posts on a Monday at nine with 10, 20 and 30 views, and a sheet
    whose only post has no views. *)
Definition monday_nine_rows : list Row := [
  [("Дата", VStr "2024-01-01"); ("Время поста", VStr "09:00:00");
   ("Количество просмотров в день поста", VNum (of_Z 10))];
  [("Дата", VStr "2024-01-01"); ("Время поста", VStr "09:15:00");
   ("Количество просмотров в день поста", VNum (of_Z 20))];
  [("Дата", VStr "2024-01-01"); ("Время поста", VStr "09:30:00");
   ("Количество просмотров в день поста", VNum (of_Z 30))]
]%string.


(** ** Specification-side notions *)

(** The sum and the arithmetic mean of a list of numbers. *)
Definition sum (xs : list number) : number := fold_left add xs (of_Z 0).

Definition mean (xs : list number) : number :=
  div (sum xs) (of_nat (List.length xs)).

(** The sum of a list of rationals. *)
Definition Qsum (qs : list Q) : Q := fold_right Qplus 0%Q qs.

(** The mean of a bucket, zero-filled when the bucket is empty. *)
Definition mean_or_zero (xs : list number) : number :=
  match xs with
  | [] => of_Z 0
  | _ => mean xs
  end.

Definition mean_percent_or_zero (xs : list number) : number :=
  match xs with
  | [] => of_Z 0
  | _ => mul (mean xs) (of_Z 100)
  end.

(** [FilterOf P l r]: [r] is the subsequence of the elements of [l] that
    satisfy [P], in the order of [l]. *)
Inductive FilterOf {A : Type} (P : A -> Prop) : list A -> list A -> Prop :=
| FilterOf_nil : FilterOf P [] []
| FilterOf_keep x l r : P x -> FilterOf P l r -> FilterOf P (x :: l) (x :: r)
| FilterOf_drop x l r : ~ P x -> FilterOf P l r -> FilterOf P (x :: l) r.

(** A record passes the filter stage when every selector is ["all"] or
    equals the field it selects on. *)
Definition passes (st : AppState) (p : PostRecord) : Prop :=
  (selectedMonth st = "all"%string \/ monthKey p = selectedMonth st)
  /\ (selectedPostType st = "all"%string \/ postType p = selectedPostType st)
  /\ (selectedWeekday st = "all"%string \/ weekdayLabel p = selectedWeekday st).

(** The consecutive pairs [(l[i - 1], l[i])] of a list. *)
Definition adjacent_pairs {A : Type} (l : list A) : list (A * A) :=
  combine l (tl l).

(** [g] lies in the half-open hour range of the gap bucket [b]. *)
Definition in_gap_bucket (b : GapBucket) (g : number) : bool :=
  geb g (gb_min b) && ltb g (gb_max b).

(** The later posts of the consecutive pairs, in timestamp order, whose gap
    lies in the range of [b]. *)
Definition gap_members (b : GapBucket) (filteredPosts : list PostRecord)
    : list PostRecord :=
  map snd
    (filter (fun pr => in_gap_bucket b (gapHours_of (fst pr) (snd pr)))
       (adjacent_pairs (Array_sort cmp_dateObj filteredPosts))).

(** The per-bucket counters of the two fixed-bucket aggregators. *)
Definition bucket_count (map : JSMap string BucketAgg) (key : string) : nat :=
  match Map_get String.eqb map key with
  | Some agg => count agg
  | None => 0
  end.

Definition gap_counts (filteredPosts : list PostRecord) : list nat :=
  map (fun b => bucket_count (gapStats_map filteredPosts) (gb_id b)) GAP_BUCKETS.

Definition segment_counts (filteredPosts : list PostRecord) : list nat :=
  map (fun s => bucket_count (timeOfDayStats_map filteredPosts) (ts_id s))
    TIME_SEGMENTS.

(** The bucket a consecutive pair is counted in, and the segment of a
    record. *)
Definition gap_bucket_id (pr : PostRecord * PostRecord) : string :=
  gb_id (gap_bucket_of (gapHours_of (fst pr) (snd pr))).

Definition segment_id (p : PostRecord) : string := ts_id (segment_of p).

(** The records of a weekday, and of a heatmap cell. *)
Definition on_weekday (k : Z) (filteredPosts : list PostRecord) : list PostRecord :=
  filter (fun p => weekdayIndex p =? k) filteredPosts.

Definition in_cell (k : Heat.key) (filteredPosts : list PostRecord)
    : list PostRecord :=
  filter (fun p => Heat.key_eqb (weekdayIndex p, hour p) k) filteredPosts.


(** The entry a grouping loop creates for the first record of a group, and
    the in-place update it applies for every record of the group. *)
Definition wv_init (p : PostRecord) : WeekdayViews.entry :=
  {| WeekdayViews.weekday := weekdayLabel p;
     WeekdayViews.viewsSum := of_Z 0;
     WeekdayViews.count := 0 |}.

Definition wv_upd (p : PostRecord) (entry : WeekdayViews.entry)
    : WeekdayViews.entry :=
  {| WeekdayViews.weekday := WeekdayViews.weekday entry;
     WeekdayViews.viewsSum := add (WeekdayViews.viewsSum entry) (views p);
     WeekdayViews.count := WeekdayViews.count entry + 1 |}.

Definition we_init (p : PostRecord) : WeekdayEr.entry :=
  {| WeekdayEr.weekday := weekdayLabel p;
     WeekdayEr.erSum := of_Z 0;
     WeekdayEr.count := 0 |}.

Definition we_upd (p : PostRecord) (entry : WeekdayEr.entry) : WeekdayEr.entry :=
  {| WeekdayEr.weekday := WeekdayEr.weekday entry;
     WeekdayEr.erSum := add (WeekdayEr.erSum entry) (er p);
     WeekdayEr.count := WeekdayEr.count entry + 1 |}.

Definition heat_key (p : PostRecord) : Heat.key := (weekdayIndex p, hour p).

Definition heat_init (p : PostRecord) : Heat.agg :=
  {| Heat.weekdayIndex := weekdayIndex p;
     Heat.weekday := weekdayLabel p;
     Heat.hour := hour p;
     Heat.viewsSum := of_Z 0;
     Heat.count := 0 |}.

Definition heat_upd (p : PostRecord) (cell : Heat.agg) : Heat.agg :=
  {| Heat.weekdayIndex := Heat.weekdayIndex cell;
     Heat.weekday := Heat.weekday cell;
     Heat.hour := Heat.hour cell;
     Heat.viewsSum := add (Heat.viewsSum cell) (views p);
     Heat.count := Heat.count cell + 1 |}.

(** The weekday label an aggregator stores for a group: that of its first
    record. *)
Definition group_label (g : list PostRecord) : string :=
  match g with
  | p :: _ => weekdayLabel p
  | [] => EmptyString
  end.

(** The cell the heatmap holds for a populated pair of weekday and hour. *)
Definition heat_cell_of (filteredPosts : list PostRecord) (k : Heat.key)
    : Heat.cell :=
  {| Heat.c_weekdayIndex := fst k;
     Heat.c_weekday := group_label (in_cell k filteredPosts);
     Heat.c_hour := snd k;
     Heat.avgViews := mean (map views (in_cell k filteredPosts)) |}.


(** The records the normaliser returns for the rows of a sheet, the first
    row having index [idx]: skipped rows leave no record. *)
Fixpoint returned_from `{Host} (idx : nat) (json : list Row) : list Returned :=
  match json with
  | [] => []
  | row :: rest =>
      match mapRowToPost row idx with
      | Returns r => r :: returned_from (S idx) rest
      | _ => returned_from (S idx) rest
      end
  end.

(** Those of them that have a valid date. *)
Fixpoint normalized_from `{Host} (idx : nat) (json : list Row) : list PostRecord :=
  match json with
  | [] => []
  | row :: rest =>
      match mapRowToPost row idx with
      | Returns (Dated p) => p :: normalized_from (S idx) rest
      | _ => normalized_from (S idx) rest
      end
  end.

(** Some row of the sheet makes the normaliser throw. *)
Fixpoint throws_from `{Host} (idx : nat) (json : list Row) : bool :=
  match json with
  | [] => false
  | row :: rest =>
      match mapRowToPost row idx with
      | RangeError => true
      | _ => throws_from (S idx) rest
      end
  end.

(** The records of the store that an upload installs when all of them have
    a valid date; no records otherwise. *)
Definition installed_posts (u : Upload) : list PostRecord :=
  match u with
  | Installed st => posts st
  | _ => []
  end.

(** The state after the selectors are set to the given choices. *)
Definition with_selectors (st : AppState) (month type weekday : string) : AppState :=
  {| posts := posts st;
     selectedMonth := month;
     selectedPostType := type;
     selectedWeekday := weekday |}.

(** The date cells that JavaScript treats as false. *)
Inductive FalsyDateCell : JSValue -> Prop :=
| Falsy_zero q : (q == 0)%Q -> FalsyDateCell (VNum (Fin q))
| Falsy_empty : FalsyDateCell (VStr EmptyString)
| Falsy_null : FalsyDateCell VNull
| Falsy_undefined : FalsyDateCell VUndefined.

(** The cells of a row that the metrics are read from. *)
Definition views_cell (row : Row) : JSValue :=
  nullish (Row_get row "Количество просмотров в день поста")
          (Row_get row "Количество просмотров общее").

Definition reactions_cell (row : Row) : JSValue := Row_get row "Количество реакций".

Definition er_cell (row : Row) : JSValue := Row_get row "ER (Engagement Rate)".

(** A row has no explicit engagement-rate cell. *)
Definition no_er_cell (row : Row) : Prop :=
  er_cell row = VUndefined \/ er_cell row = VNull
  \/ er_cell row = VStr EmptyString.

(** The fields of a record that the normaliser computes without the date. *)
Definition metrics_of `{Host} (row : Row) (index : nat) (r : Returned) : Prop :=
  id_of r = index
  /\ views_of r = or_else (Number (views_cell row)) (of_Z 0)
  /\ reactions_of r = or_else (Number (reactions_cell row)) (of_Z 0)
  /\ er_of r =
     if not_undefined (er_cell row) && not_null (er_cell row)
        && not_string (er_cell row) EmptyString
     then
       if isFinite (Number (er_cell row))
       then div (Number (er_cell row)) (of_Z 100) else of_Z 0
     else
       if gtb (views_of r) (of_Z 0)
       then div (reactions_of r) (views_of r) else of_Z 0.

(** [n] lies in [0, +Infinity). *)
Definition nonneg_finite (n : number) : bool :=
  leb (of_Z 0) n && ltb n PInf.

(** A row whose views cell holds a negative number. *)
Definition negative_views_row : Row := [
  ("Дата", VStr "2024-01-01");
  ("Количество просмотров в день поста", VNum (of_Z (-5)));
  ("Количество реакций", VNum (of_Z 1))
]%string.

(** Rows without a usable date cell, and a row without views. *)
Definition zero_date_row : Row := [
  ("Дата", VNum (of_Z 0));
  ("Количество просмотров в день поста", VNum (of_Z 7))
]%string.

Definition no_views_row : Row := [
  ("Дата", VStr "2024-01-01"); ("Количество реакций", VNum (of_Z 3))
]%string.

(** ** The rest of the dashboard *)

(** *** Selector options *)

(** [set.add(x)] on a [Set] of strings, kept in insertion order. *)
Definition Set_add (set : list string) (x : string) : list string :=
  if existsb (String.eqb x) set then set else set ++ [x].

(** The UTF-16 code units of a text.  A [string] holds the bytes of the
    UTF-8 form of the text: one to three bytes make one code unit, and the
    four bytes of a code point above U+FFFF make the two code units of a
    surrogate pair.  A byte that does not start a well-formed sequence is
    taken as a code unit itself. *)
Fixpoint code_units (s : string) : list N :=
  match s with
  | EmptyString => []
  | String c1 s1 =>
      let b1 := N_of_ascii c1 in
      if (b1 <? 192)%N then b1 :: code_units s1
      else
        match s1 with
        | EmptyString => [b1]
        | String c2 s2 =>
            let b2 := N_of_ascii c2 in
            if (b1 <? 224)%N
            then ((b1 mod 32) * 64 + b2 mod 64)%N :: code_units s2
            else
              match s2 with
              | EmptyString => [b1; b2]
              | String c3 s3 =>
                  let b3 := N_of_ascii c3 in
                  if (b1 <? 240)%N
                  then ((b1 mod 16) * 4096 + (b2 mod 64) * 64 + b3 mod 64)%N
                       :: code_units s3
                  else
                    match s3 with
                    | EmptyString => [b1; b2; b3]
                    | String c4 s4 =>
                        let b4 := N_of_ascii c4 in
                        let cp :=
                          ((b1 mod 8) * 262144 + (b2 mod 64) * 4096
                           + (b3 mod 64) * 64 + b4 mod 64)%N in
                        let v := (cp - 65536)%N in
                        (55296 + v / 1024)%N :: (56320 + v mod 1024)%N
                        :: code_units s4
                    end
              end
        end
  end.

(** The order of two sequences of code units: the first unit that differs
    decides, and a proper prefix comes first. *)
Fixpoint units_compare (a b : list N) : comparison :=
  match a, b with
  | [], [] => Eq
  | [], _ :: _ => Lt
  | _ :: _, [] => Gt
  | x :: a', y :: b' =>
      match (x ?= y)%N with
      | Eq => units_compare a' b'
      | c => c
      end
  end.

(** The comparison that [sort()] without an argument makes on strings: by
    UTF-16 code units. *)
Definition string_cmp (a b : string) : Z :=
  match units_compare (code_units a) (code_units b) with
  | Lt => -1
  | Eq => 0
  | Gt => 1
  end.

Definition monthOptions (posts : list PostRecord) : list string :=
  let set := fold_left (fun set p => Set_add set (monthKey p)) posts [] in
  Array_sort string_cmp set.

Definition postTypeOptions (posts : list PostRecord) : list string :=
  let set := fold_left (fun set p => Set_add set (postType p)) posts [] in
  Array_sort string_cmp set.

(** *** The time series *)

(** [d.getDate()], the one calendar field the normaliser does not use. *)
Class HostDate : Type := {
  getDate : Date -> Z
}.

#[export] Instance sample_host_date : HostDate := {| getDate := SampleHost.day_of |}.

Definition formatDateLabel `{Host} `{HostDate} (d : Date) : string :=
  let dd := String_padStart 2 "0" (Z_toString (getDate d)) in
  let mm := String_padStart 2 "0" (Z_toString (getMonth d + 1)) in
  (dd ++ "." ++ mm)%string.

Module TimePoint.
Record t : Type := {
  dateLabel : string;
  views : number;
  reactions : number;
  erPercent : number
}.
End TimePoint.

Definition timeSeriesData `{Host} `{HostDate} (filteredPosts : list PostRecord)
    : list TimePoint.t :=
  map
    (fun p =>
       {| TimePoint.dateLabel := formatDateLabel (dateObj p);
          TimePoint.views := views p;
          TimePoint.reactions := reactions p;
          TimePoint.erPercent := mul (er p) (of_Z 100) |})
    filteredPosts.

(** *** Grouped by post type *)

Module PostType.
Record entry : Type := {
  postType : string;
  viewsSum : number;
  erSum : number;
  count : nat
}.
Record row : Type := {
  out_postType : string;
  avgViews : number;
  avgErPercent : number
}.
End PostType.

(** How the sort reads the number a comparator returns: its sign, with
    [NaN] read as zero. *)
Definition compare_result (v : number) : Z :=
  if gtb v (of_Z 0) then 1 else if ltb v (of_Z 0) then -1 else 0.

Definition byPostType_map (filteredPosts : list PostRecord)
    : JSMap string PostType.entry :=
  fold_left
    (fun map p =>
       let map :=
         if negb (Map_has String.eqb map (postType p))
         then Map_set String.eqb map (postType p)
                {| PostType.postType := postType p;
                   PostType.viewsSum := of_Z 0;
                   PostType.erSum := of_Z 0;
                   PostType.count := 0 |}
         else map in
       Map_update String.eqb map (postType p)
         (fun entry =>
            {| PostType.postType := PostType.postType entry;
               PostType.viewsSum := add (PostType.viewsSum entry) (views p);
               PostType.erSum := add (PostType.erSum entry) (er p);
               PostType.count := PostType.count entry + 1 |}))
    filteredPosts [].

(** [Array.from(map.values()).map(...)] *)
Definition byPostType_items (filteredPosts : list PostRecord) : list PostType.row :=
  map
    (fun '(_, v) =>
       {| PostType.out_postType := PostType.postType v;
          PostType.avgViews :=
            if (0 <? PostType.count v)%nat
            then div (PostType.viewsSum v) (of_nat (PostType.count v))
            else of_Z 0;
          PostType.avgErPercent :=
            if (0 <? PostType.count v)%nat
            then mul (div (PostType.erSum v) (of_nat (PostType.count v))) (of_Z 100)
            else of_Z 0 |})
    (byPostType_map filteredPosts).

Definition byPostType (filteredPosts : list PostRecord) : list PostType.row :=
  let items := byPostType_items filteredPosts in
  Array_sort
    (fun a b => compare_result (sub (PostType.avgViews b) (PostType.avgViews a)))
    items.

(** *** The heatmap grid *)

Definition HOURS : list Z := map Z.of_nat (seq 0 24).

Definition getHeatmapColor `{Host} (ratio : number) : string :=
  if leb ratio (of_Z 0) then "#f4f4f5"%string
  else
    let r := Math_round (add (of_Z 245) (mul (sub (of_Z 165) (of_Z 245)) ratio)) in
    let g := Math_round (add (of_Z 240) (mul (sub (of_Z 111) (of_Z 240)) ratio)) in
    let b := Math_round (add (of_Z 255) (mul (sub (of_Z 253) (of_Z 255)) ratio)) in
    ("rgb(" ++ NumberToString r ++ ", " ++ NumberToString g ++ ", "
     ++ NumberToString b ++ ")")%string.

(** [heatmapData.cells.find((c) => c.weekdayIndex === wIdx && c.hour === hour)] *)
Definition heatmap_cell_find (h : Heat.t) (wIdx hour : Z) : option Heat.cell :=
  find (fun c => (Heat.c_weekdayIndex c =? wIdx) && (Heat.c_hour c =? hour))
    (Heat.cells h).

(** The colour ratio of the grid square of a weekday and an hour. *)
Definition heatmap_ratio (h : Heat.t) (wIdx hour : Z) : number :=
  match heatmap_cell_find h wIdx hour with
  | Some cell =>
      if gtb (Heat.maxViews h) (of_Z 0)
      then div (Heat.avgViews cell) (Heat.maxViews h)
      else of_Z 0
  | None => of_Z 0
  end.

(** The colours of the grid: a row per weekday, a square per hour. *)
Definition heatmap_colors `{Host} (h : Heat.t) : list (list string) :=
  map (fun wIdx =>
         map (fun hour => getHeatmapColor (heatmap_ratio h wIdx hour)) HOURS)
    (map Z.of_nat (seq 0 (List.length WEEKDAYS))).

(** ** Further specification-side notions *)

(** The date cell of a row parses. *)
Definition date_parses `{Host} (row : Row) : bool :=
  match parseDate (Row_get row "Дата") with
  | Some _ => true
  | None => false
  end.

(** The indices, counted from [idx], of the rows whose date cell parses. *)
Fixpoint kept_indices `{Host} (idx : nat) (json : list Row) : list nat :=
  match json with
  | [] => []
  | row :: rest =>
      if date_parses row then idx :: kept_indices (S idx) rest
      else kept_indices (S idx) rest
  end.

(** [a] does not come after [b] in the order of UTF-16 code units. *)
Definition utf16_le (a b : string) : Prop :=
  units_compare (code_units a) (code_units b) <> Gt.

(** The gap of a consecutive pair of records, in milliseconds. *)
Definition gap_ms (pr : PostRecord * PostRecord) : Z :=
  getTime (dateObj (snd pr)) - getTime (dateObj (fst pr)).

Definition ms_per_hour : Z := 3600000.

(** The five ranges of gaps, in whole hours: from [lo] on and below [hi];
    the last range has no upper end. *)
Definition gap_ranges : list (string * Z * option Z) :=
  [("<6", 0, Some 6); ("6-12", 6, Some 12); ("12-24", 12, Some 24);
   ("24-48", 24, Some 48); (">48", 48, None)]%string.

(** The gap of the pair is at least [lo] hours and less than [hi] hours. *)
Definition gap_in_range (lo : Z) (hi : option Z) (pr : PostRecord * PostRecord)
    : bool :=
  (lo * ms_per_hour <=? gap_ms pr)
  && match hi with
     | Some hi => gap_ms pr <? hi * ms_per_hour
     | None => true
     end.

(** The later posts of the consecutive pairs of [sorted] whose gap is in
    the range. *)
Definition later_posts (lo : Z) (hi : option Z) (sorted : list PostRecord)
    : list PostRecord :=
  map snd (filter (gap_in_range lo hi) (adjacent_pairs sorted)).

(** The identifier and the two means of a row of the gap chart. *)
Definition gap_row_values (r : GapRow.t) : string * number * number :=
  (GapRow.bucketId r, GapRow.avgViews r, GapRow.avgErPercent r).

(** [l] is in ascending order of [getTime()]; a comparison with [NaN] does
    not hold. *)
Definition ascending_by_time (l : list Returned) : Prop :=
  StronglySorted (fun a b => leb (getTime_of a) (getTime_of b) = true) l.

(** A sheet whose only row has a date serial and, in the time column, a
    number that is no day fraction; and a sheet in which such a row has its
    date as text. *)
Definition serial_date_bad_time_rows : list Row := [
  [("Дата", VNum (of_Z 45292)); ("Время поста", VNum (of_Z 123456789));
   ("Количество просмотров в день поста", VNum (of_Z 7))]
]%string.

Definition text_date_bad_time_rows : list Row := [
  [("Дата", VStr "2024-01-02"); ("Время поста", VStr "10:00:00");
   ("Количество просмотров в день поста", VNum (of_Z 5))];
  [("Дата", VStr "2024-01-01"); ("Время поста", VNum (of_Z 123456789));
   ("Количество просмотров в день поста", VNum (of_Z 7))]
]%string.

(** The hour of [p] lies in the half-open range of the segment [s]. *)
Definition in_segment (s : TimeSegment) (p : PostRecord) : bool :=
  (minHour s <=? hour p) && (hour p <? maxHour s).

Definition segment_members (s : TimeSegment) (filteredPosts : list PostRecord)
    : list PostRecord :=
  filter (in_segment s) filteredPosts.

(** The records of a post type. *)
Definition of_type (t : string) (filteredPosts : list PostRecord) : list PostRecord :=
  filter (fun p => String.eqb (postType p) t) filteredPosts.

Definition pt_init (p : PostRecord) : PostType.entry :=
  {| PostType.postType := postType p;
     PostType.viewsSum := of_Z 0;
     PostType.erSum := of_Z 0;
     PostType.count := 0 |}.

Definition pt_upd (p : PostRecord) (entry : PostType.entry) : PostType.entry :=
  {| PostType.postType := PostType.postType entry;
     PostType.viewsSum := add (PostType.viewsSum entry) (views p);
     PostType.erSum := add (PostType.erSum entry) (er p);
     PostType.count := PostType.count entry + 1 |}.

(** The row of the post-type chart for the type [t]. *)
Definition post_type_row (filteredPosts : list PostRecord) (t : string)
    : PostType.row :=
  {| PostType.out_postType := t;
     PostType.avgViews := mean (map views (of_type t filteredPosts));
     PostType.avgErPercent :=
       mul (mean (map er (of_type t filteredPosts))) (of_Z 100) |}.

(** The time cell of a row. *)
Definition time_cell (row : Row) : JSValue := Row_get row "Время поста".

(** A two-digit decimal text read back as an integer. *)
Definition read_decimal (s : string) : option Z :=
  option_map Z.of_int (NilZero.int_of_string s).

(** A row whose time cell holds half a day, and a row with blank cells. *)
Definition noon_row : Row := [
  ("Дата", VStr "2024-01-01"); ("Время поста", VNum (Fin (1 # 2)))
]%string.

Definition blank_cells_row : Row := [
  ("Дата", VStr "2024-01-01");
  ("Количество просмотров в день поста", VStr EmptyString);
  ("Количество просмотров общее", VNum (of_Z 900));
  ("Тип поста", VStr EmptyString)
]%string.

(** The colour of a square: grey, or an [rgb] text within the gradient. *)
Definition in_gradient `{Host} (color : string) : Prop :=
  exists r g b,
    165 <= r <= 245 /\ 111 <= g <= 240 /\ 253 <= b <= 255
    /\ color =
       ("rgb(" ++ NumberToString (of_Z r) ++ ", " ++ NumberToString (of_Z g)
        ++ ", " ++ NumberToString (of_Z b) ++ ")")%string.

(** * Properties *)

(** ** Facts about the JavaScript [Map] *)

Section JSMapFacts.
Context {K V : Type}.
Variable eqb : K -> K -> bool.
Hypothesis eqb_spec : forall a b, eqb a b = true <-> a = b.

Lemma eqb_refl_true (k : K) : eqb k k = true.
Proof. now apply eqb_spec. Qed.

Lemma eqb_neq_false (a b : K) : a <> b -> eqb a b = false.
Proof.
  intros Hne. destruct (eqb a b) eqn:E; [|reflexivity].
  apply eqb_spec in E. contradiction.
Qed.

Lemma Map_get_set_same (m : JSMap K V) k v :
  Map_get eqb (Map_set eqb m k v) k = Some v.
Proof.
  induction m as [|[k' v'] m IH]; simpl.
  - now rewrite eqb_refl_true.
  - destruct (eqb k' k) eqn:E; simpl.
    + now rewrite eqb_refl_true.
    + now rewrite E.
Qed.

Lemma Map_get_set_other (m : JSMap K V) k k' v :
  k <> k' -> Map_get eqb (Map_set eqb m k v) k' = Map_get eqb m k'.
Proof.
  intros Hne. induction m as [|[k0 v0] m IH]; simpl.
  - now rewrite eqb_neq_false.
  - destruct (eqb k0 k) eqn:E; simpl.
    + apply eqb_spec in E. subst k0. now rewrite eqb_neq_false.
    + now rewrite IH.
Qed.

Lemma Map_get_In (m : JSMap K V) k v :
  Map_get eqb m k = Some v -> In (k, v) m.
Proof.
  induction m as [|[k' v'] m IH]; simpl; [discriminate|].
  destruct (eqb k' k) eqn:E.
  - apply eqb_spec in E. intros [= ->]. subst. now left.
  - intros Hg. right. now apply IH.
Qed.

Lemma Map_get_None_keys (m : JSMap K V) k :
  Map_get eqb m k = None <-> ~ In k (map fst m).
Proof.
  induction m as [|[k' v'] m IH]; simpl.
  - tauto.
  - destruct (eqb k' k) eqn:E.
    + apply eqb_spec in E. split; [discriminate|]. intros Hn. exfalso. auto.
    + rewrite IH. split.
      * intros Hn [Heq|Hin]; [|tauto].
        apply eqb_spec in Heq. congruence.
      * tauto.
Qed.

Lemma Map_has_keys (m : JSMap K V) k :
  Map_has eqb m k = true <-> In k (map fst m).
Proof.
  unfold Map_has. destruct (Map_get eqb m k) eqn:E.
  - split; [intros _|reflexivity].
    apply Map_get_In in E. now apply (in_map fst) in E.
  - split; [discriminate|]. intros Hin.
    apply Map_get_None_keys in E. contradiction.
Qed.

Lemma In_Map_get (m : JSMap K V) k v :
  NoDup (map fst m) -> In (k, v) m -> Map_get eqb m k = Some v.
Proof.
  induction m as [|[k' v'] m IH]; simpl; [tauto|].
  intros Hnd [Heq|Hin].
  - injection Heq as -> ->. now rewrite eqb_refl_true.
  - inversion Hnd as [|? ? Hnotin Hnd']; subst.
    destruct (eqb k' k) eqn:E.
    + apply eqb_spec in E. subst k'.
      exfalso. apply Hnotin. now apply (in_map fst) in Hin.
    + now apply IH.
Qed.

Lemma Map_set_keys (m : JSMap K V) k v :
  map fst (Map_set eqb m k v) =
  if Map_has eqb m k then map fst m else map fst m ++ [k].
Proof.
  unfold Map_has.
  induction m as [|[k' v'] m IH]; simpl; [reflexivity|].
  destruct (eqb k' k) eqn:E; simpl.
  - apply eqb_spec in E. now subst.
  - rewrite IH. now destruct (Map_get eqb m k).
Qed.

Lemma Map_update_keys (m : JSMap K V) k f :
  map fst (Map_update eqb m k f) = map fst m.
Proof.
  unfold Map_update. destruct (Map_get eqb m k) eqn:E; [|reflexivity].
  rewrite Map_set_keys. unfold Map_has. now rewrite E.
Qed.

Lemma Map_get_update_same (m : JSMap K V) k f :
  Map_get eqb (Map_update eqb m k f) k = option_map f (Map_get eqb m k).
Proof.
  unfold Map_update. destruct (Map_get eqb m k) eqn:E; simpl.
  - apply Map_get_set_same.
  - exact E.
Qed.

Lemma Map_get_update_other (m : JSMap K V) k k' f :
  k <> k' -> Map_get eqb (Map_update eqb m k f) k' = Map_get eqb m k'.
Proof.
  intros Hne. unfold Map_update. destruct (Map_get eqb m k); [|reflexivity].
  now apply Map_get_set_other.
Qed.

(** *** A fold that updates the accumulator of each item's bucket *)

Section BucketFold.
Context {A : Type}.
Variable bucket : A -> K.
Variable upd : A -> V -> V.

Lemma bucket_fold_cons x xs m :
  bucket_fold eqb bucket upd (x :: xs) m =
  bucket_fold eqb bucket upd xs (Map_update eqb m (bucket x) (upd x)).
Proof. reflexivity. Qed.

Lemma bucket_fold_keys xs m :
  map fst (bucket_fold eqb bucket upd xs m) = map fst m.
Proof.
  revert m. induction xs as [|x xs IH]; intros m; [reflexivity|].
  rewrite bucket_fold_cons, IH. apply Map_update_keys.
Qed.

Lemma bucket_fold_get xs m k :
  Map_get eqb (bucket_fold eqb bucket upd xs m) k =
  option_map
    (fun v => fold_left (fun v x => upd x v)
                (filter (fun x => eqb (bucket x) k) xs) v)
    (Map_get eqb m k).
Proof.
  revert m. induction xs as [|x xs IH]; intros m.
  - simpl. now destruct (Map_get eqb m k).
  - rewrite bucket_fold_cons, IH. simpl.
    destruct (eqb (bucket x) k) eqn:E.
    + apply eqb_spec in E. subst k. rewrite Map_get_update_same.
      now destruct (Map_get eqb m (bucket x)).
    + rewrite Map_get_update_other; [reflexivity|].
      intros Heq. apply eqb_spec in Heq. congruence.
Qed.
End BucketFold.

(** *** A fold that creates the group of an item on first sight *)

Section GroupFold.
Context {A : Type}.
Variable key : A -> K.
Variable init : A -> V.
Variable upd : A -> V -> V.

Lemma group_fold_cons x xs m :
  group_fold eqb key init upd (x :: xs) m =
  group_fold eqb key init upd xs (group_step eqb key init upd m x).
Proof. reflexivity. Qed.

Lemma group_step_get_same m x :
  Map_get eqb (group_step eqb key init upd m x) (key x) =
  Some (upd x (match Map_get eqb m (key x) with
               | Some v => v
               | None => init x
               end)).
Proof.
  unfold group_step, Map_has.
  destruct (Map_get eqb m (key x)) eqn:E; simpl.
  - rewrite Map_get_update_same, E. reflexivity.
  - rewrite Map_get_update_same, Map_get_set_same. reflexivity.
Qed.

Lemma group_step_get_other m x k :
  key x <> k ->
  Map_get eqb (group_step eqb key init upd m x) k = Map_get eqb m k.
Proof.
  intros Hne. unfold group_step.
  rewrite Map_get_update_other by assumption.
  destruct (negb (Map_has eqb m (key x))); [|reflexivity].
  now apply Map_get_set_other.
Qed.

Lemma group_step_keys m x :
  map fst (group_step eqb key init upd m x) =
  if Map_has eqb m (key x) then map fst m else map fst m ++ [key x].
Proof.
  unfold group_step. rewrite Map_update_keys.
  destruct (Map_has eqb m (key x)) eqn:E; simpl; [reflexivity|].
  rewrite Map_set_keys, E. reflexivity.
Qed.

Lemma group_fold_get_from xs m k :
  Map_get eqb (group_fold eqb key init upd xs m) k =
  match Map_get eqb m k with
  | Some v =>
      Some (fold_left (fun v x => upd x v)
              (filter (fun x => eqb (key x) k) xs) v)
  | None => group_value init upd (filter (fun x => eqb (key x) k) xs)
  end.
Proof.
  revert m. induction xs as [|x xs IH]; intros m.
  - simpl. now destruct (Map_get eqb m k).
  - rewrite group_fold_cons, IH. simpl.
    destruct (eqb (key x) k) eqn:E.
    + apply eqb_spec in E. subst k. rewrite group_step_get_same.
      now destruct (Map_get eqb m (key x)).
    + rewrite group_step_get_other; [reflexivity|].
      intros Heq. apply eqb_spec in Heq. congruence.
Qed.

Lemma group_fold_get xs k :
  Map_get eqb (group_fold eqb key init upd xs []) k =
  group_value init upd (filter (fun x => eqb (key x) k) xs).
Proof. now rewrite group_fold_get_from. Qed.

Lemma group_fold_NoDup xs m :
  NoDup (map fst m) -> NoDup (map fst (group_fold eqb key init upd xs m)).
Proof.
  revert m. induction xs as [|x xs IH]; intros m Hnd; [assumption|].
  rewrite group_fold_cons. apply IH. rewrite group_step_keys.
  destruct (Map_has eqb m (key x)) eqn:E; [assumption|].
  apply Permutation_NoDup with (l := key x :: map fst m).
  - apply Permutation_cons_append.
  - constructor; [|assumption].
    intros Hin. apply Map_has_keys in Hin. congruence.
Qed.

Lemma group_fold_In_keys xs m k :
  In k (map fst (group_fold eqb key init upd xs m)) <->
  In k (map fst m) \/ exists x, In x xs /\ key x = k.
Proof.
  revert m. induction xs as [|x xs IH]; intros m.
  - simpl. split; [now left|]. intros [?|[? [[] _]]]. assumption.
  - rewrite group_fold_cons, IH, group_step_keys. simpl.
    destruct (Map_has eqb m (key x)) eqn:E.
    + apply Map_has_keys in E. split.
      * intros [?|[y [? ?]]]; [now left|]. right. exists y. tauto.
      * intros [?|[y [[->|?] ?]]]; [now left| |].
        -- left. now subst.
        -- right. now exists y.
    + rewrite in_app_iff. simpl. split.
      * intros [[?|[?|[]]]|[y [? ?]]].
        -- now left.
        -- right. exists x. tauto.
        -- right. exists y. tauto.
      * intros [?|[y [[->|?] ?]]].
        -- left. now left.
        -- left. right. now left.
        -- right. now exists y.
Qed.
End GroupFold.
End JSMapFacts.

(** ** Facts about [Array.prototype.sort] *)

Section SortFacts.
Context {A : Type}.

Lemma sort_insert_Permutation (cmp : A -> A -> Z) x l :
  Permutation (x :: l) (sort_insert cmp x l).
Proof.
  induction l as [|y l IH]; simpl; [reflexivity|].
  destruct (0 <? cmp x y); [|reflexivity].
  rewrite perm_swap. now apply perm_skip.
Qed.

Lemma Array_sort_Permutation (cmp : A -> A -> Z) l :
  Permutation l (Array_sort cmp l).
Proof.
  induction l as [|x l IH]; simpl; [reflexivity|].
  rewrite <- sort_insert_Permutation. now apply perm_skip.
Qed.

Lemma Array_sort_length (cmp : A -> A -> Z) l :
  List.length (Array_sort cmp l) = List.length l.
Proof. symmetry. apply Permutation_length, Array_sort_Permutation. Qed.

Lemma Array_sort_In (cmp : A -> A -> Z) l x :
  In x (Array_sort cmp l) <-> In x l.
Proof.
  split; apply Permutation_in;
    [symmetry|]; apply Array_sort_Permutation.
Qed.

(** A comparator [(a, b) => key(a) - key(b)]. *)
Variable key : A -> Z.

Lemma sort_insert_sorted x l :
  StronglySorted (key_le key) l -> StronglySorted (key_le key) (sort_insert (by_key key) x l).
Proof.
  induction 1 as [|y l Hs IH Hall]; simpl.
  - constructor; constructor.
  - unfold by_key at 1. destruct (0 <? key x - key y) eqn:E.
    + apply Z.ltb_lt in E. constructor; [assumption|].
      apply (Permutation_Forall (sort_insert_Permutation (by_key key) x l)).
      constructor; [unfold key_le; lia|assumption].
    + apply Z.ltb_ge in E. constructor.
      * now constructor.
      * constructor; [unfold key_le; lia|].
        apply Forall_impl with (P := key_le key y); [|assumption].
        unfold key_le. intros; lia.
Qed.

Lemma Array_sort_sorted l : StronglySorted (key_le key) (Array_sort (by_key key) l).
Proof.
  induction l as [|x l IH]; simpl; [constructor|].
  now apply sort_insert_sorted.
Qed.

Lemma sort_insert_stable t x l :
  filter (fun a => key a =? t) (sort_insert (by_key key) x l) =
  filter (fun a => key a =? t) (x :: l).
Proof.
  induction l as [|y l IH]; [reflexivity|].
  cbn [sort_insert]. unfold by_key at 1.
  destruct (0 <? key x - key y) eqn:E; [|reflexivity].
  apply Z.ltb_lt in E. cbn [filter] in *. rewrite IH.
  destruct (key x =? t) eqn:Ex, (key y =? t) eqn:Ey; try reflexivity.
  apply Z.eqb_eq in Ex, Ey. lia.
Qed.

(** Stability: records with equal keys keep their relative order. *)
Lemma Array_sort_stable t l :
  filter (fun a => key a =? t) (Array_sort (by_key key) l) =
  filter (fun a => key a =? t) l.
Proof.
  induction l as [|x l IH]; [reflexivity|].
  cbn [Array_sort]. rewrite sort_insert_stable. cbn [filter].
  now rewrite IH.
Qed.

(** On distinct keys the order is strict. *)
Lemma Array_sort_strict l :
  NoDup (map key l) -> StronglySorted Z.lt (map key (Array_sort (by_key key) l)).
Proof.
  intros Hnd.
  assert (Hnd' : NoDup (map key (Array_sort (by_key key) l))).
  { apply Permutation_NoDup with (l := map key l); [|assumption].
    apply Permutation_map, Array_sort_Permutation. }
  pose proof (Array_sort_sorted l) as Hs.
  induction Hs as [|y s Hs IH Hall]; simpl; [constructor|].
  inversion Hnd' as [|? ? Hnotin Hnd'']; subst.
  constructor; [now apply IH|].
  apply Forall_forall. intros k Hin.
  apply in_map_iff in Hin as [z [<- Hz]].
  rewrite Forall_forall in Hall. specialize (Hall z Hz). unfold key_le in Hall.
  assert (key y <> key z) by (intros Heq; apply Hnotin; rewrite Heq; now apply in_map).
  lia.
Qed.
(** The stable sorted arrangement is unique: two lists in key order that
    agree, for every key, on the sequence of elements with that key are
    equal.  So any stable sort returns what [Array_sort] returns. *)
Lemma stable_sorted_unique l1 l2 :
  StronglySorted (key_le key) l1 -> StronglySorted (key_le key) l2 ->
  (forall t, filter (fun a => key a =? t) l1 = filter (fun a => key a =? t) l2) ->
  l1 = l2.
Proof.
  intros Hs1. revert l2.
  induction Hs1 as [|x l1 Hs1 IH Hall1]; intros l2 Hs2 Hf.
  - destruct l2 as [|y l2]; [reflexivity|].
    specialize (Hf (key y)). simpl in Hf. rewrite Z.eqb_refl in Hf. discriminate.
  - destruct Hs2 as [|y l2 Hs2 Hall2].
    + specialize (Hf (key x)). simpl in Hf. rewrite Z.eqb_refl in Hf. discriminate.
    + assert (Hxy : key x = key y).
      { rewrite Forall_forall in Hall1, Hall2. unfold key_le in *.
        assert (Hx : In x (y :: l2)).
        { pose proof (Hf (key x)) as Hfx. simpl in Hfx. rewrite Z.eqb_refl in Hfx.
          assert (Hin : In x (filter (fun a => key a =? key x) (y :: l2)))
            by (simpl; rewrite <- Hfx; now left).
          now apply filter_In in Hin. }
        assert (Hy : In y (x :: l1)).
        { pose proof (Hf (key y)) as Hfy. simpl in Hfy. rewrite Z.eqb_refl in Hfy.
          assert (Hin : In y (filter (fun a => key a =? key y) (x :: l1)))
            by (simpl; rewrite Hfy; now left).
          now apply filter_In in Hin. }
        destruct Hx as [->|Hx]; [reflexivity|].
        destruct Hy as [->|Hy]; [reflexivity|].
        specialize (Hall1 y Hy). specialize (Hall2 x Hx). lia. }
      assert (Heq : x = y).
      { specialize (Hf (key x)). simpl in Hf.
        rewrite <- Hxy, Z.eqb_refl in Hf. now injection Hf. }
      subst y. f_equal. apply IH; [assumption|].
      intros t. specialize (Hf t). simpl in Hf.
      destruct (key x =? t); [now injection Hf|assumption].
Qed.

Lemma Array_sort_unique l l' :
  StronglySorted (key_le key) l' ->
  (forall t, filter (fun a => key a =? t) l' = filter (fun a => key a =? t) l) ->
  l' = Array_sort (by_key key) l.
Proof.
  intros Hs Hf. apply stable_sorted_unique; [assumption|apply Array_sort_sorted|].
  intros t. now rewrite Array_sort_stable.
Qed.
End SortFacts.

(** ** Facts about sums and means *)

Lemma fold_add_map {A : Type} (f : A -> number) (l : list A) (a : number) :
  fold_left (fun acc p => add acc (f p)) l a = fold_left add (map f l) a.
Proof.
  revert a. induction l as [|x l IH]; intros a; simpl; [reflexivity|].
  apply IH.
Qed.

Lemma sum_finite (xs : list number) (a : Q) :
  Forall (fun x => isFinite x = true) xs ->
  exists q, fold_left add xs (Fin a) = Fin q.
Proof.
  intros Hall. revert a.
  induction Hall as [|x xs Hx Hall IH]; intros a; simpl.
  - now exists a.
  - destruct x as [| | |q]; try discriminate. apply IH.
Qed.

Lemma of_nat_pos_nonzero (n : nat) :
  (0 < n)%nat -> Qzerob (inject_Z (Z.of_nat n)) = false.
Proof.
  intros Hn. unfold Qzerob.
  destruct (Qeq_bool (inject_Z (Z.of_nat n)) 0) eqn:E; [|reflexivity].
  apply Qeq_bool_iff in E. unfold Qeq in E. simpl in E. lia.
Qed.

Lemma mean_finite (xs : list number) :
  xs <> [] -> Forall (fun x => isFinite x = true) xs ->
  exists q, mean xs = Fin q.
Proof.
  intros Hne Hall. unfold mean, sum.
  destruct (sum_finite xs (inject_Z 0) Hall) as [q Hq].
  unfold of_Z at 1. rewrite Hq. unfold of_nat, of_Z, div.
  rewrite of_nat_pos_nonzero.
  - eexists. reflexivity.
  - destruct xs; [contradiction|simpl; lia].
Qed.

(** On finite numbers [sum] and [mean] are the sum and the arithmetic mean
    of the rationals. *)
Lemma sum_Fin (qs : list Q) (a : Q) :
  exists r, fold_left add (map Fin qs) (Fin a) = Fin r /\ (r == a + Qsum qs)%Q.
Proof.
  revert a. induction qs as [|q qs IH]; intros a; simpl.
  - exists a. split; [reflexivity|]. now rewrite Qplus_0_r.
  - destruct (IH (Qred (a + q))) as (r & Hr & Heq).
    exists r. split; [exact Hr|].
    rewrite Heq, Qred_correct. now rewrite Qplus_assoc.
Qed.

Lemma mean_Fin (qs : list Q) :
  qs <> [] ->
  exists m,
    mean (map Fin qs) = Fin m
    /\ (m == Qsum qs / inject_Z (Z.of_nat (List.length qs)))%Q.
Proof.
  intros Hne. unfold mean, sum.
  destruct (sum_Fin qs (inject_Z 0)) as (r & Hr & Heq).
  unfold of_Z at 1. rewrite Hr, length_map. unfold of_nat, of_Z, div.
  rewrite of_nat_pos_nonzero by (destruct qs; [contradiction|simpl; lia]).
  eexists. split; [reflexivity|].
  rewrite Qred_correct, Heq. now rewrite Qplus_0_l.
Qed.

(** ** The KPI summary *)

(** C5. The KPI summary of an empty set is all zeros; otherwise it is the
    record count and the arithmetic means of views, reactions and engagement
    rate, the latter as a fraction. *)
Theorem kpi_is_count_and_means (filteredPosts : list PostRecord) :
  kpi filteredPosts =
  match filteredPosts with
  | [] =>
      {| Kpi.totalPosts := 0;
         Kpi.avgViews := of_Z 0;
         Kpi.avgReactions := of_Z 0;
         Kpi.avgEr := of_Z 0 |}
  | _ :: _ =>
      {| Kpi.totalPosts := List.length filteredPosts;
         Kpi.avgViews := mean (map views filteredPosts);
         Kpi.avgReactions := mean (map reactions filteredPosts);
         Kpi.avgEr := mean (map er filteredPosts) |}
  end.
Proof.
  destruct filteredPosts as [|p l]; [reflexivity|].
  unfold kpi, mean, sum.
  change (List.length (p :: l) =? 0)%nat with false. cbv iota.
  rewrite (fold_add_map views), (fold_add_map reactions), (fold_add_map er).
  rewrite !length_map. reflexivity.
Qed.

(** The example sheet: mean views 75, mean reactions 17.5, mean rate 0.30. *)
Example kpi_sample :
  kpi (installed_posts (handleFileUpload sample_rows)) =
  {| Kpi.totalPosts := 2;
     Kpi.avgViews := of_Z 75;
     Kpi.avgReactions := Fin (35 # 2);
     Kpi.avgEr := Fin (3 # 10) |}.
Proof. vm_compute. reflexivity. Qed.

(** ** The filter stage *)

Lemma filter_FilterOf {A : Type} (P : A -> Prop) (f : A -> bool) (l : list A) :
  (forall x, f x = true <-> P x) -> FilterOf P l (filter f l).
Proof.
  intros Hf. induction l as [|x l IH]; simpl; [constructor|].
  destruct (f x) eqn:E.
  - apply FilterOf_keep; [now apply Hf|assumption].
  - apply FilterOf_drop; [|assumption].
    intros HP. apply Hf in HP. congruence.
Qed.

Lemma selector_passes (sel field : string) :
  negb (String.eqb sel "all") && negb (String.eqb field sel) = false <->
  (sel = "all"%string \/ field = sel).
Proof.
  destruct (String.eqb_spec sel "all"), (String.eqb_spec field sel);
    simpl; intuition congruence.
Qed.

(** C6. The filter stage returns the subsequence of the store whose records
    satisfy every active selector, in store order; with the three selectors
    at ["all"] it returns the store unchanged. *)
Theorem filteredPosts_is_selected_subsequence (st : AppState) :
  FilterOf (passes st) (posts st) (filteredPosts st)
  /\ (forall store,
        filteredPosts {| posts := store;
                         selectedMonth := "all";
                         selectedPostType := "all";
                         selectedWeekday := "all" |} = store).
Proof.
  split.
  - apply filter_FilterOf. intros p. unfold passes.
    rewrite <- !selector_passes.
    destruct (negb (String.eqb (selectedMonth st) "all")
              && negb (String.eqb (monthKey p) (selectedMonth st)));
      destruct (negb (String.eqb (selectedPostType st) "all")
                && negb (String.eqb (postType p) (selectedPostType st)));
      destruct (negb (String.eqb (selectedWeekday st) "all")
                && negb (String.eqb (weekdayLabel p) (selectedWeekday st)));
      intuition congruence.
  - intros store. unfold filteredPosts. simpl.
    induction store as [|p l IH]; simpl; [reflexivity|]. now rewrite IH.
Qed.

(** ** The fixed-bucket aggregators *)

Lemma string_eqb_spec (a b : string) : String.eqb a b = true <-> a = b.
Proof. apply String.eqb_eq. Qed.

Lemma agg_add_fold {A : Type} (f : A -> PostRecord) (xs : list A) (v : BucketAgg) :
  let r := fold_left (fun v x => agg_add (f x) v) xs v in
  label r = label v
  /\ viewsSum r = fold_left add (map (fun x => views (f x)) xs) (viewsSum v)
  /\ erSum r = fold_left add (map (fun x => er (f x)) xs) (erSum v)
  /\ count r = (count v + List.length xs)%nat.
Proof.
  revert v. induction xs as [|x xs IH]; intros v; simpl.
  - repeat split. lia.
  - destruct (IH (agg_add (f x) v)) as (Hl & Hv & He & Hc).
    simpl in *. repeat split; try assumption. lia.
Qed.

(** The counters of the buckets add up to the number of items, when every
    item is classified into one of the buckets. *)
Lemma one_bucket_each (c : string) (g : string -> nat) (ids : list string) :
  NoDup ids -> In c ids ->
  list_sum (map (fun k => if String.eqb c k then S (g k) else g k) ids) =
  S (list_sum (map g ids)).
Proof.
  induction 1 as [|k ids Hnotin Hnd IH]; simpl; [tauto|].
  intros [->|Hin].
  - rewrite String.eqb_refl.
    replace (map (fun k => if String.eqb c k then S (g k) else g k) ids)
      with (map g ids); [reflexivity|].
    apply map_ext_in. intros k Hk.
    destruct (String.eqb_spec c k); [subst; contradiction|reflexivity].
  - destruct (String.eqb_spec c k); [subst; contradiction|].
    rewrite IH by assumption. lia.
Qed.

Lemma list_sum_zero {A : Type} (l : list A) :
  list_sum (map (fun _ => 0%nat) l) = 0%nat.
Proof. induction l; simpl; assumption || reflexivity. Qed.

Lemma partition_count {A : Type} (classify : A -> string) (ids : list string)
    (xs : list A) :
  NoDup ids -> (forall x, In (classify x) ids) ->
  list_sum
    (map (fun k => List.length (filter (fun x => String.eqb (classify x) k) xs)) ids)
  = List.length xs.
Proof.
  intros Hnd Hin. induction xs as [|x xs IH]; simpl.
  - apply list_sum_zero.
  - rewrite <- IH.
    rewrite <- (one_bucket_each (classify x)
                  (fun k => List.length (filter (fun x => String.eqb (classify x) k) xs))
                  ids Hnd (Hin x)).
    f_equal. apply map_ext. intros k.
    now destruct (String.eqb (classify x) k).
Qed.

Lemma gap_loop_bucket_fold prev rest m :
  gap_loop prev rest m =
  bucket_fold String.eqb gap_bucket_id (fun pr => agg_add (snd pr))
    (adjacent_pairs (prev :: rest)) m.
Proof.
  revert prev m. induction rest as [|cur rest IH]; intros prev m; [reflexivity|].
  cbn [gap_loop]. rewrite IH. reflexivity.
Qed.

Lemma gapStats_map_bucket_fold filteredPosts :
  gapStats_map filteredPosts =
  bucket_fold String.eqb gap_bucket_id (fun pr => agg_add (snd pr))
    (adjacent_pairs (Array_sort cmp_dateObj filteredPosts)) gap_map_init.
Proof.
  unfold gapStats_map.
  destruct (Array_sort cmp_dateObj filteredPosts) as [|first rest]; [reflexivity|].
  apply gap_loop_bucket_fold.
Qed.

Lemma timeOfDayStats_map_bucket_fold filteredPosts :
  timeOfDayStats_map filteredPosts =
  bucket_fold String.eqb segment_id agg_add filteredPosts segment_map_init.
Proof. reflexivity. Qed.

Lemma gap_bucket_of_In g : In (gap_bucket_of g) GAP_BUCKETS.
Proof.
  unfold gap_bucket_of.
  destruct (find _ GAP_BUCKETS) as [b|] eqn:E.
  - now apply find_some in E.
  - unfold gap_last_bucket. simpl. tauto.
Qed.

Lemma segment_of_In p : In (segment_of p) TIME_SEGMENTS.
Proof.
  unfold segment_of.
  destruct (find _ TIME_SEGMENTS) as [b|] eqn:E.
  - now apply find_some in E.
  - unfold segment_first. simpl. tauto.
Qed.

Lemma bucket_count_fold {A : Type} (classify : A -> string) (f : A -> PostRecord)
    (xs : list A) (m : JSMap string BucketAgg) (k : string) (v : BucketAgg) :
  Map_get String.eqb m k = Some v -> count v = 0%nat ->
  bucket_count (bucket_fold String.eqb classify (fun x => agg_add (f x)) xs m) k =
  List.length (filter (fun x => String.eqb (classify x) k) xs).
Proof.
  intros Hget Hzero. unfold bucket_count.
  rewrite (bucket_fold_get String.eqb string_eqb_spec), Hget. simpl.
  destruct (agg_add_fold f (filter (fun x => String.eqb (classify x) k) xs) v)
    as (_ & _ & _ & Hc).
  rewrite Hc, Hzero. reflexivity.
Qed.

Lemma adjacent_pairs_length {A : Type} (l : list A) :
  List.length (adjacent_pairs l) = (List.length l - 1)%nat.
Proof.
  unfold adjacent_pairs. rewrite length_combine.
  destruct l as [|x l]; [reflexivity|]. cbn [tl List.length].
  rewrite Nat.sub_succ, Nat.sub_0_r. apply Nat.min_r. lia.
Qed.

(** The counters of the accumulator maps, whatever the number of records:
    one count per consecutive pair, and one count per record. *)
Lemma fixed_bucket_counts (filteredPosts : list PostRecord) :
  list_sum (gap_counts filteredPosts) = (List.length filteredPosts - 1)%nat
  /\ list_sum (segment_counts filteredPosts) = List.length filteredPosts.
Proof.
  split.
  - unfold gap_counts. rewrite gapStats_map_bucket_fold.
    rewrite <- (Array_sort_length cmp_dateObj filteredPosts).
    rewrite <- adjacent_pairs_length.
    rewrite <- (partition_count gap_bucket_id (map gb_id GAP_BUCKETS)).
    + rewrite map_map. f_equal. apply map_ext_in. intros b Hb.
      simpl in Hb.
      destruct Hb as [<-|[<-|[<-|[<-|[<-|[]]]]]];
        eapply bucket_count_fold; reflexivity.
    + simpl. repeat constructor; simpl; intuition discriminate.
    + intros pr. unfold gap_bucket_id. apply in_map, gap_bucket_of_In.
  - unfold segment_counts. rewrite timeOfDayStats_map_bucket_fold.
    rewrite <- (partition_count segment_id (map ts_id TIME_SEGMENTS) filteredPosts).
    + rewrite map_map. f_equal. apply map_ext_in. intros b Hb.
      simpl in Hb.
      destruct Hb as [<-|[<-|[<-|[<-|[<-|[]]]]]];
        eapply (bucket_count_fold segment_id (fun p => p)); reflexivity.
    + simpl. repeat constructor; simpl; intuition discriminate.
    + intros p. unfold segment_id. apply in_map, segment_of_In.
Qed.

(** C1 (as the code has it). For a set of at least two records the
    counters of the gap buckets add up to the number of consecutive pairs,
    one less than the number of records: the earliest record follows no
    gap.  For a set of at least one record the counters of the time-of-day
    segments add up to the number of records.  Below these sizes the
    aggregators return an empty result before any counter exists. *)
Theorem bucket_counts_total (filteredPosts : list PostRecord) :
  ((2 <= List.length filteredPosts)%nat ->
   (list_sum (gap_counts filteredPosts) + 1)%nat = List.length filteredPosts)
  /\ ((1 <= List.length filteredPosts)%nat ->
      list_sum (segment_counts filteredPosts) = List.length filteredPosts)
  /\ ((List.length filteredPosts < 2)%nat -> gapStats filteredPosts = [])
  /\ (List.length filteredPosts = 0%nat -> timeOfDayStats filteredPosts = []).
Proof.
  destruct (fixed_bucket_counts filteredPosts) as [Hgap Hseg].
  split; [|split; [|split]].
  - intros Hlen. rewrite Hgap. lia.
  - intros _. exact Hseg.
  - intros Hlen. unfold gapStats.
    apply Nat.ltb_lt in Hlen. now rewrite Hlen.
  - intros Hlen. unfold timeOfDayStats. now rewrite Hlen.
Qed.

(** The two records of the example sheet: one gap is counted, and both
    records are counted in a segment. *)
Lemma bucket_counts_total_witness :
  (2 <= List.length (installed_posts (handleFileUpload sample_rows)))%nat
  /\ (1 <= List.length (installed_posts (handleFileUpload sample_rows)))%nat
  /\ list_sum (gap_counts (installed_posts (handleFileUpload sample_rows))) = 1%nat
  /\ list_sum (segment_counts (installed_posts (handleFileUpload sample_rows)))
     = 2%nat.
Proof.
  assert (H2 : (2 <= List.length (installed_posts (handleFileUpload sample_rows)))%nat)
    by (vm_compute; lia).
  assert (H1 : (1 <= List.length (installed_posts (handleFileUpload sample_rows)))%nat)
    by (vm_compute; lia).
  split; [exact H2|]. split; [exact H1|].
  destruct (bucket_counts_total (installed_posts (handleFileUpload sample_rows)))
    as (Hgap & Hseg & _).
  specialize (Hgap H2). specialize (Hseg H1).
  assert (Hlen : List.length (installed_posts (handleFileUpload sample_rows)) = 2%nat)
    by (vm_compute; reflexivity).
  rewrite Hlen in Hgap, Hseg. split; [lia|exact Hseg].
Defined.

(** C1 as stated fails for the gap buckets: the two records of the example
    sheet fill one bucket once. *)
Lemma gap_counts_one_short :
  List.length (installed_posts (handleFileUpload sample_rows)) = 2%nat
  /\ list_sum (gap_counts (installed_posts (handleFileUpload sample_rows))) = 1%nat
  /\ list_sum (gap_counts (installed_posts (handleFileUpload sample_rows)))
     <> List.length (installed_posts (handleFileUpload sample_rows)).
Proof. vm_compute. repeat split; discriminate. Qed.

(** ** The gap buckets *)

Lemma adjacent_pairs_sorted {A : Type} (key : A -> Z) (l : list A) :
  StronglySorted (key_le key) l ->
  Forall (fun pr => key (fst pr) <= key (snd pr)) (adjacent_pairs l).
Proof.
  induction 1 as [|x l Hs IH Hall]; [constructor|].
  destruct l as [|y l]; [constructor|].
  change (adjacent_pairs (x :: y :: l)) with ((x, y) :: adjacent_pairs (y :: l)).
  constructor; [|assumption].
  simpl. now inversion Hall.
Qed.

(** On a gap that is not negative the first-match search finds the bucket
    whose range holds the gap: the ranges cover [0, +Infinity) without
    overlap, and the fallback to the last bucket is not taken. *)
Lemma gap_bucket_by_range (q : Q) (b : GapBucket) :
  (0 <= q)%Q -> In b GAP_BUCKETS ->
  String.eqb (gb_id (gap_bucket_of (Fin q))) (gb_id b) = in_gap_bucket b (Fin q).
Proof.
  intros Hq Hb. destruct q as [n d]. unfold Qle in Hq. simpl in Hq.
  unfold gap_bucket_of, in_gap_bucket, geb, leb, ltb, Qle_bool. simpl.
  simpl in Hb.
  destruct Hb as [<-|[<-|[<-|[<-|[<-|[]]]]]]; simpl;
    repeat match goal with
           | |- context [Z.leb ?a ?b] => destruct (Z.leb_spec a b)
           end; simpl; try reflexivity; try lia.
Qed.

Lemma gapHours_of_Fin prev cur :
  gapHours_of prev cur =
  Fin (Qred (inject_Z (getTime (dateObj cur) - getTime (dateObj prev))
             / inject_Z 3600000)).
Proof. reflexivity. Qed.

Lemma gapHours_of_nonneg prev cur :
  getTime (dateObj prev) <= getTime (dateObj cur) ->
  exists q, gapHours_of prev cur = Fin q /\ (0 <= q)%Q.
Proof.
  intros Hle. rewrite gapHours_of_Fin. eexists. split; [reflexivity|].
  rewrite Qred_correct. apply Qle_shift_div_l; [reflexivity|].
  rewrite Qmult_0_l. unfold Qle. simpl. lia.
Qed.

(** The zero-filled means of a bucket, read off its accumulator. *)
Lemma bucket_row_means {A : Type} (f : A -> PostRecord) (sel : list A)
    (v : BucketAgg) :
  viewsSum v = of_Z 0 -> erSum v = of_Z 0 -> count v = 0%nat ->
  let agg := fold_left (fun v x => agg_add (f x) v) sel v in
  (if negb (count agg =? 0)%nat
   then div (viewsSum agg) (of_nat (count agg)) else of_Z 0)
  = mean_or_zero (map views (map f sel))
  /\ (if negb (count agg =? 0)%nat
      then mul (div (erSum agg) (of_nat (count agg))) (of_Z 100) else of_Z 0)
     = mean_percent_or_zero (map er (map f sel)).
Proof.
  intros Hv He Hc agg.
  destruct (agg_add_fold f sel v) as (_ & Hvs & Hes & Hcn).
  fold agg in Hvs, Hes, Hcn. rewrite Hvs, Hes, Hcn, Hv, He, Hc.
  rewrite !map_map.
  destruct sel as [|x sel]; [split; reflexivity|].
  split; unfold mean_or_zero, mean_percent_or_zero, mean, sum;
    cbn [map List.length Nat.add Nat.eqb negb]; rewrite length_map; reflexivity.
Qed.

Lemma gap_map_init_get (b : GapBucket) :
  In b GAP_BUCKETS ->
  Map_get String.eqb gap_map_init (gb_id b) =
  Some {| label := gb_label b; viewsSum := of_Z 0; erSum := of_Z 0; count := 0 |}.
Proof.
  simpl. intros [<-|[<-|[<-|[<-|[<-|[]]]]]]; reflexivity.
Qed.

Lemma gapStats_map_get (filteredPosts : list PostRecord) (b : GapBucket) :
  In b GAP_BUCKETS ->
  Map_get String.eqb (gapStats_map filteredPosts) (gb_id b) =
  Some (fold_left (fun v pr => agg_add (snd pr) v)
          (filter (fun pr => in_gap_bucket b (gapHours_of (fst pr) (snd pr)))
             (adjacent_pairs (Array_sort cmp_dateObj filteredPosts)))
          {| label := gb_label b; viewsSum := of_Z 0; erSum := of_Z 0; count := 0 |}).
Proof.
  intros Hb. rewrite gapStats_map_bucket_fold.
  rewrite (bucket_fold_get String.eqb string_eqb_spec), (gap_map_init_get b Hb).
  simpl. f_equal. f_equal.
  apply filter_ext_in. intros pr Hpr.
  pose proof (adjacent_pairs_sorted (fun p => getTime (dateObj p)) _
                (Array_sort_sorted (fun p => getTime (dateObj p)) filteredPosts))
    as Hsorted.
  rewrite Forall_forall in Hsorted. specialize (Hsorted pr Hpr).
  destruct (gapHours_of_nonneg (fst pr) (snd pr) Hsorted) as (q & Hq & Hpos).
  unfold gap_bucket_id. rewrite Hq. now apply gap_bucket_by_range.
Qed.

(** The rows of the gap chart, by the test that the code makes on the gap
    in hours. *)
Lemma gapStats_rows (filteredPosts : list PostRecord) :
  gapStats filteredPosts =
  (if (List.length filteredPosts <? 2)%nat then []
   else
     map (fun b =>
            {| GapRow.bucketId := gb_id b;
               GapRow.bucketLabel := gb_label b;
               GapRow.avgViews :=
                 mean_or_zero (map views (gap_members b filteredPosts));
               GapRow.avgErPercent :=
                 mean_percent_or_zero (map er (gap_members b filteredPosts)) |})
       GAP_BUCKETS).
Proof.
  unfold gapStats. destruct (List.length filteredPosts <? 2)%nat; [reflexivity|].
  apply map_ext_in. intros b Hb. rewrite (gapStats_map_get filteredPosts b Hb).
  unfold gap_members.
  destruct (bucket_row_means (fun pr : PostRecord * PostRecord => snd pr)
              (filter (fun pr => in_gap_bucket b (gapHours_of (fst pr) (snd pr)))
                 (adjacent_pairs (Array_sort cmp_dateObj filteredPosts)))
              {| label := gb_label b; viewsSum := of_Z 0; erSum := of_Z 0; count := 0 |}
              eq_refl eq_refl eq_refl) as [Hv He].
  cbv zeta in Hv, He. now rewrite Hv, He.
Qed.

(** The gap in hours that the code computes stands to a whole number of
    hours as the gap in milliseconds stands to that many hours. *)
Lemma Qle_hours (d k : Z) :
  (inject_Z k <= Qred (inject_Z d / inject_Z 3600000))%Q <-> k * 3600000 <= d.
Proof.
  rewrite Qred_correct. unfold Qle, Qdiv, Qmult, Qinv, inject_Z. simpl. lia.
Qed.

Lemma geb_gapHours (pr : PostRecord * PostRecord) (k : Z) :
  geb (gapHours_of (fst pr) (snd pr)) (of_Z k) = (k * ms_per_hour <=? gap_ms pr).
Proof.
  rewrite gapHours_of_Fin. unfold geb, leb, of_Z, gap_ms, ms_per_hour.
  apply eq_true_iff_eq. rewrite Qle_bool_iff, Qle_hours, Z.leb_le. reflexivity.
Qed.

Lemma ltb_gapHours (pr : PostRecord * PostRecord) (k : Z) :
  ltb (gapHours_of (fst pr) (snd pr)) (of_Z k) = (gap_ms pr <? k * ms_per_hour).
Proof.
  rewrite gapHours_of_Fin. unfold ltb, of_Z, gap_ms, ms_per_hour.
  rewrite Z.ltb_antisym. f_equal.
  apply eq_true_iff_eq. rewrite Qle_bool_iff, Qle_hours, Z.leb_le. reflexivity.
Qed.

Lemma gap_members_by_ms (b : GapBucket) (lo : Z) (hi : option Z)
    (filteredPosts : list PostRecord) :
  gb_min b = of_Z lo ->
  gb_max b = match hi with Some hi => of_Z hi | None => PInf end ->
  gap_members b filteredPosts =
  later_posts lo hi (Array_sort cmp_dateObj filteredPosts).
Proof.
  intros Hmin Hmax. unfold gap_members, later_posts. f_equal.
  apply filter_ext. intros pr. unfold in_gap_bucket, gap_in_range.
  rewrite Hmin, Hmax, geb_gapHours. f_equal.
  destruct hi as [hi|]; [apply ltb_gapHours|].
  rewrite gapHours_of_Fin. reflexivity.
Qed.

Lemma gapStats_rows_by_ms (filteredPosts : list PostRecord) :
  map gap_row_values (gapStats filteredPosts) =
  (if (List.length filteredPosts <? 2)%nat then []
   else
     map (fun '(bucket, lo, hi) =>
            (bucket,
             mean_or_zero
               (map views
                  (later_posts lo hi (Array_sort cmp_dateObj filteredPosts))),
             mean_percent_or_zero
               (map er
                  (later_posts lo hi (Array_sort cmp_dateObj filteredPosts)))))
       gap_ranges).
Proof.
  rewrite gapStats_rows.
  destruct (List.length filteredPosts <? 2)%nat; [reflexivity|].
  unfold GAP_BUCKETS, gap_ranges, gap_row_values.
  cbn [map GapRow.bucketId GapRow.avgViews GapRow.avgErPercent gb_id].
  repeat match goal with
         | |- context [gap_members ?b filteredPosts] =>
             first
               [ rewrite (gap_members_by_ms b 0 (Some 6) filteredPosts eq_refl eq_refl)
               | rewrite (gap_members_by_ms b 6 (Some 12) filteredPosts eq_refl eq_refl)
               | rewrite (gap_members_by_ms b 12 (Some 24) filteredPosts eq_refl eq_refl)
               | rewrite (gap_members_by_ms b 24 (Some 48) filteredPosts eq_refl eq_refl)
               | rewrite (gap_members_by_ms b 48 None filteredPosts eq_refl eq_refl) ]
         end.
  reflexivity.
Qed.

(** C2. With fewer than two records the gap aggregator returns nothing.
    Otherwise it returns one row per bucket, in the fixed order of the five
    ranges [0,6), [6,12), [12,24), [24,48) and [48,+Infinity) of hours.  The
    records are taken in ascending order of timestamp (ties in their given
    order); the gap of a consecutive pair is the difference of the two
    timestamps; the row of a range holds the zero-filled mean views and mean
    engagement rate (in percent) of the later posts of the pairs whose gap
    is in the range.  Two posts that are exactly twelve hours apart put
    the later one in ["12-24"]. *)
Theorem gapStats_by_range (filteredPosts : list PostRecord) :
  let sorted := Array_sort cmp_dateObj filteredPosts in
  Permutation filteredPosts sorted
  /\ StronglySorted (fun a b => getTime (dateObj a) <= getTime (dateObj b)) sorted
  /\ (forall t,
        filter (fun p => getTime (dateObj p) =? t) sorted =
        filter (fun p => getTime (dateObj p) =? t) filteredPosts)
  /\ map gap_row_values (gapStats filteredPosts) =
     (if (List.length filteredPosts <? 2)%nat then []
      else
        map (fun '(bucket, lo, hi) =>
               (bucket,
                mean_or_zero (map views (later_posts lo hi sorted)),
                mean_percent_or_zero (map er (later_posts lo hi sorted))))
          gap_ranges)
  /\ map GapRow.bucketLabel (gapStats filteredPosts) =
     (if (List.length filteredPosts <? 2)%nat then []
      else map gb_label GAP_BUCKETS)
  /\ (forall prev cur,
        getTime (dateObj cur) - getTime (dateObj prev) = 12 * ms_per_hour ->
        map gap_row_values (gapStats [prev; cur]) =
        [("<6", of_Z 0, of_Z 0); ("6-12", of_Z 0, of_Z 0);
         ("12-24", mean [views cur], mul (mean [er cur]) (of_Z 100));
         ("24-48", of_Z 0, of_Z 0); (">48", of_Z 0, of_Z 0)]%string).
Proof.
  intros sorted. split; [|split; [|split; [|split; [|split]]]].
  - apply Array_sort_Permutation.
  - apply (Array_sort_sorted (fun p => getTime (dateObj p))).
  - intros t. apply (Array_sort_stable (fun p => getTime (dateObj p))).
  - apply gapStats_rows_by_ms.
  - rewrite gapStats_rows.
    destruct (List.length filteredPosts <? 2)%nat; reflexivity.
  - intros prev cur Hgap. rewrite gapStats_rows_by_ms.
    assert (Hsorted : Array_sort cmp_dateObj [prev; cur] = [prev; cur]).
    { cbn [Array_sort sort_insert]. unfold cmp_dateObj.
      destruct (Z.ltb_spec 0 (getTime (dateObj prev) - getTime (dateObj cur)));
        [|reflexivity].
      unfold ms_per_hour in Hgap. lia. }
    rewrite Hsorted. unfold gap_ranges, later_posts, adjacent_pairs, gap_in_range.
    cbn [List.length Nat.ltb Nat.leb map tl combine filter].
    unfold gap_ms. cbn [fst snd]. rewrite Hgap. reflexivity.
Qed.

(** The two posts of the example sheet are twelve hours apart. *)
Lemma gapStats_by_range_witness :
  exists prev cur,
    installed_posts (handleFileUpload sample_rows) = [prev; cur]
    /\ getTime (dateObj cur) - getTime (dateObj prev) = 12 * ms_per_hour
    /\ map gap_row_values (gapStats [prev; cur]) =
       [("<6", of_Z 0, of_Z 0); ("6-12", of_Z 0, of_Z 0);
        ("12-24", of_Z 50, of_Z 50);
        ("24-48", of_Z 0, of_Z 0); (">48", of_Z 0, of_Z 0)]%string.
Proof.
  destruct (installed_posts (handleFileUpload sample_rows)) as [|prev [|cur [|x l]]]
    eqn:E; try (vm_compute in E; discriminate E).
  exists prev, cur. split; [reflexivity|].
  assert (Hgap : getTime (dateObj cur) - getTime (dateObj prev) = 12 * ms_per_hour).
  { vm_compute in E. injection E as <- <-. reflexivity. }
  split; [exact Hgap|].
  destruct (gapStats_by_range [prev; cur]) as (_ & _ & _ & _ & _ & Htwelve).
  rewrite (Htwelve prev cur Hgap).
  vm_compute in E. injection E as <- <-. vm_compute. reflexivity.
Defined.

(** The example sheet: the posts are twelve hours apart, so the second one
    is the only member of ["12-24"], with its 50 views and its rate of 50%. *)
Example gapStats_sample :
  map (fun r => (GapRow.bucketId r, GapRow.avgViews r, GapRow.avgErPercent r))
    (gapStats (installed_posts (handleFileUpload sample_rows))) =
  [("<6", of_Z 0, of_Z 0); ("6-12", of_Z 0, of_Z 0); ("12-24", of_Z 50, of_Z 50);
   ("24-48", of_Z 0, of_Z 0); (">48", of_Z 0, of_Z 0)]%string.
Proof. vm_compute. reflexivity. Qed.

(** ** Grouping by weekday *)

Lemma Z_eqb_spec (a b : Z) : Z.eqb a b = true <-> a = b.
Proof. apply Z.eqb_eq. Qed.

(** What the two weekday aggregators share: after the sort the keys are the
    weekday indices that occur, in strictly ascending order, and each entry
    is the fold of its group, started at the group's first record. *)
Lemma weekday_groups {V : Type} (init : PostRecord -> V)
    (upd : PostRecord -> V -> V) (filteredPosts : list PostRecord) :
  let sorted :=
    Array_sort (fun a b : Z * V => fst a - fst b)
      (group_fold Z.eqb weekdayIndex init upd filteredPosts []) in
  StronglySorted Z.lt (map fst sorted)
  /\ (forall k, In k (map fst sorted) <->
                exists p, In p filteredPosts /\ weekdayIndex p = k)
  /\ (forall k e, In (k, e) sorted ->
        group_value init upd (on_weekday k filteredPosts) = Some e).
Proof.
  intros sorted.
  assert (Hnd : NoDup (map fst (group_fold Z.eqb weekdayIndex init upd filteredPosts []))).
  { apply (group_fold_NoDup Z.eqb Z_eqb_spec). constructor. }
  assert (Hperm : Permutation
                    (group_fold Z.eqb weekdayIndex init upd filteredPosts [])
                    sorted)
    by apply Array_sort_Permutation.
  split; [|split].
  - apply (Array_sort_strict (A := Z * V) fst). assumption.
  - intros k.
    pose proof (group_fold_In_keys Z.eqb Z_eqb_spec weekdayIndex init upd
                  filteredPosts [] k) as Hkeys.
    simpl in Hkeys.
    assert (Hiff : In k (map fst sorted) <->
                   In k (map fst (group_fold Z.eqb weekdayIndex init upd
                                    filteredPosts []))).
    { split; apply Permutation_in, Permutation_map;
        [symmetry|]; exact Hperm. }
    tauto.
  - intros k e Hin.
    apply (Permutation_in _ (Permutation_sym Hperm)) in Hin.
    apply (In_Map_get Z.eqb Z_eqb_spec _ _ _ Hnd) in Hin.
    rewrite (group_fold_get Z.eqb Z_eqb_spec) in Hin. exact Hin.
Qed.

Lemma viewsByWeekday_map_group_fold filteredPosts :
  viewsByWeekday_map filteredPosts =
  group_fold Z.eqb weekdayIndex wv_init wv_upd filteredPosts [].
Proof. reflexivity. Qed.

Lemma erByWeekday_map_group_fold filteredPosts :
  erByWeekday_map filteredPosts =
  group_fold Z.eqb weekdayIndex we_init we_upd filteredPosts [].
Proof. reflexivity. Qed.

Lemma wv_upd_fold (g : list PostRecord) (v : WeekdayViews.entry) :
  let r := fold_left (fun v x => wv_upd x v) g v in
  WeekdayViews.weekday r = WeekdayViews.weekday v
  /\ WeekdayViews.viewsSum r =
     fold_left add (map views g) (WeekdayViews.viewsSum v)
  /\ WeekdayViews.count r = (WeekdayViews.count v + List.length g)%nat.
Proof.
  revert v. induction g as [|x g IH]; intros v; simpl.
  - repeat split. lia.
  - destruct (IH (wv_upd x v)) as (Hl & Hs & Hc).
    simpl in *. repeat split; try assumption. lia.
Qed.

Lemma we_upd_fold (g : list PostRecord) (v : WeekdayEr.entry) :
  let r := fold_left (fun v x => we_upd x v) g v in
  WeekdayEr.weekday r = WeekdayEr.weekday v
  /\ WeekdayEr.erSum r = fold_left add (map er g) (WeekdayEr.erSum v)
  /\ WeekdayEr.count r = (WeekdayEr.count v + List.length g)%nat.
Proof.
  revert v. induction g as [|x g IH]; intros v; simpl.
  - repeat split. lia.
  - destruct (IH (we_upd x v)) as (Hl & Hs & Hc).
    simpl in *. repeat split; try assumption. lia.
Qed.

(** C9. Each weekday aggregator returns one row per weekday index that
    occurs among the records, by strictly ascending index, and no row for a
    weekday without records; a row holds the label of the weekday and the
    mean of views, or of the engagement rate in percent, over the records
    of that weekday. *)
Theorem weekday_rows_ascending_nonempty (filteredPosts : list PostRecord) :
  (let keys := map fst (viewsByWeekday_sorted filteredPosts) in
   StronglySorted Z.lt keys
   /\ (forall k, In k keys <->
                 exists p, In p filteredPosts /\ weekdayIndex p = k)
   /\ viewsByWeekday filteredPosts =
      map (fun k =>
             {| WeekdayViews.out_weekday := group_label (on_weekday k filteredPosts);
                WeekdayViews.avgViews :=
                  mean (map views (on_weekday k filteredPosts)) |})
        keys)
  /\ (let keys := map fst (erByWeekday_sorted filteredPosts) in
      StronglySorted Z.lt keys
      /\ (forall k, In k keys <->
                    exists p, In p filteredPosts /\ weekdayIndex p = k)
      /\ erByWeekday filteredPosts =
         map (fun k =>
                {| WeekdayEr.out_weekday := group_label (on_weekday k filteredPosts);
                   WeekdayEr.avgErPercent :=
                     mul (mean (map er (on_weekday k filteredPosts))) (of_Z 100) |})
           keys).
Proof.
  split.
  - destruct (weekday_groups wv_init wv_upd filteredPosts) as (Hs & Hk & He).
    split; [exact Hs|]. split; [exact Hk|].
    unfold viewsByWeekday. rewrite map_map.
    apply map_ext_in. intros [k e] Hin. apply He in Hin.
    cbv beta. cbn [fst].
    destruct (on_weekday k filteredPosts) as [|p g]; [discriminate|].
    cbn [group_value fold_left] in Hin. injection Hin as <-.
    destruct (wv_upd_fold g (wv_upd p (wv_init p))) as (Hl & Hsum & Hc).
    cbv zeta in Hl, Hsum, Hc. rewrite Hl, Hsum, Hc. unfold mean, sum.
    cbn [wv_upd wv_init WeekdayViews.weekday WeekdayViews.viewsSum WeekdayViews.count group_label map
         fold_left List.length Nat.add Nat.ltb Nat.leb].
    rewrite length_map. reflexivity.
  - destruct (weekday_groups we_init we_upd filteredPosts) as (Hs & Hk & He).
    split; [exact Hs|]. split; [exact Hk|].
    unfold erByWeekday. rewrite map_map.
    apply map_ext_in. intros [k e] Hin. apply He in Hin.
    cbv beta. cbn [fst].
    destruct (on_weekday k filteredPosts) as [|p g]; [discriminate|].
    cbn [group_value fold_left] in Hin. injection Hin as <-.
    destruct (we_upd_fold g (we_upd p (we_init p))) as (Hl & Hsum & Hc).
    cbv zeta in Hl, Hsum, Hc. rewrite Hl, Hsum, Hc. unfold mean, sum.
    cbn [we_upd we_init WeekdayEr.weekday WeekdayEr.erSum WeekdayEr.count group_label map
         fold_left List.length Nat.add Nat.ltb Nat.leb].
    rewrite length_map. reflexivity.
Qed.

(** ** The heatmap *)

Lemma fold_left_proj {A B : Type} (op : B -> B -> B) (f : A -> B) (l : list A) (a : B) :
  fold_left (fun acc x => op acc (f x)) l a = fold_left op (map f l) a.
Proof.
  revert a. induction l as [|x l IH]; intros a; simpl; [reflexivity|].
  apply IH.
Qed.

Lemma leb_Fin (x y : Q) : leb (Fin x) (Fin y) = true <-> (x <= y)%Q.
Proof. simpl. apply Qle_bool_iff. Qed.

Lemma ltb_Fin (x y : Q) : ltb (Fin x) (Fin y) = true <-> (x < y)%Q.
Proof.
  simpl. rewrite negb_true_iff.
  destruct (Qle_bool y x) eqn:E.
  - apply Qle_bool_iff in E. split; [discriminate|].
    intros Hlt. exfalso. apply (Qlt_not_le _ _ Hlt E).
  - split; [intros _|reflexivity].
    apply Qnot_le_lt. intros Hle. apply Qle_bool_iff in Hle. congruence.
Qed.

Lemma Qzerob_pos (q : Q) : (0 < q)%Q -> Qzerob q = false.
Proof.
  intros Hq. unfold Qzerob. destruct (Qeq_bool q 0) eqn:E; [|reflexivity].
  apply Qeq_bool_iff in E. rewrite E in Hq.
  exfalso. now apply (Qlt_irrefl 0).
Qed.

Lemma leb_trans (a b c : number) :
  leb a b = true -> leb b c = true -> leb a c = true.
Proof.
  destruct a as [| | |x], b as [| | |y], c as [| | |z]; simpl;
    try discriminate; try reflexivity.
  rewrite !Qle_bool_iff. apply Qle_trans.
Qed.

Lemma leb_refl (a : number) : isNaN a = false -> leb a a = true.
Proof.
  destruct a as [| | |x]; simpl; try discriminate; try reflexivity.
  intros _. apply Qle_bool_iff, Qle_refl.
Qed.

Lemma ltb_leb (a b : number) : ltb a b = true -> leb a b = true.
Proof.
  destruct a as [| | |x], b as [| | |y]; simpl; try discriminate; try reflexivity.
  intros Hlt. apply (ltb_Fin x y) in Hlt. now apply Qle_bool_iff, Qlt_le_weak.
Qed.

Lemma ltb_false_leb (a b : number) :
  isNaN a = false -> isNaN b = false -> ltb a b = false -> leb b a = true.
Proof.
  destruct a as [| | |x], b as [| | |y]; simpl; try discriminate; try reflexivity.
  intros _ _ Hlt. now apply negb_false_iff in Hlt.
Qed.

Lemma positive_truthy (m : number) : ltb (of_Z 0) m = true -> truthy m = true.
Proof.
  destruct m as [| | |q]; try discriminate; try reflexivity.
  intros Hq. apply ltb_Fin in Hq. simpl. now rewrite Qzerob_pos.
Qed.


Lemma Math_max_nonnan (a b : number) :
  isNaN a = false -> isNaN b = false ->
  Math_max a b = if ltb a b then b else a.
Proof. destruct a, b; try discriminate; reflexivity. Qed.

(** The running maximum over numbers none of which is [NaN]: it is not
    [NaN], bounds the start value and every element, and is the start value
    or an element. *)
Lemma fold_max_nonnan (xs : list number) (a : number) :
  isNaN a = false ->
  Forall (fun x => isNaN x = false) xs ->
  let m := fold_left Math_max xs a in
  isNaN m = false
  /\ leb a m = true
  /\ (forall x, In x xs -> leb x m = true)
  /\ (m = a \/ In m xs).
Proof.
  intros Ha Hall. revert a Ha.
  induction Hall as [|x xs Hx Hall IH]; intros a Ha; cbn [fold_left].
  - repeat split; [assumption|now apply leb_refl|intros ? []|now left].
  - rewrite (Math_max_nonnan a x Ha Hx).
    destruct (ltb a x) eqn:E.
    + destruct (IH x Hx) as (Hn & Hle & Hub & Hin).
      repeat split.
      * exact Hn.
      * apply leb_trans with x; [now apply ltb_leb|exact Hle].
      * intros y [<-|Hy]; [exact Hle|now apply Hub].
      * right. destruct Hin as [->|Hin]; [now left|now right].
    + destruct (IH a Ha) as (Hn & Hle & Hub & Hin).
      repeat split.
      * exact Hn.
      * exact Hle.
      * intros y [<-|Hy]; [|now apply Hub].
        apply leb_trans with a; [now apply ltb_false_leb|exact Hle].
      * destruct Hin as [Heq|Hin]; [now left|right; now right].
Qed.




Lemma heat_key_eqb_spec (a b : Heat.key) : Heat.key_eqb a b = true <-> a = b.
Proof.
  destruct a as [a1 a2], b as [b1 b2]. unfold Heat.key_eqb. simpl.
  rewrite andb_true_iff, !Z.eqb_eq. split.
  - intros [-> ->]. reflexivity.
  - intros [= -> ->]. split; reflexivity.
Qed.

Lemma heatmap_cellMap_group_fold filteredPosts :
  heatmap_cellMap filteredPosts =
  group_fold Heat.key_eqb heat_key heat_init heat_upd filteredPosts [].
Proof. reflexivity. Qed.

Lemma heat_upd_fold (g : list PostRecord) (v : Heat.agg) :
  let r := fold_left (fun v x => heat_upd x v) g v in
  Heat.weekdayIndex r = Heat.weekdayIndex v
  /\ Heat.weekday r = Heat.weekday v
  /\ Heat.hour r = Heat.hour v
  /\ Heat.viewsSum r = fold_left add (map views g) (Heat.viewsSum v)
  /\ Heat.count r = (Heat.count v + List.length g)%nat.
Proof.
  revert v. induction g as [|x g IH]; intros v; simpl.
  - repeat split. lia.
  - destruct (IH (heat_upd x v)) as (Hi & Hl & Hh & Hs & Hc).
    simpl in *. repeat split; try assumption. lia.
Qed.


(** The cells are those of the populated keys, in first-occurrence order. *)
Lemma heatmap_cells filteredPosts :
  Heat.cells (heatmapData filteredPosts) =
  map (heat_cell_of filteredPosts) (map fst (heatmap_cellMap filteredPosts)).
Proof.
  unfold heatmapData. cbn [Heat.cells]. rewrite map_map.
  apply map_ext_in. intros [k v] Hin. cbn [fst].
  assert (Hnd : NoDup (map fst (heatmap_cellMap filteredPosts))).
  { apply (group_fold_NoDup Heat.key_eqb heat_key_eqb_spec). constructor. }
  apply (In_Map_get Heat.key_eqb heat_key_eqb_spec _ _ _ Hnd) in Hin.
  rewrite heatmap_cellMap_group_fold in Hin.
  rewrite (group_fold_get Heat.key_eqb heat_key_eqb_spec) in Hin.
  unfold heat_cell_of, in_cell.
  change (fun p => Heat.key_eqb (weekdayIndex p, hour p) k)
    with (fun p => Heat.key_eqb (heat_key p) k).
  destruct (filter (fun p => Heat.key_eqb (heat_key p) k) filteredPosts)
    as [|p g] eqn:Eg; [discriminate|].
  assert (Hk : heat_key p = k).
  { apply heat_key_eqb_spec.
    assert (Hp : In p (filter (fun p => Heat.key_eqb (heat_key p) k) filteredPosts))
      by (rewrite Eg; now left).
    now apply filter_In in Hp. }
  cbn [group_value fold_left] in Hin. injection Hin as <-.
  destruct (heat_upd_fold g (heat_upd p (heat_init p))) as (Hi & Hl & Hh & Hs & Hc).
  cbv zeta in Hi, Hl, Hh, Hs, Hc. rewrite Hi, Hl, Hh, Hs, Hc.
  subst k. unfold mean, sum.
  cbn [heat_upd heat_init heat_key Heat.weekdayIndex Heat.weekday Heat.hour
       Heat.viewsSum Heat.count group_label map fold_left List.length fst snd
       Nat.add Nat.ltb Nat.leb].
  rewrite length_map. reflexivity.
Qed.


Lemma in_cell_views_finite filteredPosts k :
  (forall p, In p filteredPosts -> isFinite (views p) = true) ->
  Forall (fun x => isFinite x = true) (map views (in_cell k filteredPosts)).
Proof.
  intros Hfin. apply Forall_forall. intros x Hx.
  apply in_map_iff in Hx as (p & <- & Hp).
  apply Hfin. unfold in_cell in Hp. now apply filter_In in Hp.
Qed.

Lemma heatmap_means_finite filteredPosts :
  (forall p, In p filteredPosts -> isFinite (views p) = true) ->
  Forall (fun x => isFinite x = true)
    (map Heat.avgViews (Heat.cells (heatmapData filteredPosts))).
Proof.
  intros Hfin. rewrite heatmap_cells, !map_map.
  apply Forall_forall. intros x Hx.
  apply in_map_iff in Hx as ([k v] & <- & Hin). cbn [fst heat_cell_of Heat.avgViews].
  apply (in_map fst) in Hin. cbn [fst] in Hin.
  rewrite heatmap_cellMap_group_fold in Hin.
  apply (group_fold_In_keys Heat.key_eqb heat_key_eqb_spec) in Hin.
  destruct Hin as [[]|(p & Hp & Hk)].
  destruct (mean_finite (map views (in_cell k filteredPosts))) as [q Hq].
  - assert (Hin : In p (in_cell k filteredPosts)).
    { apply filter_In. split; [assumption|].
      now apply heat_key_eqb_spec. }
    destruct (in_cell k filteredPosts); [contradiction|discriminate].
  - now apply in_cell_views_finite.
  - now rewrite Hq.
Qed.


(** Three posts on a Monday at nine with 10, 20 and 30 views make one cell
    of mean 20, which is also [maxViews]. *)
Example heatmap_monday_nine :
  heatmapData (installed_posts (handleFileUpload monday_nine_rows)) =
  {| Heat.cells :=
       [{| Heat.c_weekdayIndex := 1;
           Heat.c_weekday := "Пн";
           Heat.c_hour := 9;
           Heat.avgViews := of_Z 20 |}];
     Heat.maxViews := of_Z 20 |}.
Proof. vm_compute. reflexivity. Qed.



(** ** The row normaliser *)

(** The two steps that every fact about a returned record starts with: the
    date cell parses, and the merged date is valid or not. *)
Ltac normaliser_cases Hmap :=
  cbv zeta in Hmap;
  match type of Hmap with
  | context [parseDate ?v] => destruct (parseDate v); [|discriminate Hmap]
  end;
  match type of Hmap with
  | match ?m with Some _ => _ | None => _ end = _ => destruct m
  end;
  [|match type of Hmap with
    | context [match ?v with VStr _ => _ | _ => _ end] =>
        destruct v; try discriminate Hmap
    end].

Section NormalizerFacts.
Context `{Host}.

Lemma parseDate_falsy (v : JSValue) : FalsyDateCell v -> parseDate v = None.
Proof.
  intros [q Hq| | |]; try reflexivity.
  unfold parseDate. simpl. unfold Qzerob.
  apply Qeq_bool_iff in Hq. now rewrite Hq.
Qed.

Lemma mapRowToPost_metrics row index r :
  mapRowToPost row index = Returns r -> metrics_of row index r.
Proof.
  intros Hmap. unfold mapRowToPost in Hmap. normaliser_cases Hmap;
    injection Hmap as <-; repeat split.
Qed.

Lemma AppTsx_mapRowToPost_metrics row index r :
  AppTsx.mapRowToPost row index = Returns r -> metrics_of row index r.
Proof.
  intros Hmap. unfold AppTsx.mapRowToPost in Hmap. normaliser_cases Hmap;
    injection Hmap as <-; repeat split.
Qed.

Lemma mapRowToPost_no_date row index :
  parseDate (Row_get row "Дата") = None ->
  mapRowToPost row index = Null /\ AppTsx.mapRowToPost row index = Null.
Proof.
  intros Hd. unfold mapRowToPost, AppTsx.mapRowToPost. now rewrite Hd.
Qed.

(** A row is skipped exactly when its date cell does not parse. *)
Lemma mapRowToPost_Null_iff row index :
  mapRowToPost row index = Null <-> parseDate (Row_get row "Дата") = None.
Proof.
  split; [|intros Hd; now apply mapRowToPost_no_date].
  unfold mapRowToPost. cbv zeta.
  destruct (parseDate (Row_get row "Дата")) as [d|]; [|reflexivity].
  match goal with
  | |- match ?m with Some _ => _ | None => _ end = _ -> _ => destruct m
  end; [discriminate|].
  destruct (Row_get row "Дата"); discriminate.
Qed.

(** The weekday of a record with a valid date is one of the seven, with
    its label. *)
Lemma mapRowToPost_weekday row index p :
  mapRowToPost row index = Returns (Dated p) ->
  0 <= weekdayIndex p < 7
  /\ nth_error WEEKDAYS (Z.to_nat (weekdayIndex p)) = Some (weekdayLabel p).
Proof.
  intros Hmap. unfold mapRowToPost in Hmap.
  normaliser_cases Hmap.
  injection Hmap as <-. cbn [weekdayIndex weekdayLabel].
  match goal with |- 0 <= getDay ?t < 7 /\ _ => pose proof (getDay_range t) as Hr;
    set (i := getDay t) in * end.
  split; [exact Hr|].
  unfold WEEKDAYS_at.
  assert (Hi : i = 0 \/ i = 1 \/ i = 2 \/ i = 3 \/ i = 4 \/ i = 5 \/ i = 6) by lia.
  destruct Hi as [-> |[-> |[-> |[-> |[-> |[-> | ->]]]]]]; reflexivity.
Qed.

(** The exception comes from [toISOString] alone: a row whose date cell is
    text does not throw, and a record without a valid date has its date
    cell as text. *)
Lemma mapRowToPost_text_date row index s :
  Row_get row "Дата" = VStr s -> mapRowToPost row index <> RangeError.
Proof.
  intros Hs. unfold mapRowToPost. cbv zeta. rewrite Hs.
  destruct (parseDate (VStr s)) as [d|]; [|discriminate].
  match goal with
  | |- match ?m with Some _ => _ | None => _ end <> _ => destruct m
  end; discriminate.
Qed.

Lemma mapRowToPost_Undated row index u :
  mapRowToPost row index = Returns (Undated u) ->
  Row_get row "Дата" = VStr (u_date u).
Proof.
  intros Hmap. unfold mapRowToPost in Hmap.
  normaliser_cases Hmap; [discriminate Hmap|].
  injection Hmap as <-. reflexivity.
Qed.
End NormalizerFacts.

(** ** Signs of the metrics *)

Lemma or_else_zero_nonneg (n : number) :
  ltb n (of_Z 0) = false -> leb (of_Z 0) (or_else n (of_Z 0)) = true.
Proof.
  unfold or_else. destruct n as [| | |q]; try reflexivity; try discriminate.
  simpl. intros Hq. apply negb_false_iff in Hq.
  destruct (negb (Qzerob q)); [exact Hq|reflexivity].
Qed.

Lemma or_else_zero_finite (n : number) :
  ltb n (of_Z 0) = false -> n <> PInf ->
  exists r, or_else n (of_Z 0) = Fin r /\ (0 <= r)%Q.
Proof.
  unfold or_else. destruct n as [| | |q]; intros Hn Hinf.
  - exists 0%Q. split; [reflexivity|apply Qle_refl].
  - contradiction.
  - discriminate.
  - simpl in Hn. apply negb_false_iff, Qle_bool_iff in Hn. simpl.
    destruct (negb (Qzerob q)).
    + now exists q.
    + exists 0%Q. split; [reflexivity|apply Qle_refl].
Qed.

Lemma nonneg_finite_Fin (q : Q) : (0 <= q)%Q -> nonneg_finite (Fin q) = true.
Proof.
  intros Hq. unfold nonneg_finite. simpl. rewrite andb_true_r.
  now apply Qle_bool_iff.
Qed.

Lemma div_nonneg_by_pos (r v : Q) :
  (0 <= r)%Q -> (0 < v)%Q -> nonneg_finite (div (Fin r) (Fin v)) = true.
Proof.
  intros Hr Hv. unfold div. rewrite (Qzerob_pos v Hv).
  apply nonneg_finite_Fin. rewrite Qred_correct.
  apply Qle_shift_div_l; [assumption|]. now rewrite Qmult_0_l.
Qed.

Lemma nonneg_finite_nonneg (n : number) :
  nonneg_finite n = true -> leb (of_Z 0) n = true.
Proof. unfold nonneg_finite. intros Hn. now apply andb_true_iff in Hn. Qed.

(** ** Ingestion *)

Lemma all_dated_Some (parsed : list Returned) (ps : list PostRecord) :
  all_dated parsed = Some ps <-> parsed = map Dated ps.
Proof.
  revert ps. induction parsed as [|[p|u] rest IH]; intros ps; simpl.
  - split; [intros [= <-]; reflexivity|]. destruct ps; [reflexivity|discriminate].
  - destruct (all_dated rest) as [qs|].
    + split.
      * intros [= <-]. simpl. f_equal. now apply IH.
      * destruct ps as [|q ps]; [discriminate|]. simpl. intros [= -> Hrest].
        apply IH in Hrest. now injection Hrest as ->.
    + split; [discriminate|].
      destruct ps as [|q ps]; [discriminate|]. simpl. intros [= -> Hrest].
      apply IH in Hrest. discriminate Hrest.
  - split; [discriminate|]. destruct ps; discriminate.
Qed.

Lemma all_dated_None (parsed : list Returned) :
  all_dated parsed = None <-> exists u, In (Undated u) parsed.
Proof.
  induction parsed as [|[p|u] rest IH]; simpl.
  - split; [discriminate|]. intros [u []].
  - destruct (all_dated rest) as [qs|].
    + split; [discriminate|]. intros [u [Hu|Hu]]; [discriminate Hu|].
      assert (Habs : Some qs = None) by (apply IH; now exists u).
      discriminate Habs.
    + split; [|reflexivity]. intros _.
      destruct IH as [IH _]. destruct (IH eq_refl) as [u Hu].
      exists u. now right.
  - split; [|reflexivity]. intros _. exists u. now left.
Qed.

Section IngestionFacts.
Context `{Host}.

Lemma forEach_row_returned (json : list Row) (idx : nat) (parsed : list Returned) :
  forEach_row json idx parsed =
  if throws_from idx json then None
  else Some (parsed ++ returned_from idx json).
Proof.
  revert idx parsed. induction json as [|row rest IH]; intros idx parsed; simpl.
  - now rewrite app_nil_r.
  - destruct (mapRowToPost row idx) as [|mapped|]; [| |reflexivity]; rewrite IH.
    + reflexivity.
    + destruct (throws_from (S idx) rest); [reflexivity|].
      now rewrite <- app_assoc.
Qed.

Lemma returned_from_dated (idx : nat) (json : list Row) (ps : list PostRecord) :
  returned_from idx json = map Dated ps -> normalized_from idx json = ps.
Proof.
  revert idx ps. induction json as [|row rest IH]; intros idx ps; simpl.
  - destruct ps; [reflexivity|discriminate].
  - destruct (mapRowToPost row idx) as [|[p|u]|]; try apply IH.
    + destruct ps as [|q ps]; [discriminate|]. simpl. intros [= -> Hrest].
      f_equal. now apply IH.
    + destruct ps; discriminate.
Qed.

Lemma returned_from_In (idx : nat) (json : list Row) (r : Returned) :
  In r (returned_from idx json) ->
  exists i row,
    nth_error json i = Some row /\ mapRowToPost row (idx + i) = Returns r.
Proof.
  revert idx. induction json as [|row rest IH]; intros idx; simpl; [tauto|].
  intros Hin.
  assert (Hrest : In r (returned_from (S idx) rest) ->
                  exists i row', nth_error (row :: rest) i = Some row'
                                 /\ mapRowToPost row' (idx + i) = Returns r).
  { intros Hr. destruct (IH _ Hr) as (i & row' & Hnth & Hmap).
    exists (S i), row'. split; [exact Hnth|].
    now rewrite Nat.add_succ_r. }
  destruct (mapRowToPost row idx) as [|q|] eqn:E; try now apply Hrest.
  destruct Hin as [<-|Hin]; [|now apply Hrest].
  exists 0%nat, row. split; [reflexivity|]. now rewrite Nat.add_0_r.
Qed.

Lemma normalized_from_In (idx : nat) (json : list Row) (p : PostRecord) :
  In p (normalized_from idx json) ->
  exists i row,
    nth_error json i = Some row /\ mapRowToPost row (idx + i) = Returns (Dated p).
Proof.
  revert idx. induction json as [|row rest IH]; intros idx; simpl; [tauto|].
  intros Hin.
  assert (Hrest : In p (normalized_from (S idx) rest) ->
                  exists i r, nth_error (row :: rest) i = Some r
                              /\ mapRowToPost r (idx + i) = Returns (Dated p)).
  { intros Hp. destruct (IH _ Hp) as (i & r & Hnth & Hmap).
    exists (S i), r. split; [exact Hnth|].
    now rewrite Nat.add_succ_r. }
  destruct (mapRowToPost row idx) as [|[q|u]|] eqn:E; try now apply Hrest.
  destruct Hin as [<-|Hin]; [|now apply Hrest].
  exists 0%nat, row. split; [reflexivity|]. now rewrite Nat.add_0_r.
Qed.

(** The three ways an upload completes. *)
Lemma handleFileUpload_Installed (json : list Row) (st : AppState) :
  handleFileUpload json = Installed st ->
  throws_from 0 json = false
  /\ returned_from 0 json = map Dated (normalized_from 0 json)
  /\ st = {| posts := Array_sort cmp_dateObj (normalized_from 0 json);
             selectedMonth := "all";
             selectedPostType := "all";
             selectedWeekday := "all" |}.
Proof.
  unfold handleFileUpload. rewrite forEach_row_returned.
  destruct (throws_from 0 json); [discriminate|]. cbn [app].
  destruct (all_dated (returned_from 0 json)) as [ps|] eqn:E; [|discriminate].
  apply all_dated_Some in E. intros [= <-].
  rewrite (returned_from_dated _ _ _ E). now repeat split.
Qed.

Lemma handleFileUpload_InstalledUndated (json : list Row) (parsed : list Returned) :
  handleFileUpload json = InstalledUndated parsed ->
  throws_from 0 json = false
  /\ parsed = returned_from 0 json
  /\ exists u, In (Undated u) parsed.
Proof.
  unfold handleFileUpload. rewrite forEach_row_returned.
  destruct (throws_from 0 json); [discriminate|]. cbn [app].
  destruct (all_dated (returned_from 0 json)) as [ps|] eqn:E; [discriminate|].
  intros [= <-]. split; [reflexivity|]. split; [reflexivity|].
  now apply all_dated_None.
Qed.

Lemma handleFileUpload_Aborted (json : list Row) :
  handleFileUpload json = Aborted <-> throws_from 0 json = true.
Proof.
  unfold handleFileUpload. rewrite forEach_row_returned.
  destruct (throws_from 0 json); [tauto|]. cbn [app].
  destruct (all_dated (returned_from 0 json)); split; discriminate.
Qed.

Lemma store_is_sorted_normalized (json : list Row) (st : AppState) :
  handleFileUpload json = Installed st ->
  posts st = Array_sort cmp_dateObj (normalized_from 0 json).
Proof.
  intros Hup. destruct (handleFileUpload_Installed _ _ Hup) as (_ & _ & ->).
  reflexivity.
Qed.

(** A record of the store carries the index of the row it was made from. *)
Lemma store_record_origin (json : list Row) (st : AppState) (p : PostRecord) :
  handleFileUpload json = Installed st ->
  In p (posts st) ->
  exists row,
    nth_error json (id p) = Some row
    /\ mapRowToPost row (id p) = Returns (Dated p).
Proof.
  intros Hup. rewrite (store_is_sorted_normalized _ _ Hup), Array_sort_In.
  intros Hin.
  destruct (normalized_from_In _ _ _ Hin) as (i & row & Hnth & Hmap).
  simpl in Hmap.
  destruct (mapRowToPost_metrics _ _ _ Hmap) as (Hid & _).
  cbn [id_of] in Hid. rewrite Hid. now exists row.
Qed.

Lemma parsed_record_origin (json : list Row) (parsed : list Returned) (r : Returned) :
  handleFileUpload json = InstalledUndated parsed ->
  In r parsed ->
  exists row,
    nth_error json (id_of r) = Some row
    /\ mapRowToPost row (id_of r) = Returns r.
Proof.
  intros Hup Hin.
  destruct (handleFileUpload_InstalledUndated _ _ Hup) as (_ & -> & _).
  destruct (returned_from_In _ _ _ Hin) as (i & row & Hnth & Hmap).
  simpl in Hmap.
  destruct (mapRowToPost_metrics _ _ _ Hmap) as (Hid & _).
  rewrite Hid. now exists row.
Qed.
End IngestionFacts.

Section NormalizerProperties.
Context `{Host}.

(** C3. For a row without an explicit engagement-rate cell, the stored rate
    is 0 when the views are 0 (or not positive), and [reactions / views]
    when the views are positive; the division happens only by a non-zero
    number of views.  This holds for both versions of the normaliser and
    for every record they return, whether its date is valid or not. *)
Theorem er_fallback_no_zero_division (row : Row) (index : nat) (r : Returned) :
  no_er_cell row ->
  mapRowToPost row index = Returns r \/ AppTsx.mapRowToPost row index = Returns r ->
  (views_of r = of_Z 0 -> er_of r = of_Z 0)
  /\ (gtb (views_of r) (of_Z 0) = false -> er_of r = of_Z 0)
  /\ (gtb (views_of r) (of_Z 0) = true ->
      er_of r = div (reactions_of r) (views_of r) /\ truthy (views_of r) = true).
Proof.
  intros Hno Hmap.
  assert (Hm : metrics_of row index r).
  { destruct Hmap; [now apply mapRowToPost_metrics
                   |now apply AppTsx_mapRowToPost_metrics]. }
  destruct Hm as (_ & _ & _ & Her).
  assert (Hfallback :
            er_of r = if gtb (views_of r) (of_Z 0)
                      then div (reactions_of r) (views_of r) else of_Z 0).
  { rewrite Her. destruct Hno as [-> |[-> | ->]]; reflexivity. }
  split; [|split].
  - intros Hv. rewrite Hfallback, Hv. reflexivity.
  - intros Hv. rewrite Hfallback, Hv. reflexivity.
  - intros Hpos. split; [now rewrite Hfallback, Hpos|].
    unfold gtb in Hpos.
    destruct (views_of r) as [| | |q]; try discriminate; try reflexivity.
    apply ltb_Fin in Hpos. simpl. apply negb_true_iff. unfold Qzerob.
    destruct (Qeq_bool q 0) eqn:E; [|reflexivity].
    apply Qeq_bool_iff in E. rewrite E in Hpos.
    exfalso. now apply (Qlt_irrefl 0).
Qed.

(** C10. A row whose date cell is falsy (the number 0, the empty text,
    [null] or [undefined]) is rejected by the falsy test of [parseDate] and
    skipped by both versions of the normaliser; wherever the row stands in
    a sheet, no record that an upload installs comes from it. *)
Theorem falsy_date_row_skipped (row : Row) (index : nat) :
  FalsyDateCell (Row_get row "Дата") ->
  parseDate (Row_get row "Дата") = None
  /\ mapRowToPost row index = Null
  /\ AppTsx.mapRowToPost row index = Null
  /\ (forall before after,
        match handleFileUpload (before ++ row :: after) with
        | Installed st =>
            forall p, In p (posts st) -> id p <> List.length before
        | InstalledUndated parsed =>
            forall r, In r parsed -> id_of r <> List.length before
        | Aborted => True
        end).
Proof.
  intros Hf. pose proof (parseDate_falsy _ Hf) as Hd.
  split; [exact Hd|].
  split; [now apply mapRowToPost_no_date|].
  split; [now apply mapRowToPost_no_date|].
  intros before after.
  destruct (handleFileUpload (before ++ row :: after)) as [st|parsed|] eqn:Hup;
    [| |exact I].
  - intros p Hin Hid.
    destruct (store_record_origin _ _ _ Hup Hin) as (r & Hnth & Hmap).
    rewrite Hid, nth_error_app2, Nat.sub_diag in Hnth by lia.
    injection Hnth as <-.
    destruct (mapRowToPost_no_date row (id p) Hd) as [Hnone _]. congruence.
  - intros r Hin Hid.
    destruct (parsed_record_origin _ _ _ Hup Hin) as (r' & Hnth & Hmap).
    rewrite Hid, nth_error_app2, Nat.sub_diag in Hnth by lia.
    injection Hnth as <-.
    destruct (mapRowToPost_no_date row (id_of r) Hd) as [Hnone _]. congruence.
Qed.

(** C8 (as the code has it). The views and the reactions of a record are 0
    when their cell is absent or does not parse, and otherwise the number in
    the cell, without a clamp.  So if the views, reactions and rate cells do
    not hold negative numbers, and the reactions cell does not hold
    [+Infinity], the views and the reactions are not negative and the
    engagement rate is neither negative nor [NaN].  (A quotient of two
    doubles can exceed the largest double and give [+Infinity], so no finite
    bound is stated for the rate.)  This holds for both versions of the
    normaliser and for every record they return. *)
Theorem normalizer_metrics_in_range (row : Row) (index : nat) (r : Returned) :
  mapRowToPost row index = Returns r \/ AppTsx.mapRowToPost row index = Returns r ->
  (isNaN (Number (views_cell row)) = true -> views_of r = of_Z 0)
  /\ (isNaN (Number (reactions_cell row)) = true -> reactions_of r = of_Z 0)
  /\ (ltb (Number (views_cell row)) (of_Z 0) = false ->
      ltb (Number (reactions_cell row)) (of_Z 0) = false ->
      Number (reactions_cell row) <> PInf ->
      ltb (Number (er_cell row)) (of_Z 0) = false ->
      leb (of_Z 0) (views_of r) = true
      /\ nonneg_finite (reactions_of r) = true
      /\ leb (of_Z 0) (er_of r) = true).
Proof.
  intros Hmap.
  assert (Hm : metrics_of row index r).
  { destruct Hmap; [now apply mapRowToPost_metrics
                   |now apply AppTsx_mapRowToPost_metrics]. }
  destruct Hm as (_ & Hviews & Hreactions & Her).
  split; [|split].
  - intros Hnan. rewrite Hviews.
    destruct (Number (views_cell row)); try discriminate. reflexivity.
  - intros Hnan. rewrite Hreactions.
    destruct (Number (reactions_cell row)); try discriminate. reflexivity.
  - intros Hv Hr Hrinf He.
    destruct (or_else_zero_finite _ Hr Hrinf) as (q & Hreq & Hrpos).
    rewrite <- Hreactions in Hreq.
    pose proof (or_else_zero_nonneg _ Hv) as Hvpos. rewrite <- Hviews in Hvpos.
    split; [exact Hvpos|]. split; [rewrite Hreq; now apply nonneg_finite_Fin|].
    apply nonneg_finite_nonneg. rewrite Her.
    destruct (not_undefined (er_cell row) && not_null (er_cell row)
              && not_string (er_cell row) EmptyString).
    + destruct (Number (er_cell row)) as [| | |e]; try reflexivity.
      cbn [isFinite]. simpl in He. apply negb_false_iff, Qle_bool_iff in He.
      now apply div_nonneg_by_pos.
    + rewrite Hreq. unfold gtb.
      destruct (ltb (of_Z 0) (views_of r)) eqn:Epos; [|reflexivity].
      destruct (views_of r) as [| | |v]; try discriminate.
      * reflexivity.
      * apply ltb_Fin in Epos. now apply div_nonneg_by_pos.
Qed.
End NormalizerProperties.

(** ** The normaliser on the sample host *)

(** The first row of the example sheet has no rate cell: 10 reactions on
    100 views give a rate of 0.1. *)
Lemma er_fallback_no_zero_division_witness :
  no_er_cell (hd [] sample_rows)
  /\ exists r,
       mapRowToPost (hd [] sample_rows) 0 = Returns r
       /\ er_of r = div (reactions_of r) (views_of r)
       /\ er_of r = Fin (1 # 10).
Proof.
  assert (Hno : no_er_cell (hd [] sample_rows)) by (left; reflexivity).
  split; [exact Hno|].
  destruct (mapRowToPost (hd [] sample_rows) 0) as [|r|] eqn:E;
    try (vm_compute in E; discriminate E).
  exists r. split; [reflexivity|].
  destruct (er_fallback_no_zero_division _ 0%nat r Hno (or_introl E))
    as (_ & _ & Hpos).
  vm_compute in E. injection E as <-.
  split; [apply Hpos|]; reflexivity.
Defined.

(** A row without a views cell and without a rate cell: the rate is 0. *)
Example er_of_row_without_views :
  exists p,
    mapRowToPost no_views_row 0 = Returns (Dated p)
    /\ views p = of_Z 0 /\ reactions p = of_Z 3 /\ er p = of_Z 0.
Proof. eexists. split; [vm_compute; reflexivity|]. repeat split. Qed.

(** A sheet whose only row has the date serial 0 gives an empty store. *)
Lemma falsy_date_row_skipped_witness :
  FalsyDateCell (Row_get zero_date_row "Дата")
  /\ mapRowToPost zero_date_row 0 = Null
  /\ exists st, handleFileUpload [zero_date_row] = Installed st /\ posts st = [].
Proof.
  assert (Hf : FalsyDateCell (Row_get zero_date_row "Дата"))
    by (apply (Falsy_zero 0); reflexivity).
  split; [exact Hf|].
  destruct (falsy_date_row_skipped zero_date_row 0 Hf) as (_ & Hnone & _ & Hstore).
  split; [exact Hnone|].
  eexists. split; vm_compute; reflexivity.
Defined.

(** The first row of the example sheet has no negative cell, and its
    record no negative metric. *)
Lemma normalizer_metrics_in_range_witness :
  ltb (Number (views_cell (hd [] sample_rows))) (of_Z 0) = false
  /\ ltb (Number (reactions_cell (hd [] sample_rows))) (of_Z 0) = false
  /\ Number (reactions_cell (hd [] sample_rows)) <> PInf
  /\ ltb (Number (er_cell (hd [] sample_rows))) (of_Z 0) = false
  /\ exists r,
       mapRowToPost (hd [] sample_rows) 0 = Returns r
       /\ leb (of_Z 0) (views_of r) = true
       /\ nonneg_finite (reactions_of r) = true
       /\ leb (of_Z 0) (er_of r) = true.
Proof.
  assert (Hv : ltb (Number (views_cell (hd [] sample_rows))) (of_Z 0) = false)
    by reflexivity.
  assert (Hr : ltb (Number (reactions_cell (hd [] sample_rows))) (of_Z 0) = false)
    by reflexivity.
  assert (Hi : Number (reactions_cell (hd [] sample_rows)) <> PInf)
    by (vm_compute; discriminate).
  assert (He : ltb (Number (er_cell (hd [] sample_rows))) (of_Z 0) = false)
    by reflexivity.
  repeat (split; [assumption|]).
  destruct (mapRowToPost (hd [] sample_rows) 0) as [|r|] eqn:E;
    try (vm_compute in E; discriminate E).
  exists r. split; [reflexivity|].
  destruct (normalizer_metrics_in_range _ 0%nat r (or_introl E)) as (_ & _ & Hsigns).
  exact (Hsigns Hv Hr Hi He).
Defined.

(** C8 as stated fails: a negative number in the views cell is stored as it
    is. *)
Lemma negative_views_cell_is_kept :
  exists p,
    mapRowToPost negative_views_row 0 = Returns (Dated p)
    /\ views p = of_Z (-5)
    /\ leb (of_Z 0) (views p) = false.
Proof. eexists. split; [vm_compute; reflexivity|]. split; reflexivity. Qed.

(** C7 (a defect of the code).  A time cell that holds a number far from a
    day fraction pushes the date out of the range of valid dates.  When the
    date cell of that row is a date serial, [toISOString] throws and the
    upload installs no store at all.  When the date cell is text, the record
    enters the store with an Invalid Date: its timestamp is [NaN], and no
    arrangement of the store is in ascending order of timestamp. *)
Theorem invalid_time_breaks_upload :
  mapRowToPost (hd [] serial_date_bad_time_rows) 0 = RangeError
  /\ handleFileUpload serial_date_bad_time_rows = Aborted
  /\ exists p u,
       handleFileUpload text_date_bad_time_rows
       = InstalledUndated [Dated p; Undated u]
       /\ id p = 0%nat /\ u_id u = 1%nat
       /\ getTime_of (Undated u) = NaN
       /\ ~ ascending_by_time [Dated p; Undated u]
       /\ ~ ascending_by_time [Undated u; Dated p].
Proof.
  split; [vm_compute; reflexivity|]. split; [vm_compute; reflexivity|].
  eexists. eexists. split; [vm_compute; reflexivity|].
  split; [reflexivity|]. split; [reflexivity|]. split; [reflexivity|].
  split; intros Hs; inversion Hs as [|? ? _ Hall]; subst;
    inversion Hall as [|? ? Hle _]; subst; discriminate Hle.
Qed.

(** The store of the example sheet, by timestamp. *)
Example store_sample :
  map (fun p => (id p, dateObj p, hour p))
    (installed_posts (handleFileUpload sample_rows)) =
  [(0%nat, 1704103200000, 10); (1%nat, 1704146400000, 22)].
Proof. vm_compute. reflexivity. Qed.

(** The example sheet by time of day: the post of ten o'clock is in ["day"],
    the post of twenty-two o'clock in ["late"]; both are Monday posts. *)
Example timeOfDayStats_sample :
  map (fun r => (SegmentRow.segmentId r, SegmentRow.avgViews r))
    (timeOfDayStats (installed_posts (handleFileUpload sample_rows))) =
  [("night", of_Z 0); ("morning", of_Z 0); ("day", of_Z 100);
   ("evening", of_Z 0); ("late", of_Z 50)]%string.
Proof. vm_compute. reflexivity. Qed.

Example viewsByWeekday_sample :
  viewsByWeekday (installed_posts (handleFileUpload sample_rows)) =
  [{| WeekdayViews.out_weekday := "Пн"; WeekdayViews.avgViews := of_Z 75 |}].
Proof. vm_compute. reflexivity. Qed.

(** * Further properties of the dashboard *)

(** ** Which rows reach the store *)

Section StoreFacts.
Context `{Host}.

Lemma date_parses_Null (row : Row) (index : nat) :
  mapRowToPost row index = Null <-> date_parses row = false.
Proof.
  rewrite mapRowToPost_Null_iff. unfold date_parses.
  destruct (parseDate (Row_get row "Дата")); split; congruence.
Qed.

Lemma throws_from_iff (idx : nat) (json : list Row) :
  throws_from idx json = true <->
  exists i row, nth_error json i = Some row
                /\ mapRowToPost row (idx + i) = RangeError.
Proof.
  revert idx. induction json as [|row rest IH]; intros idx; simpl.
  - split; [discriminate|]. intros ([|i] & r & Hnth & _); discriminate Hnth.
  - assert (Hrest : throws_from (S idx) rest = true <->
                    exists i r, nth_error (row :: rest) (S i) = Some r
                                /\ mapRowToPost r (idx + S i) = RangeError).
    { rewrite IH. split; intros (i & r & Hnth & Hmap); exists i, r;
        (split; [exact Hnth|]); [now rewrite Nat.add_succ_r
                                |now rewrite Nat.add_succ_r in Hmap]. }
    destruct (mapRowToPost row idx) as [|q|] eqn:E.
    + rewrite Hrest. split.
      * intros (i & r & Hnth & Hmap). now exists (S i), r.
      * intros ([|i] & r & Hnth & Hmap); [|now exists i, r].
        simpl in Hnth. injection Hnth as <-.
        rewrite Nat.add_0_r in Hmap. congruence.
    + rewrite Hrest. split.
      * intros (i & r & Hnth & Hmap). now exists (S i), r.
      * intros ([|i] & r & Hnth & Hmap); [|now exists i, r].
        simpl in Hnth. injection Hnth as <-.
        rewrite Nat.add_0_r in Hmap. congruence.
    + split; [|reflexivity]. intros _. exists 0%nat, row.
      split; [reflexivity|]. now rewrite Nat.add_0_r.
Qed.

Lemma returned_from_nth (idx : nat) (json : list Row) (i : nat) (row : Row)
    (r : Returned) :
  nth_error json i = Some row -> mapRowToPost row (idx + i) = Returns r ->
  In r (returned_from idx json).
Proof.
  revert idx i. induction json as [|row0 rest IH]; intros idx i Hnth Hmap.
  - now destruct i.
  - destruct i as [|i]; simpl in Hnth.
    + injection Hnth as ->. rewrite Nat.add_0_r in Hmap.
      cbn [returned_from]. rewrite Hmap. now left.
    + rewrite Nat.add_succ_r in Hmap.
      pose proof (IH (S idx) i Hnth Hmap) as Hin.
      cbn [returned_from]. destruct (mapRowToPost row0 idx); [|right|]; exact Hin.
Qed.

(** When every row is skipped or gives a record with a valid date, no row
    throws and every returned record is a dated one. *)
Lemma returned_from_all_dated (idx : nat) (json : list Row) :
  (forall i row, nth_error json i = Some row ->
                 mapRowToPost row (idx + i) = Null
                 \/ exists p, mapRowToPost row (idx + i) = Returns (Dated p)) ->
  throws_from idx json = false
  /\ exists ps, returned_from idx json = map Dated ps.
Proof.
  revert idx. induction json as [|row rest IH]; intros idx Hall.
  - split; [reflexivity|]. now exists [].
  - assert (Hrest : forall i r, nth_error rest i = Some r ->
                      mapRowToPost r (S idx + i) = Null
                      \/ exists p, mapRowToPost r (S idx + i) = Returns (Dated p)).
    { intros i r Hnth. specialize (Hall (S i) r Hnth).
      now rewrite Nat.add_succ_r in Hall. }
    destruct (IH _ Hrest) as (Hthrows & ps & Hps).
    specialize (Hall 0%nat row eq_refl). rewrite Nat.add_0_r in Hall.
    cbn [throws_from returned_from].
    destruct Hall as [Hnull|[p Hp]].
    + rewrite Hnull. split; [exact Hthrows|]. now exists ps.
    + rewrite Hp. split; [exact Hthrows|]. exists (p :: ps). simpl. now rewrite Hps.
Qed.

Lemma normalized_from_ids (idx : nat) (json : list Row) (ps : list PostRecord) :
  throws_from idx json = false ->
  returned_from idx json = map Dated ps ->
  map id ps = kept_indices idx json.
Proof.
  revert idx ps. induction json as [|row rest IH]; intros idx ps.
  - intros _. destruct ps; [reflexivity|discriminate].
  - cbn [throws_from returned_from kept_indices].
    destruct (mapRowToPost row idx) as [|[p|u]|] eqn:E.
    + apply date_parses_Null in E. rewrite E. apply IH.
    + assert (Hd : date_parses row = true).
      { destruct (date_parses row) eqn:Hd; [reflexivity|].
        apply (date_parses_Null row idx) in Hd. congruence. }
      rewrite Hd. intros Hthrows Hret.
      destruct ps as [|q ps]; [discriminate Hret|].
      simpl in Hret. injection Hret as <- Hret.
      destruct (mapRowToPost_metrics _ _ _ E) as (Hid & _). cbn [id_of] in Hid.
      cbn [map]. now rewrite Hid, (IH _ _ Hthrows Hret).
    + intros _ Hret. destruct ps; discriminate Hret.
    + discriminate.
Qed.

Lemma kept_indices_In (idx : nat) (json : list Row) (i : nat) :
  In i (kept_indices idx json) <->
  exists k row,
    i = (idx + k)%nat /\ nth_error json k = Some row /\ date_parses row = true.
Proof.
  revert idx. induction json as [|row rest IH]; intros idx.
  - simpl. split; [tauto|]. intros (k & r & _ & Hnth & _). now destruct k.
  - cbn [kept_indices].
    assert (Hrest : In i (kept_indices (S idx) rest) <->
                    exists k r, i = (idx + S k)%nat
                                /\ nth_error (row :: rest) (S k) = Some r
                                /\ date_parses r = true).
    { rewrite IH. split; intros (k & r & Hi & Hnth & Hd); exists k, r;
        (split; [lia|split; assumption]). }
    destruct (date_parses row) eqn:Hd.
    + cbn [In]. rewrite Hrest. split.
      * intros [<-|(k & r & Hi & Hnth & Hr)].
        -- exists 0%nat, row. repeat split; [lia|assumption].
        -- exists (S k), r. now repeat split.
      * intros ([|k] & r & Hi & Hnth & Hr).
        -- left. lia.
        -- right. now exists k, r.
    + rewrite Hrest. split.
      * intros (k & r & Hi & Hnth & Hr). exists (S k), r. now repeat split.
      * intros ([|k] & r & Hi & Hnth & Hr).
        -- simpl in Hnth. injection Hnth as <-. congruence.
        -- now exists k, r.
Qed.

Lemma kept_indices_NoDup (idx : nat) (json : list Row) :
  NoDup (kept_indices idx json).
Proof.
  revert idx. induction json as [|row rest IH]; intros idx; [constructor|].
  cbn [kept_indices]. destruct (date_parses row); [|apply IH].
  constructor; [|apply IH].
  intros Hin. apply kept_indices_In in Hin. destruct Hin as (k & _ & Hk & _). lia.
Qed.

Lemma kept_indices_length (idx : nat) (json : list Row) :
  List.length (kept_indices idx json) = List.length (filter date_parses json).
Proof.
  revert idx. induction json as [|row rest IH]; intros idx; [reflexivity|].
  cbn [kept_indices filter]. destruct (date_parses row); simpl; now rewrite IH.
Qed.

(** X1. Which rows reach the store.  A row is skipped exactly when its date
    cell does not parse, and a row whose date cell is text never makes the
    normaliser throw.  An upload is aborted exactly when some row throws,
    and it installs a store of records with valid dates exactly when every
    row is skipped or gives such a record.  The ids of the records of that
    store are then, up to the order of the sort, the indices of the rows
    whose date parses, each once, and the store has as many records as
    there are such rows. *)
Theorem store_ids_are_parsed_rows (json : list Row) :
  (forall row index,
     mapRowToPost row index = Null <-> parseDate (Row_get row "Дата") = None)
  /\ (forall row index s,
        Row_get row "Дата" = VStr s -> mapRowToPost row index <> RangeError)
  /\ (handleFileUpload json = Aborted <->
      exists i row, nth_error json i = Some row /\ mapRowToPost row i = RangeError)
  /\ ((exists st, handleFileUpload json = Installed st) <->
      forall i row, nth_error json i = Some row ->
                    mapRowToPost row i = Null
                    \/ exists p, mapRowToPost row i = Returns (Dated p))
  /\ (forall st, handleFileUpload json = Installed st ->
        Permutation (kept_indices 0 json) (map id (posts st))
        /\ NoDup (map id (posts st))
        /\ (forall i, In i (map id (posts st)) <->
                      exists row, nth_error json i = Some row
                                  /\ date_parses row = true)
        /\ List.length (posts st) = List.length (filter date_parses json)).
Proof.
  split; [intros row index; apply mapRowToPost_Null_iff|].
  split; [intros row index s; apply mapRowToPost_text_date|].
  split; [rewrite handleFileUpload_Aborted; apply (throws_from_iff 0)|].
  split.
  - split.
    + intros [st Hup] i row Hnth.
      destruct (handleFileUpload_Installed _ _ Hup) as (Hthrows & Hret & _).
      destruct (mapRowToPost row i) as [|[p|u]|] eqn:E.
      * now left.
      * right. now exists p.
      * exfalso.
        pose proof (returned_from_nth 0 json i row _ Hnth E) as Hin.
        rewrite Hret in Hin. apply in_map_iff in Hin as (q & Hq & _).
        discriminate Hq.
      * exfalso.
        assert (Ht : throws_from 0 json = true)
          by (apply throws_from_iff; now exists i, row).
        congruence.
    + intros Hall.
      destruct (returned_from_all_dated 0 json Hall) as (Hthrows & ps & Hps).
      unfold handleFileUpload. rewrite forEach_row_returned, Hthrows. cbn [app].
      apply all_dated_Some in Hps. rewrite Hps. now eexists.
  - intros st Hup.
    destruct (handleFileUpload_Installed _ _ Hup) as (Hthrows & Hret & ->).
    cbn [posts].
    assert (Hperm : Permutation (kept_indices 0 json)
                      (map id (Array_sort cmp_dateObj (normalized_from 0 json)))).
    { rewrite <- (normalized_from_ids 0 json _ Hthrows Hret).
      apply Permutation_map, Array_sort_Permutation. }
    split; [exact Hperm|]. split; [|split].
    + apply (Permutation_NoDup Hperm), kept_indices_NoDup.
    + intros i.
      assert (Hiff : In i (map id (Array_sort cmp_dateObj (normalized_from 0 json)))
                     <-> In i (kept_indices 0 json)).
      { split; apply Permutation_in; [symmetry|]; exact Hperm. }
      rewrite Hiff, kept_indices_In. simpl. split.
      * intros (k & row & -> & Hnth & Hd). now exists row.
      * intros (row & Hnth & Hd). now exists i, row.
    + rewrite <- kept_indices_length with (idx := 0%nat).
      rewrite <- (length_map id). symmetry. now apply Permutation_length.
Qed.
End StoreFacts.

(** The upload of the example sheet installs its two records. *)
Lemma store_ids_are_parsed_rows_witness :
  exists st,
    handleFileUpload sample_rows = Installed st
    /\ Permutation (kept_indices 0 sample_rows) (map id (posts st))
    /\ map id (posts st) = [0; 1]%nat.
Proof.
  destruct (handleFileUpload sample_rows) as [st| |] eqn:E;
    try (vm_compute in E; discriminate E).
  exists st. split; [reflexivity|].
  destruct (store_ids_are_parsed_rows sample_rows) as (_ & _ & _ & _ & Hids).
  destruct (Hids st E) as (Hperm & _).
  split; [exact Hperm|].
  vm_compute in E. injection E as <-. reflexivity.
Defined.

(** ** The filtered store is chronological *)

Lemma StronglySorted_filter {A : Type} (R : A -> A -> Prop) (f : A -> bool) (l : list A) :
  StronglySorted R l -> StronglySorted R (filter f l).
Proof.
  induction 1 as [|x l Hs IH Hall]; simpl; [constructor|].
  destruct (f x); [|assumption].
  constructor; [assumption|].
  apply Forall_forall. intros y Hy. apply filter_In in Hy.
  rewrite Forall_forall in Hall. now apply Hall.
Qed.

Lemma Array_sort_sorted_id {A : Type} (key : A -> Z) (l : list A) :
  StronglySorted (key_le key) l -> Array_sort (by_key key) l = l.
Proof.
  intros Hs. symmetry. now apply Array_sort_unique.
Qed.

Lemma filteredPosts_all_selectors (store : list PostRecord) :
  filteredPosts {| posts := store;
                   selectedMonth := "all";
                   selectedPostType := "all";
                   selectedWeekday := "all" |} = store.
Proof.
  unfold filteredPosts. simpl.
  induction store as [|p l IH]; simpl; [reflexivity|]. now rewrite IH.
Qed.

Lemma installed_filtered_sorted `{Host} (json : list Row) (st : AppState)
    (month type weekday : string) :
  handleFileUpload json = Installed st ->
  StronglySorted (key_le (fun p => getTime (dateObj p)))
    (filteredPosts (with_selectors st month type weekday)).
Proof.
  intros Hup. unfold filteredPosts. apply StronglySorted_filter.
  unfold with_selectors. cbn [posts]. rewrite (store_is_sorted_normalized _ _ Hup).
  apply (Array_sort_sorted (fun p => getTime (dateObj p))).
Qed.

(** X2. When an upload installs a store of records with valid dates, the
    store holds the records of the rows in ascending order of timestamp,
    records with the same timestamp in the order of their rows.  Whatever
    the three selectors are then set to, the filtered records are in
    ascending order of timestamp too, so the sort that the gap aggregator
    makes on its copy leaves the order as it is; and right after the upload,
    with the selectors reset, the filter shows the whole store. *)
Theorem filtered_store_is_chronological `{Host} (json : list Row) (st : AppState)
    (month type weekday : string) :
  handleFileUpload json = Installed st ->
  let shown := filteredPosts (with_selectors st month type weekday) in
  Permutation (normalized_from 0 json) (posts st)
  /\ StronglySorted (fun a b => getTime (dateObj a) <= getTime (dateObj b)) (posts st)
  /\ (forall t,
        filter (fun p => getTime (dateObj p) =? t) (posts st) =
        filter (fun p => getTime (dateObj p) =? t) (normalized_from 0 json))
  /\ StronglySorted (fun a b => getTime (dateObj a) <= getTime (dateObj b)) shown
  /\ Array_sort cmp_dateObj shown = shown
  /\ filteredPosts st = posts st.
Proof.
  intros Hup shown.
  pose proof (store_is_sorted_normalized _ _ Hup) as Hstore.
  split; [rewrite Hstore; apply Array_sort_Permutation|].
  split; [rewrite Hstore; apply (Array_sort_sorted (fun p => getTime (dateObj p)))|].
  split; [intros t; rewrite Hstore;
          apply (Array_sort_stable (fun p => getTime (dateObj p)))|].
  split; [now apply (installed_filtered_sorted json)|]. split.
  - apply (Array_sort_sorted_id (fun p => getTime (dateObj p))).
    now apply (installed_filtered_sorted json).
  - destruct (handleFileUpload_Installed _ _ Hup) as (_ & _ & ->).
    apply filteredPosts_all_selectors.
Qed.

(** The example sheet, with the post type ["meme"] selected. *)
Lemma filtered_store_is_chronological_witness :
  exists st,
    handleFileUpload sample_rows = Installed st
    /\ Array_sort cmp_dateObj (filteredPosts (with_selectors st "all" "meme" "all"))
       = filteredPosts (with_selectors st "all" "meme" "all")
    /\ map id (filteredPosts (with_selectors st "all" "meme" "all")) = [1%nat].
Proof.
  destruct (handleFileUpload sample_rows) as [st| |] eqn:E;
    try (vm_compute in E; discriminate E).
  exists st. split; [reflexivity|].
  destruct (filtered_store_is_chronological sample_rows st "all" "meme" "all" E)
    as (_ & _ & _ & _ & Hsort & _).
  split; [exact Hsort|].
  vm_compute in E. injection E as <-. reflexivity.
Defined.

(** ** The time-of-day segments *)

(** For an hour of the day the first-match search finds the segment whose
    range holds the hour: the ranges cover [0, 24) without overlap. *)
Lemma segment_by_range (p : PostRecord) (s : TimeSegment) :
  0 <= hour p < 24 -> In s TIME_SEGMENTS ->
  String.eqb (segment_id p) (ts_id s) = in_segment s p.
Proof.
  intros Hh Hs. unfold segment_id, segment_of, in_segment. simpl.
  simpl in Hs.
  destruct Hs as [<-|[<-|[<-|[<-|[<-|[]]]]]]; simpl;
    repeat match goal with
           | |- context [Z.leb ?a ?b] => destruct (Z.leb_spec a b)
           | |- context [Z.ltb ?a ?b] => destruct (Z.ltb_spec a b)
           end; simpl; try reflexivity; try lia.
Qed.

Lemma segment_map_init_get (s : TimeSegment) :
  In s TIME_SEGMENTS ->
  Map_get String.eqb segment_map_init (ts_id s) =
  Some {| label := ts_label s; viewsSum := of_Z 0; erSum := of_Z 0; count := 0 |}.
Proof.
  simpl. intros [<-|[<-|[<-|[<-|[<-|[]]]]]]; reflexivity.
Qed.

Lemma timeOfDayStats_map_get (filteredPosts : list PostRecord) (s : TimeSegment) :
  (forall p, In p filteredPosts -> 0 <= hour p < 24) ->
  In s TIME_SEGMENTS ->
  Map_get String.eqb (timeOfDayStats_map filteredPosts) (ts_id s) =
  Some (fold_left (fun v p => agg_add p v) (segment_members s filteredPosts)
          {| label := ts_label s; viewsSum := of_Z 0; erSum := of_Z 0; count := 0 |}).
Proof.
  intros Hh Hs. rewrite timeOfDayStats_map_bucket_fold.
  rewrite (bucket_fold_get String.eqb string_eqb_spec), (segment_map_init_get s Hs).
  simpl. f_equal. f_equal. unfold segment_members.
  apply filter_ext_in. intros p Hp. apply segment_by_range; auto.
Qed.

(** X3. On no record the time-of-day aggregator returns nothing.  On
    records whose hour is an hour of the day it returns one row per segment
    of [TIME_SEGMENTS], in that order, with the zero-filled mean views and
    mean engagement rate (in percent) of the records whose hour lies in the
    segment's half-open range. *)
Theorem timeOfDayStats_by_range (filteredPosts : list PostRecord) :
  (forall p, In p filteredPosts -> 0 <= hour p < 24) ->
  timeOfDayStats filteredPosts =
  match filteredPosts with
  | [] => []
  | _ :: _ =>
      map (fun s =>
             {| SegmentRow.segmentId := ts_id s;
                SegmentRow.segmentLabel := ts_label s;
                SegmentRow.avgViews :=
                  mean_or_zero (map views (segment_members s filteredPosts));
                SegmentRow.avgErPercent :=
                  mean_percent_or_zero (map er (segment_members s filteredPosts)) |})
        TIME_SEGMENTS
  end.
Proof.
  intros Hh. destruct filteredPosts as [|p0 l]; [reflexivity|].
  unfold timeOfDayStats.
  change (List.length (p0 :: l) =? 0)%nat with false. cbv iota.
  apply map_ext_in. intros s Hs.
  rewrite (timeOfDayStats_map_get (p0 :: l) s Hh Hs).
  destruct (bucket_row_means (fun p : PostRecord => p)
              (segment_members s (p0 :: l))
              {| label := ts_label s; viewsSum := of_Z 0; erSum := of_Z 0; count := 0 |}
              eq_refl eq_refl eq_refl) as [Hv He].
  cbv zeta in Hv, He. rewrite map_id in Hv, He. now rewrite Hv, He.
Qed.

(** The two posts of the example sheet are at ten and at twenty-two. *)
Lemma timeOfDayStats_by_range_witness :
  (forall p, In p (installed_posts (handleFileUpload sample_rows)) -> 0 <= hour p < 24)
  /\ map SegmentRow.avgViews (timeOfDayStats (installed_posts (handleFileUpload sample_rows)))
     = [of_Z 0; of_Z 0; of_Z 100; of_Z 0; of_Z 50].
Proof.
  assert (Hh : forall p, In p (installed_posts (handleFileUpload sample_rows)) ->
                         0 <= hour p < 24).
  { intros p Hp. vm_compute in Hp. destruct Hp as [<-|[<-|[]]]; simpl; lia. }
  split; [exact Hh|].
  rewrite (timeOfDayStats_by_range _ Hh). vm_compute. reflexivity.
Defined.

(** ** Grouping by post type *)

Lemma byPostType_map_group_fold filteredPosts :
  byPostType_map filteredPosts =
  group_fold String.eqb postType pt_init pt_upd filteredPosts [].
Proof. reflexivity. Qed.

Lemma pt_upd_fold (g : list PostRecord) (v : PostType.entry) :
  let r := fold_left (fun v x => pt_upd x v) g v in
  PostType.postType r = PostType.postType v
  /\ PostType.viewsSum r = fold_left add (map views g) (PostType.viewsSum v)
  /\ PostType.erSum r = fold_left add (map er g) (PostType.erSum v)
  /\ PostType.count r = (PostType.count v + List.length g)%nat.
Proof.
  revert v. induction g as [|x g IH]; intros v; simpl.
  - repeat split. lia.
  - destruct (IH (pt_upd x v)) as (Hl & Hs & He & Hc).
    simpl in *. repeat split; try assumption. lia.
Qed.

Lemma byPostType_map_NoDup filteredPosts :
  NoDup (map fst (byPostType_map filteredPosts)).
Proof.
  rewrite byPostType_map_group_fold.
  apply (group_fold_NoDup String.eqb string_eqb_spec). constructor.
Qed.

(** Before the sort the items are the rows of the types that occur, in
    first-occurrence order. *)
Lemma byPostType_items_rows filteredPosts :
  byPostType_items filteredPosts =
  map (post_type_row filteredPosts) (map fst (byPostType_map filteredPosts)).
Proof.
  unfold byPostType_items. rewrite map_map.
  apply map_ext_in. intros [k v] Hin. cbn [fst].
  apply (In_Map_get String.eqb string_eqb_spec _ _ _
           (byPostType_map_NoDup filteredPosts)) in Hin.
  rewrite byPostType_map_group_fold in Hin.
  rewrite (group_fold_get String.eqb string_eqb_spec) in Hin.
  unfold post_type_row, of_type.
  destruct (filter (fun p => String.eqb (postType p) k) filteredPosts)
    as [|p g] eqn:Eg; [discriminate|].
  assert (Hk : postType p = k).
  { apply string_eqb_spec.
    assert (Hp : In p (filter (fun p => String.eqb (postType p) k) filteredPosts))
      by (rewrite Eg; now left).
    now apply filter_In in Hp. }
  cbn [group_value fold_left] in Hin. injection Hin as <-.
  destruct (pt_upd_fold g (pt_upd p (pt_init p))) as (Hl & Hs & He & Hc).
  cbv zeta in Hl, Hs, He, Hc. rewrite Hl, Hs, He, Hc.
  subst k. unfold mean, sum.
  cbn [pt_upd pt_init PostType.postType PostType.viewsSum PostType.erSum
       PostType.count map fold_left List.length Nat.add Nat.ltb Nat.leb].
  rewrite !length_map. reflexivity.
Qed.

Lemma byPostType_Permutation filteredPosts :
  Permutation
    (map (post_type_row filteredPosts) (map fst (byPostType_map filteredPosts)))
    (byPostType filteredPosts).
Proof.
  unfold byPostType. rewrite <- byPostType_items_rows.
  apply Array_sort_Permutation.
Qed.

Lemma byPostType_types filteredPosts :
  Permutation (map fst (byPostType_map filteredPosts))
    (map PostType.out_postType (byPostType filteredPosts)).
Proof.
  rewrite <- (Permutation_map PostType.out_postType
                (byPostType_Permutation filteredPosts)).
  rewrite map_map. cbn [post_type_row PostType.out_postType].
  now rewrite map_id.
Qed.

(** X4. The post-type aggregator returns one row per post type that occurs
    among the records, and none for a type that does not; the row of a type
    holds the mean views and the mean engagement rate, in percent, of the
    records of that type. *)
Theorem byPostType_rows_are_type_means (filteredPosts : list PostRecord) :
  let rows := byPostType filteredPosts in
  NoDup (map PostType.out_postType rows)
  /\ (forall t, In t (map PostType.out_postType rows) <->
                exists p, In p filteredPosts /\ postType p = t)
  /\ (forall r, In r rows ->
                r = post_type_row filteredPosts (PostType.out_postType r)).
Proof.
  intros rows. pose proof (byPostType_types filteredPosts) as Htypes.
  split; [|split].
  - apply (Permutation_NoDup Htypes), byPostType_map_NoDup.
  - intros t.
    assert (Hiff : In t (map PostType.out_postType rows) <->
                   In t (map fst (byPostType_map filteredPosts))).
    { split; apply Permutation_in; [symmetry|]; exact Htypes. }
    rewrite Hiff, byPostType_map_group_fold.
    rewrite (group_fold_In_keys String.eqb string_eqb_spec). simpl. tauto.
  - intros r Hr.
    apply (Permutation_in _ (Permutation_sym (byPostType_Permutation filteredPosts)))
      in Hr.
    apply in_map_iff in Hr as (t & <- & _). reflexivity.
Qed.

(** A sort by a comparator that decides a transitive order on the elements
    at hand returns them in that order. *)
Lemma Array_sort_sorted_by {A : Type} (cmp : A -> A -> Z) (le : A -> A -> Prop)
    (ok : A -> Prop) (l : list A) :
  (forall x y, ok x -> ok y -> 0 < cmp x y -> le y x) ->
  (forall x y, ok x -> ok y -> ~ 0 < cmp x y -> le x y) ->
  (forall x y z, ok x -> ok y -> ok z -> le x y -> le y z -> le x z) ->
  Forall ok l -> StronglySorted le (Array_sort cmp l).
Proof.
  intros Hgt Hle Htrans Hok.
  assert (Hins : forall x s, ok x -> Forall ok s -> StronglySorted le s ->
                             StronglySorted le (sort_insert cmp x s)).
  { intros x s Hx Hs Hsorted. induction Hsorted as [|y s Hsorted IH Hall]; simpl.
    - constructor; constructor.
    - inversion Hs as [|? ? Hy Hs']; subst.
      destruct (0 <? cmp x y) eqn:E.
      + apply Z.ltb_lt in E. constructor; [now apply IH|].
        apply (Permutation_Forall (sort_insert_Permutation cmp x s)).
        constructor; [now apply Hgt|assumption].
      + apply Z.ltb_ge in E. constructor; [now constructor|].
        assert (Hxy : le x y) by (apply Hle; [assumption|assumption|lia]).
        constructor; [assumption|].
        rewrite Forall_forall in Hall, Hs'. apply Forall_forall. intros z Hz.
        apply Htrans with y; auto. }
  induction Hok as [|x l Hx Hok IH]; simpl; [constructor|].
  apply Hins; [assumption| |assumption].
  apply (Permutation_Forall (Array_sort_Permutation cmp l)). assumption.
Qed.

Lemma sub_Fin_positive (a b : Q) :
  gtb (sub (Fin b) (Fin a)) (of_Z 0) = true <-> (a < b)%Q.
Proof.
  unfold gtb, sub, neg, add, fin, of_Z. rewrite ltb_Fin.
  rewrite !Qred_correct. unfold inject_Z. split; intros Hlt; lra.
Qed.

Lemma compare_result_positive (v : number) :
  0 < compare_result v <-> gtb v (of_Z 0) = true.
Proof.
  unfold compare_result. destruct (gtb v (of_Z 0)).
  - split; [reflexivity|lia].
  - destruct (ltb v (of_Z 0)); split; (discriminate || lia).
Qed.

Lemma byPostType_means_finite (filteredPosts : list PostRecord) :
  (forall p, In p filteredPosts -> isFinite (views p) = true) ->
  Forall (fun r => isFinite (PostType.avgViews r) = true)
    (byPostType_items filteredPosts).
Proof.
  intros Hfin. rewrite byPostType_items_rows.
  apply Forall_forall. intros r Hr.
  apply in_map_iff in Hr as (t & <- & Hin). cbn [post_type_row PostType.avgViews].
  rewrite byPostType_map_group_fold in Hin.
  apply (group_fold_In_keys String.eqb string_eqb_spec) in Hin.
  destruct Hin as [[]|(p & Hp & Hk)].
  destruct (mean_finite (map views (of_type t filteredPosts))) as [q Hq].
  - assert (Hin : In p (of_type t filteredPosts)).
    { apply filter_In. split; [assumption|]. now apply string_eqb_spec. }
    destruct (of_type t filteredPosts); [contradiction|discriminate].
  - apply Forall_forall. intros x Hx.
    apply in_map_iff in Hx as (p' & <- & Hp').
    apply Hfin. unfold of_type in Hp'. now apply filter_In in Hp'.
  - now rewrite Hq.
Qed.

(** X5. When the views of the records are finite, the rows of the post-type
    aggregator stand in descending order of mean views. *)
Theorem byPostType_descending (filteredPosts : list PostRecord) :
  (forall p, In p filteredPosts -> isFinite (views p) = true) ->
  StronglySorted
    (fun a b => leb (PostType.avgViews b) (PostType.avgViews a) = true)
    (byPostType filteredPosts).
Proof.
  intros Hfin. unfold byPostType.
  apply Array_sort_sorted_by
    with (ok := fun r => isFinite (PostType.avgViews r) = true).
  - intros x y Hx Hy Hpos. apply compare_result_positive in Hpos.
    destruct (PostType.avgViews x) as [| | |a]; try discriminate.
    destruct (PostType.avgViews y) as [| | |b]; try discriminate.
    apply sub_Fin_positive in Hpos. apply leb_Fin. now apply Qlt_le_weak.
  - intros x y Hx Hy Hnpos. rewrite compare_result_positive in Hnpos.
    destruct (PostType.avgViews x) as [| | |a]; try discriminate.
    destruct (PostType.avgViews y) as [| | |b]; try discriminate.
    apply leb_Fin. apply Qnot_lt_le. intros Hlt.
    apply Hnpos. now apply sub_Fin_positive.
  - intros x y z _ _ _ Hxy Hyz. now apply leb_trans with (PostType.avgViews y).
  - now apply byPostType_means_finite.
Qed.

(** On the example sheet the type with 100 views comes before the type
    with 50. *)
Lemma byPostType_descending_witness :
  (forall p, In p (installed_posts (handleFileUpload sample_rows)) ->
             isFinite (views p) = true)
  /\ StronglySorted
       (fun a b => leb (PostType.avgViews b) (PostType.avgViews a) = true)
       (byPostType (installed_posts (handleFileUpload sample_rows)))
  /\ map PostType.out_postType (byPostType (installed_posts (handleFileUpload sample_rows)))
     = ["news"; "meme"]%string.
Proof.
  assert (Hfin : forall p, In p (installed_posts (handleFileUpload sample_rows)) ->
                           isFinite (views p) = true).
  { intros p Hp. vm_compute in Hp. destruct Hp as [<-|[<-|[]]]; reflexivity. }
  split; [exact Hfin|].
  split; [exact (byPostType_descending _ Hfin)|].
  vm_compute. reflexivity.
Defined.

(** ** The selector options *)

Lemma units_compare_antisym (a b : list N) :
  units_compare b a = CompOpp (units_compare a b).
Proof.
  revert b. induction a as [|x a IH]; intros [|y b]; simpl; try reflexivity.
  rewrite (N.compare_antisym x y).
  destruct (x ?= y)%N; simpl; [apply IH|reflexivity|reflexivity].
Qed.

Lemma units_compare_lt_trans (a b c : list N) :
  units_compare a b = Lt -> units_compare b c = Lt -> units_compare a c = Lt.
Proof.
  revert b c. induction a as [|x a IH]; intros [|y b] [|z c]; simpl;
    try discriminate; try reflexivity.
  destruct (x ?= y)%N eqn:Exy; try discriminate.
  - apply N.compare_eq in Exy. subst y.
    destruct (x ?= z)%N; try discriminate; [apply IH|reflexivity].
  - intros _. destruct (y ?= z)%N eqn:Eyz; try discriminate.
    + apply N.compare_eq in Eyz. subst z. now rewrite Exy.
    + intros _.
      assert (Hxz : (x ?= z)%N = Lt).
      { apply N.compare_lt_iff. apply N.lt_trans with y; now apply N.compare_lt_iff. }
      now rewrite Hxz.
Qed.

Lemma units_compare_eq (a b : list N) : units_compare a b = Eq -> a = b.
Proof.
  revert b. induction a as [|x a IH]; intros [|y b]; simpl;
    try discriminate; try reflexivity.
  destruct (x ?= y)%N eqn:Exy; try discriminate.
  apply N.compare_eq in Exy. subst y. intros Hab. f_equal. now apply IH.
Qed.

Lemma utf16_le_trans (a b c : string) : utf16_le a b -> utf16_le b c -> utf16_le a c.
Proof.
  unfold utf16_le. intros Hab Hbc.
  destruct (units_compare (code_units a) (code_units b)) eqn:Eab; [| |contradiction].
  - apply units_compare_eq in Eab. now rewrite Eab.
  - destruct (units_compare (code_units b) (code_units c)) eqn:Ebc; [| |contradiction].
    + apply units_compare_eq in Ebc. rewrite <- Ebc, Eab. discriminate.
    + rewrite (units_compare_lt_trans _ _ _ Eab Ebc). discriminate.
Qed.

Lemma string_sort_sorted (l : list string) :
  StronglySorted utf16_le (Array_sort string_cmp l).
Proof.
  apply Array_sort_sorted_by with (ok := fun _ => True).
  - intros x y _ _ Hpos. unfold string_cmp in Hpos. unfold utf16_le.
    rewrite (units_compare_antisym (code_units x) (code_units y)).
    destruct (units_compare (code_units x) (code_units y)); simpl; try lia; discriminate.
  - intros x y _ _ Hnpos Hgt. apply Hnpos. unfold string_cmp. rewrite Hgt. lia.
  - intros x y z _ _ _. apply utf16_le_trans.
  - apply Forall_forall. trivial.
Qed.

Lemma Set_add_fold_NoDup {A : Type} (f : A -> string) (xs : list A) (set : list string) :
  NoDup set -> NoDup (fold_left (fun set x => Set_add set (f x)) xs set).
Proof.
  revert set. induction xs as [|x xs IH]; intros set Hnd; [assumption|].
  cbn [fold_left]. apply IH. unfold Set_add.
  destruct (existsb (String.eqb (f x)) set) eqn:E; [assumption|].
  apply Permutation_NoDup with (l := f x :: set).
  - apply Permutation_cons_append.
  - constructor; [|assumption]. intros Hin.
    assert (Hex : existsb (String.eqb (f x)) set = true).
    { apply existsb_exists. exists (f x). split; [assumption|apply String.eqb_refl]. }
    congruence.
Qed.

Lemma Set_add_fold_In {A : Type} (f : A -> string) (xs : list A) (set : list string)
    (k : string) :
  In k (fold_left (fun set x => Set_add set (f x)) xs set) <->
  In k set \/ exists x, In x xs /\ f x = k.
Proof.
  revert set. induction xs as [|x xs IH]; intros set.
  - simpl. split; [now left|]. intros [?|(? & [] & _)]. assumption.
  - cbn [fold_left]. rewrite IH. unfold Set_add.
    destruct (existsb (String.eqb (f x)) set) eqn:E.
    + apply existsb_exists in E as (y & Hy & Heq).
      apply String.eqb_eq in Heq. subst y. split.
      * intros [?|(z & ? & ?)]; [now left|]. right. exists z. simpl. tauto.
      * intros [?|(z & [->|?] & ?)]; [now left| |].
        -- left. now subst.
        -- right. now exists z.
    + rewrite in_app_iff. simpl. split.
      * intros [[?|[?|[]]]|(z & ? & ?)].
        -- now left.
        -- right. exists x. tauto.
        -- right. exists z. tauto.
      * intros [?|(z & [->|?] & ?)].
        -- left. now left.
        -- left. right. now left.
        -- right. now exists z.
Qed.

Lemma options_In {A : Type} (f : A -> string) (xs : list A) (k : string) :
  In k (Array_sort string_cmp (fold_left (fun set x => Set_add set (f x)) xs []))
  <-> exists x, In x xs /\ f x = k.
Proof. rewrite Array_sort_In, Set_add_fold_In. simpl. tauto. Qed.

Lemma options_spec {A : Type} (f : A -> string) (xs : list A) :
  let options := Array_sort string_cmp
                   (fold_left (fun set x => Set_add set (f x)) xs []) in
  StronglySorted utf16_le options /\ NoDup options.
Proof.
  intros options. split; [apply string_sort_sorted|].
  apply (Permutation_NoDup (Array_sort_Permutation string_cmp _)).
  apply Set_add_fold_NoDup. constructor.
Qed.

(** X6. The month options and the post-type options are the month keys and
    the post types that occur in the store, each once, in ascending order
    of their UTF-16 code units, which is the order of the default [sort()]. *)
Theorem selector_options_sorted_distinct (posts : list PostRecord) :
  StronglySorted utf16_le (monthOptions posts)
  /\ NoDup (monthOptions posts)
  /\ (forall m, In m (monthOptions posts) <->
                exists p, In p posts /\ monthKey p = m)
  /\ StronglySorted utf16_le (postTypeOptions posts)
  /\ NoDup (postTypeOptions posts)
  /\ (forall t, In t (postTypeOptions posts) <->
                exists p, In p posts /\ postType p = t).
Proof.
  destruct (options_spec monthKey posts) as [Hm1 Hm2].
  destruct (options_spec postType posts) as [Ht1 Ht2].
  repeat split; try assumption;
    try apply (options_In monthKey); try apply (options_In postType).
Qed.

(** The order is that of the code units, not of the code points: a
    character beyond the basic plane is a surrogate pair and comes before a
    character of the last rows of the basic plane. *)
Example options_order_sample :
  Array_sort string_cmp ["！"; "😀"; "Б"; "a"]%string = ["a"; "Б"; "😀"; "！"]%string
  /\ map code_units ["a"; "Б"; "😀"; "！"]%string
     = [[97]; [1041]; [55357; 56832]; [65281]]%N.
Proof. vm_compute. split; reflexivity. Qed.

Lemma append_dash_not_all (a b : string) : (a ++ "-" ++ b)%string <> "all"%string.
Proof.
  destruct a as [|c1 [|c2 [|c3 [|c4 a]]]]; simpl; intros Heq;
    repeat (injection Heq as _ Heq); discriminate.
Qed.

Lemma mapRowToPost_monthKey_not_all `{Host} (row : Row) (index : nat) (p : PostRecord) :
  mapRowToPost row index = Returns (Dated p) -> monthKey p <> "all"%string.
Proof.
  intros Hmap. unfold mapRowToPost in Hmap. normaliser_cases Hmap.
  injection Hmap as <-. cbn [monthKey]. apply append_dash_not_all.
Qed.

Lemma filter_by_month (store : list PostRecord) (m : string) :
  m <> "all"%string ->
  filteredPosts {| posts := store;
                   selectedMonth := m;
                   selectedPostType := "all";
                   selectedWeekday := "all" |}
  = filter (fun p => String.eqb (monthKey p) m) store.
Proof.
  intros Hm. unfold filteredPosts. cbn [posts selectedMonth selectedPostType
    selectedWeekday].
  apply filter_ext. intros p.
  destruct (String.eqb_spec m "all"); [contradiction|]. simpl.
  now destruct (String.eqb (monthKey p) m).
Qed.

Lemma filter_by_type (store : list PostRecord) (t : string) :
  t <> "all"%string ->
  filteredPosts {| posts := store;
                   selectedMonth := "all";
                   selectedPostType := t;
                   selectedWeekday := "all" |}
  = of_type t store.
Proof.
  intros Ht. unfold filteredPosts, of_type. cbn [posts selectedMonth
    selectedPostType selectedWeekday].
  apply filter_ext. intros p.
  destruct (String.eqb_spec t "all"); [contradiction|]. simpl.
  now destruct (String.eqb (postType p) t).
Qed.

Lemma filter_nonempty {A : Type} (f : A -> bool) (l : list A) (x : A) :
  In x l -> f x = true -> filter f l <> [].
Proof.
  intros Hin Hf Hnil.
  assert (Hx : In x (filter f l)) by (apply filter_In; now split).
  rewrite Hnil in Hx. destruct Hx.
Qed.

(** X7. After an upload, choosing a month from the month options shows
    exactly the records of that month, and at least one: a month key is
    never the text ["all"] that stands for no filter. *)
Theorem month_option_selects_its_records `{Host} (json : list Row) (st : AppState)
    (m : string) :
  handleFileUpload json = Installed st ->
  In m (monthOptions (posts st)) ->
  m <> "all"%string
  /\ filteredPosts (with_selectors st m "all" "all")
     = filter (fun p => String.eqb (monthKey p) m) (posts st)
  /\ filteredPosts (with_selectors st m "all" "all") <> [].
Proof.
  intros Hup Hin.
  apply (options_In monthKey) in Hin. destruct Hin as (p & Hp & Hm).
  assert (Hne : m <> "all"%string).
  { destruct (store_record_origin _ _ _ Hup Hp) as (row & _ & Hmap).
    rewrite <- Hm. now apply (mapRowToPost_monthKey_not_all row (id p)). }
  split; [exact Hne|].
  unfold with_selectors. rewrite (filter_by_month _ m Hne).
  split; [reflexivity|].
  apply (filter_nonempty _ _ p Hp). now apply string_eqb_spec.
Qed.

(** Both posts of the example sheet are of January 2024. *)
Lemma month_option_selects_its_records_witness :
  exists st,
    handleFileUpload sample_rows = Installed st
    /\ In "2024-01"%string (monthOptions (posts st))
    /\ List.length (filteredPosts (with_selectors st "2024-01" "all" "all")) = 2%nat.
Proof.
  destruct (handleFileUpload sample_rows) as [st| |] eqn:E;
    try (vm_compute in E; discriminate E).
  exists st. split; [reflexivity|].
  assert (Hin : In "2024-01"%string (monthOptions (posts st))).
  { pose proof E as E'. vm_compute in E'. injection E' as <-.
    vm_compute. now left. }
  split; [exact Hin|].
  destruct (month_option_selects_its_records sample_rows st "2024-01"%string E Hin)
    as (_ & Heq & _).
  rewrite Heq. vm_compute in E. injection E as <-. vm_compute. reflexivity.
Defined.

(** X8. Choosing a post type from the post-type options always shows at
    least one record: the records of that type, or, when a post type is
    itself the text ["all"], the whole store, since that text turns the
    filter off. *)
Theorem type_option_selects_records (store : list PostRecord) (t : string) :
  In t (postTypeOptions store) ->
  let shown := filteredPosts {| posts := store;
                                selectedMonth := "all";
                                selectedPostType := t;
                                selectedWeekday := "all" |} in
  shown <> []
  /\ (t <> "all"%string -> shown = of_type t store)
  /\ (t = "all"%string -> shown = store).
Proof.
  intros Hin shown.
  apply (options_In postType) in Hin. destruct Hin as (p & Hp & Ht).
  assert (Hall : t = "all"%string -> shown = store).
  { intros ->. apply filteredPosts_all_selectors. }
  assert (Htype : t <> "all"%string -> shown = of_type t store).
  { intros Hne. now apply filter_by_type. }
  split; [|split; assumption].
  destruct (String.eqb_spec t "all") as [Heq|Hne].
  - rewrite (Hall Heq). intros Hnil. rewrite Hnil in Hp. destruct Hp.
  - rewrite (Htype Hne). unfold of_type.
    apply (filter_nonempty _ _ p Hp). now apply string_eqb_spec.
Qed.

(** One post of the example sheet has the type ["meme"]. *)
Lemma type_option_selects_records_witness :
  In "meme"%string (postTypeOptions (installed_posts (handleFileUpload sample_rows)))
  /\ List.length
       (filteredPosts {| posts := installed_posts (handleFileUpload sample_rows);
                         selectedMonth := "all";
                         selectedPostType := "meme";
                         selectedWeekday := "all" |}) = 1%nat.
Proof.
  assert (Hin : In "meme"%string
                  (postTypeOptions (installed_posts (handleFileUpload sample_rows))))
    by (vm_compute; now left).
  split; [exact Hin|].
  destruct (type_option_selects_records _ "meme"%string Hin) as (_ & Heq & _).
  rewrite Heq by discriminate. vm_compute. reflexivity.
Defined.

(** ** The heatmap grid *)

Lemma heatmap_maxViews_fold (filteredPosts : list PostRecord) :
  Heat.maxViews (heatmapData filteredPosts) =
  or_else
    (fold_left Math_max
       (map Heat.avgViews (Heat.cells (heatmapData filteredPosts))) (of_Z 0))
    (of_Z 1).
Proof.
  unfold heatmapData. cbn [Heat.maxViews Heat.cells].
  now rewrite (fold_left_proj Math_max Heat.avgViews).
Qed.

Lemma fold_max_from_nonneg (xs : list number) (a : number) :
  a = NaN \/ leb (of_Z 0) a = true ->
  fold_left Math_max xs a = NaN \/ leb (of_Z 0) (fold_left Math_max xs a) = true.
Proof.
  revert a. induction xs as [|x xs IH]; intros a Ha; [exact Ha|].
  cbn [fold_left]. apply IH.
  destruct Ha as [->|Ha]; [now left|].
  destruct a as [| | |qa]; try discriminate Ha.
  - destruct x; (now left) || (now right).
  - destruct x as [| | |qx]; [now left|now right|now right|].
    unfold Math_max. destruct (ltb (Fin qa) (Fin qx)) eqn:E; [|now right].
    right. apply leb_trans with (Fin qa); [exact Ha|now apply ltb_leb].
Qed.

Lemma nonneg_truthy_positive (m : number) :
  leb (of_Z 0) m = true -> truthy m = true -> gtb m (of_Z 0) = true.
Proof.
  unfold gtb. destruct m as [| | |q]; try discriminate; try reflexivity.
  intros Hle Ht. apply leb_Fin in Hle. apply ltb_Fin.
  simpl in Ht. apply negb_true_iff in Ht. unfold Qzerob in Ht.
  apply Qle_lteq in Hle. destruct Hle as [Hlt|Heq]; [exact Hlt|].
  assert (Hq : Qeq_bool q 0 = true) by (apply Qeq_bool_iff; now symmetry).
  congruence.
Qed.

Lemma heatmap_maxViews_gt_zero (filteredPosts : list PostRecord) :
  gtb (Heat.maxViews (heatmapData filteredPosts)) (of_Z 0) = true.
Proof.
  rewrite heatmap_maxViews_fold. unfold or_else.
  set (xs := map Heat.avgViews (Heat.cells (heatmapData filteredPosts))).
  destruct (truthy (fold_left Math_max xs (of_Z 0))) eqn:E; [|reflexivity].
  destruct (fold_max_from_nonneg xs (of_Z 0) (or_intror eq_refl)) as [Hnan|Hle].
  - rewrite Hnan in E. discriminate E.
  - now apply nonneg_truthy_positive.
Qed.

(** X9. Whatever the records are, [maxViews] of the heatmap is a positive
    number, never zero and never [NaN]: the test [maxViews > 0] that guards
    the division of a cell mean by it always holds, and the division is
    never one by zero. *)
Theorem heatmap_maxViews_positive (filteredPosts : list PostRecord) :
  let m := Heat.maxViews (heatmapData filteredPosts) in
  gtb m (of_Z 0) = true /\ truthy m = true /\ isNaN m = false.
Proof.
  intros m.
  pose proof (heatmap_maxViews_gt_zero filteredPosts) as Hpos. fold m in Hpos.
  split; [exact Hpos|].
  unfold gtb in Hpos. split; [now apply positive_truthy|].
  destruct m; try reflexivity. discriminate Hpos.
Qed.

Lemma find_map_key {K B : Type} (eqb : K -> K -> bool) (g : K -> B)
    (test : B -> bool) (keys : list K) (k : K) :
  (forall a b, eqb a b = true <-> a = b) ->
  (forall k', test (g k') = eqb k' k) ->
  find test (map g keys) = if existsb (fun k' => eqb k' k) keys then Some (g k) else None.
Proof.
  intros Hspec Htest. induction keys as [|k0 keys IH]; [reflexivity|].
  cbn [map find existsb]. rewrite Htest.
  destruct (eqb k0 k) eqn:E; [|exact IH].
  apply Hspec in E. now subst.
Qed.

Lemma populated_keys (filteredPosts : list PostRecord) (k : Heat.key) :
  existsb (fun k' => Heat.key_eqb k' k) (map fst (heatmap_cellMap filteredPosts)) =
  existsb (fun p => Heat.key_eqb (heat_key p) k) filteredPosts.
Proof.
  apply eq_true_iff_eq. rewrite !existsb_exists. split.
  - intros (k' & Hin & Heq). apply heat_key_eqb_spec in Heq. subst k'.
    rewrite heatmap_cellMap_group_fold in Hin.
    apply (group_fold_In_keys Heat.key_eqb heat_key_eqb_spec) in Hin.
    destruct Hin as [[]|(p & Hp & Hk)].
    exists p. split; [assumption|now apply heat_key_eqb_spec].
  - intros (p & Hp & Heq). exists k. split; [|now apply heat_key_eqb_spec].
    rewrite heatmap_cellMap_group_fold.
    apply (group_fold_In_keys Heat.key_eqb heat_key_eqb_spec).
    right. exists p. split; [assumption|now apply heat_key_eqb_spec].
Qed.

Lemma heatmap_cell_find_spec (filteredPosts : list PostRecord) (wIdx hour : Z) :
  heatmap_cell_find (heatmapData filteredPosts) wIdx hour =
  if existsb (fun p => Heat.key_eqb (heat_key p) (wIdx, hour)) filteredPosts
  then Some (heat_cell_of filteredPosts (wIdx, hour))
  else None.
Proof.
  unfold heatmap_cell_find. rewrite heatmap_cells.
  rewrite (find_map_key Heat.key_eqb (heat_cell_of filteredPosts) _ _ (wIdx, hour)
             heat_key_eqb_spec).
  - now rewrite populated_keys.
  - intros [w h]. reflexivity.
Qed.

(** X10. The square of a weekday and an hour finds the cell of the records
    posted on that weekday at that hour, with their mean views, when there
    is such a record; otherwise it finds no cell and its colour ratio is 0,
    which keeps a square without data apart from a populated one. *)
Theorem heatmap_square_lookup (filteredPosts : list PostRecord) (wIdx hr : Z) :
  let h := heatmapData filteredPosts in
  let populated :=
    existsb (fun p => (weekdayIndex p =? wIdx) && (hour p =? hr)) filteredPosts in
  heatmap_cell_find h wIdx hr =
  (if populated then Some (heat_cell_of filteredPosts (wIdx, hr)) else None)
  /\ heatmap_ratio h wIdx hr =
     (if populated
      then div (mean (map views (in_cell (wIdx, hr) filteredPosts)))
               (Heat.maxViews h)
      else of_Z 0).
Proof.
  intros h populated.
  assert (Hfind : heatmap_cell_find h wIdx hr =
                  if populated then Some (heat_cell_of filteredPosts (wIdx, hr))
                  else None)
    by apply heatmap_cell_find_spec.
  split; [exact Hfind|].
  unfold heatmap_ratio. rewrite Hfind.
  destruct populated; [|reflexivity].
  unfold h. now rewrite heatmap_maxViews_gt_zero.
Qed.

Lemma div_le_one (a m : Q) :
  (0 < m)%Q -> (a <= m)%Q ->
  exists r, div (Fin a) (Fin m) = Fin r /\ (r <= 1)%Q.
Proof.
  intros Hm Ham. unfold div. rewrite (Qzerob_pos m Hm).
  eexists. split; [reflexivity|].
  rewrite Qred_correct. apply Qle_shift_div_r; [assumption|]. now rewrite Qmult_1_l.
Qed.

Lemma heatmap_ratio_bounded (filteredPosts : list PostRecord) (wIdx hr : Z) :
  (forall p, In p filteredPosts -> isFinite (views p) = true) ->
  let ratio := heatmap_ratio (heatmapData filteredPosts) wIdx hr in
  isFinite ratio = true /\ leb ratio (of_Z 1) = true.
Proof.
  intros Hfin ratio. unfold ratio, heatmap_ratio.
  destruct (heatmap_cell_find (heatmapData filteredPosts) wIdx hr) as [c|] eqn:Ec;
    [|split; reflexivity].
  rewrite heatmap_maxViews_gt_zero.
  set (avgs := map Heat.avgViews (Heat.cells (heatmapData filteredPosts))).
  assert (Hc : In (Heat.avgViews c) avgs).
  { apply in_map. unfold heatmap_cell_find in Ec. now apply find_some in Ec. }
  pose proof (heatmap_means_finite filteredPosts Hfin) as Hall. fold avgs in Hall.
  assert (Hnonnan : Forall (fun x => isNaN x = false) avgs).
  { apply Forall_impl with (2 := Hall). intros x Hx. now destruct x. }
  rewrite Forall_forall in Hall.
  assert (Hgoal : exists r, div (Heat.avgViews c)
                              (Heat.maxViews (heatmapData filteredPosts)) = Fin r
                            /\ (r <= 1)%Q).
  { rewrite heatmap_maxViews_fold. fold avgs. unfold or_else.
    destruct (fold_max_nonnan avgs (of_Z 0) eq_refl Hnonnan)
      as (_ & Hzero & Hub & Hin).
    set (m := fold_left Math_max avgs (of_Z 0)) in *.
    pose proof (Hub _ Hc) as Hcm.
    pose proof (Hall _ Hc) as Hcfin.
    destruct (Heat.avgViews c) as [| | |a]; try discriminate Hcfin.
    assert (Hmfin : exists mq, m = Fin mq).
    { destruct Hin as [->|Hin]; [now eexists|].
      specialize (Hall _ Hin). destruct m; try discriminate Hall. now eexists. }
    destruct Hmfin as [mq Hmq]. rewrite Hmq in *.
    apply leb_Fin in Hcm. apply leb_Fin in Hzero.
    destruct (truthy (Fin mq)) eqn:Et.
    - apply div_le_one; [|assumption].
      simpl in Et. apply negb_true_iff in Et. unfold Qzerob in Et.
      apply Qle_lteq in Hzero. destruct Hzero as [Hlt|Heq]; [exact Hlt|].
      assert (Hq : Qeq_bool mq 0 = true) by (apply Qeq_bool_iff; now symmetry).
      congruence.
    - apply div_le_one; [reflexivity|].
      simpl in Et. apply negb_false_iff in Et. unfold Qzerob in Et.
      apply Qeq_bool_iff in Et. rewrite Et in Hcm.
      apply Qle_trans with 0%Q; [assumption|discriminate]. }
  destruct Hgoal as (r & Hr & Hle). rewrite Hr.
  split; [reflexivity|now apply leb_Fin].
Qed.

(** X11. When the views of the records are finite and [maxViews] is finite
    (no sum of views went beyond the largest double), the colour ratio of
    every square of the grid is a number not above 1, and so not [NaN]: a
    cell mean never exceeds [maxViews]. *)
Theorem heatmap_ratio_at_most_one (filteredPosts : list PostRecord) (wIdx hr : Z) :
  (forall p, In p filteredPosts -> isFinite (views p) = true) ->
  isFinite (Heat.maxViews (heatmapData filteredPosts)) = true ->
  let ratio := heatmap_ratio (heatmapData filteredPosts) wIdx hr in
  isNaN ratio = false /\ leb ratio (of_Z 1) = true.
Proof.
  intros Hfin _ ratio.
  destruct (heatmap_ratio_bounded filteredPosts wIdx hr Hfin) as [Hf Hle].
  fold ratio in Hf, Hle. split; [|exact Hle].
  destruct ratio; try discriminate Hf. reflexivity.
Qed.

(** On the three Monday posts the square of Monday at nine has ratio 1. *)
Lemma heatmap_ratio_at_most_one_witness :
  (forall p, In p (installed_posts (handleFileUpload monday_nine_rows)) ->
             isFinite (views p) = true)
  /\ isFinite
       (Heat.maxViews (heatmapData (installed_posts (handleFileUpload monday_nine_rows))))
     = true
  /\ leb (heatmap_ratio
            (heatmapData (installed_posts (handleFileUpload monday_nine_rows))) 1 9)
         (of_Z 1) = true
  /\ heatmap_ratio (heatmapData (installed_posts (handleFileUpload monday_nine_rows))) 1 9
     = of_Z 1.
Proof.
  assert (Hfin : forall p, In p (installed_posts (handleFileUpload monday_nine_rows)) ->
                           isFinite (views p) = true).
  { intros p Hp. vm_compute in Hp.
    destruct Hp as [<-|[<-|[<-|[]]]]; reflexivity. }
  assert (Hmax : isFinite
                   (Heat.maxViews
                      (heatmapData (installed_posts (handleFileUpload monday_nine_rows))))
                 = true) by (vm_compute; reflexivity).
  split; [exact Hfin|]. split; [exact Hmax|].
  split; [apply (heatmap_ratio_at_most_one _ 1 9 Hfin Hmax)|].
  vm_compute. reflexivity.
Defined.

(** A colour channel of the gradient: between its two end values. *)
Lemma gradient_channel (s e : Z) (q : Q) :
  e <= s -> (0 < q)%Q -> (q <= 1)%Q ->
  exists c,
    Math_round (add (of_Z s) (mul (sub (of_Z e) (of_Z s)) (Fin q))) = of_Z c
    /\ e <= c <= s.
Proof.
  intros Hes Hq0 Hq1.
  unfold sub, neg, add, mul, fin, of_Z, Math_round.
  eexists. split; [reflexivity|].
  set (x := (Qred (inject_Z s
                   + Qred (Qred (inject_Z e + Qred (- inject_Z s)) * q)) + (1 # 2))%Q).
  assert (Hx : (x == inject_Z s + (inject_Z e - inject_Z s) * q + (1 # 2))%Q).
  { unfold x. rewrite !Qred_correct. ring. }
  assert (Hes' : (inject_Z e <= inject_Z s)%Q) by (rewrite <- Zle_Qle; exact Hes).
  split.
  - rewrite <- (Qfloor_Z e). apply Qfloor_resp_le. rewrite Hx. nra.
  - assert (Hlt : (x < inject_Z (s + 1))%Q).
    { rewrite Hx, inject_Z_plus. change (inject_Z 1) with 1%Q. nra. }
    pose proof (Qfloor_le x) as Hfl.
    assert (Hz : (inject_Z (Qfloor x) < inject_Z (s + 1))%Q)
      by (apply Qle_lt_trans with x; assumption).
    rewrite <- Zlt_Qlt in Hz. lia.
Qed.

Lemma getHeatmapColor_unit_ratio `{Host} (q : Q) :
  (0 < q)%Q -> (q <= 1)%Q -> in_gradient (getHeatmapColor (Fin q)).
Proof.
  intros Hq0 Hq1.
  destruct (gradient_channel 245 165 q) as (r & Hr & Hrb); [lia|assumption..|].
  destruct (gradient_channel 240 111 q) as (g & Hg & Hgb); [lia|assumption..|].
  destruct (gradient_channel 255 253 q) as (b & Hb & Hbb); [lia|assumption..|].
  exists r, g, b. repeat (split; [lia|]).
  unfold getHeatmapColor.
  assert (Hpos : leb (Fin q) (of_Z 0) = false).
  { destruct (leb (Fin q) (of_Z 0)) eqn:E; [|reflexivity].
    apply leb_Fin in E. exfalso. apply (Qlt_not_le _ _ Hq0). exact E. }
  rewrite Hpos, Hr, Hg, Hb. reflexivity.
Qed.

(** X12. A ratio that is not positive gives the grey of an empty square.
    For a ratio above 0 and up to 1 the colour is an [rgb] text whose three
    channels are integers between the two ends of the gradient: red from
    165 to 245, green from 111 to 240, blue from 253 to 255. *)
Theorem heatmap_color_in_gradient `{Host} (q : Q) :
  (0 < q)%Q -> (q <= 1)%Q ->
  (forall ratio, leb ratio (of_Z 0) = true ->
                 getHeatmapColor ratio = "#f4f4f5"%string)
  /\ exists r g b,
       165 <= r <= 245 /\ 111 <= g <= 240 /\ 253 <= b <= 255
       /\ getHeatmapColor (Fin q) =
          ("rgb(" ++ NumberToString (of_Z r) ++ ", " ++ NumberToString (of_Z g)
           ++ ", " ++ NumberToString (of_Z b) ++ ")")%string.
Proof.
  intros Hq0 Hq1. split.
  - intros ratio Hle. unfold getHeatmapColor. now rewrite Hle.
  - now apply getHeatmapColor_unit_ratio.
Qed.

(** The full ratio gives the accent colour of the dashboard. *)
Lemma heatmap_color_in_gradient_witness :
  (0 < 1)%Q /\ (1 <= 1)%Q
  /\ getHeatmapColor (of_Z 1) = "rgb(165, 111, 253)"%string
  /\ exists r g b,
       165 <= r <= 245 /\ 111 <= g <= 240 /\ 253 <= b <= 255
       /\ getHeatmapColor (Fin 1) =
          ("rgb(" ++ NumberToString (of_Z r) ++ ", " ++ NumberToString (of_Z g)
           ++ ", " ++ NumberToString (of_Z b) ++ ")")%string.
Proof.
  assert (H0 : (0 < 1)%Q) by reflexivity.
  assert (H1 : (1 <= 1)%Q) by discriminate.
  split; [exact H0|]. split; [exact H1|].
  split; [vm_compute; reflexivity|].
  exact (proj2 (heatmap_color_in_gradient 1 H0 H1)).
Defined.

(** ** The time cell of a row *)

Section TimeCellFacts.
Context `{Host}.

(** X13. A row whose time cell is falsy (absent, blank, [null], or the
    number 0, which is midnight as a day fraction) keeps the time of its
    date cell: both versions of the normaliser store the parsed date as it
    is, and derive the hour and the weekday from it. *)
Theorem falsy_time_cell_keeps_date (row : Row) (index : nat) (d : Date) :
  parseDate (Row_get row "Дата") = Some d ->
  ToBoolean (time_cell row) = false ->
  exists p,
    mapRowToPost row index = Returns (Dated p)
    /\ AppTsx.mapRowToPost row index = Returns (Dated p)
    /\ dateObj p = d /\ hour p = getHours d /\ weekdayIndex p = getDay d.
Proof.
  intros Hd Ht. unfold time_cell in Ht.
  unfold mapRowToPost, AppTsx.mapRowToPost. rewrite Hd, Ht.
  eexists. split; [reflexivity|]. split; [reflexivity|]. repeat split.
Qed.

Lemma or_else_default_part (parts : list string) (i : nat) :
  truthy (StringToNumber "0") = false ->
  or_else (Number (part_or parts i (VStr "0"))) (of_Z 0) =
  or_else (Number (part_or parts i VUndefined)) (of_Z 0).
Proof.
  intros Hzero. unfold part_or. destruct (nth_error parts i); [reflexivity|].
  unfold or_else. cbn [Number]. now rewrite Hzero.
Qed.

(** X14. The two versions of the normaliser differ only on a time cell that
    holds a non-zero number: on every other row, on a host where
    [Number("0")] is 0, they complete in the same way, with the same record
    when they return one. *)
Theorem normalizer_versions_agree (row : Row) (index : nat) :
  truthy (StringToNumber "0") = false ->
  (forall n, time_cell row = VNum n -> truthy n = false) ->
  AppTsx.mapRowToPost row index = mapRowToPost row index.
Proof.
  intros Hzero Hnum. unfold time_cell in Hnum.
  unfold mapRowToPost, AppTsx.mapRowToPost.
  destruct (parseDate (Row_get row "Дата")) as [d|]; [|reflexivity].
  destruct (ToBoolean (Row_get row "Время поста")) eqn:Et; [|reflexivity].
  destruct (Row_get row "Время поста") as [| |b|n|s|t] eqn:Ecell;
    try discriminate Et.
  - now rewrite !(or_else_default_part _ _ Hzero).
  - simpl in Et. rewrite (Hnum n eq_refl) in Et. discriminate Et.
  - now rewrite !(or_else_default_part _ _ Hzero).
  - now rewrite !(or_else_default_part _ _ Hzero).
Qed.
End TimeCellFacts.

(** A row without a time cell stays at the midnight of its date. *)
Lemma falsy_time_cell_keeps_date_witness :
  parseDate (Row_get no_views_row "Дата") = Some 1704067200000
  /\ ToBoolean (time_cell no_views_row) = false
  /\ exists p,
       mapRowToPost no_views_row 0 = Returns (Dated p)
       /\ dateObj p = 1704067200000 /\ hour p = 0.
Proof.
  assert (Hd : parseDate (Row_get no_views_row "Дата") = Some 1704067200000)
    by (vm_compute; reflexivity).
  assert (Ht : ToBoolean (time_cell no_views_row) = false) by reflexivity.
  split; [exact Hd|]. split; [exact Ht|].
  destruct (falsy_time_cell_keeps_date no_views_row 0 _ Hd Ht)
    as (p & Hp & _ & Hdate & Hhour & _).
  exists p. split; [exact Hp|]. split; [exact Hdate|].
  rewrite Hhour. vm_compute. reflexivity.
Defined.

(** The first row of the example sheet has its time as text. *)
Lemma normalizer_versions_agree_witness :
  truthy (StringToNumber "0") = false
  /\ (forall n, time_cell (hd [] sample_rows) = VNum n -> truthy n = false)
  /\ AppTsx.mapRowToPost (hd [] sample_rows) 0 = mapRowToPost (hd [] sample_rows) 0.
Proof.
  assert (Hzero : truthy (StringToNumber "0") = false) by (vm_compute; reflexivity).
  assert (Hnum : forall n, time_cell (hd [] sample_rows) = VNum n -> truthy n = false)
    by (intros n Hn; vm_compute in Hn; discriminate Hn).
  split; [exact Hzero|]. split; [exact Hnum|].
  exact (normalizer_versions_agree _ 0%nat Hzero Hnum).
Defined.

(** ** A time cell that holds a day fraction *)

Lemma Qred_inject_Z (z : Z) : Qred (inject_Z z) = inject_Z z.
Proof. apply Qred_iff. simpl. apply Z.gcd_1_r. Qed.

Lemma fin_integer (q : Q) (z : Z) : (q == inject_Z z)%Q -> fin q = of_Z z.
Proof.
  intros Hq. unfold fin, of_Z. f_equal.
  rewrite (Qred_complete _ _ Hq). apply Qred_inject_Z.
Qed.

Lemma Qfloor_div_60 (t : Z) : Qfloor (inject_Z t / inject_Z 60) = t / 60.
Proof.
  unfold Qdiv, Qmult, Qinv, inject_Z, Qfloor. simpl.
  now rewrite Z.mul_1_r.
Qed.

(** The whole minutes of a day fraction, split into hours and minutes. *)
Lemma minutes_of_fraction (f : Q) :
  (0 < f)%Q ->
  let t := Qfloor (f * 1440 + (1 # 2)) in
  let totalMinutes := Math_round (mul (mul (Fin f) (of_Z 24)) (of_Z 60)) in
  0 <= t
  /\ totalMinutes = of_Z t
  /\ Math_floor (div totalMinutes (of_Z 60)) = of_Z (t / 60)
  /\ rem totalMinutes (of_Z 60) = of_Z (t mod 60).
Proof.
  intros Hf t totalMinutes.
  assert (Ht : 0 <= t).
  { unfold t. rewrite <- (Qfloor_Z 0). apply Qfloor_resp_le.
    change (inject_Z 0) with 0%Q. nra. }
  assert (Htotal : totalMinutes = of_Z t).
  { unfold totalMinutes, t, mul, fin, Math_round. unfold of_Z. do 2 f_equal.
    apply Qfloor_comp. rewrite !Qred_correct. unfold inject_Z. ring. }
  split; [exact Ht|]. split; [exact Htotal|].
  rewrite Htotal. split.
  - unfold div, of_Z. change (Qzerob (inject_Z 60)) with false. cbv iota.
    unfold fin, Math_floor. unfold of_Z. do 2 f_equal.
    rewrite (Qfloor_comp _ _ (Qred_correct _)). apply Qfloor_div_60.
  - unfold rem, of_Z. change (Qzerob (inject_Z 60)) with false. cbv iota.
    apply fin_integer.
    assert (Hnonneg : Qnegb (inject_Z t / inject_Z 60) = false).
    { unfold Qnegb. apply negb_false_iff, Qle_bool_iff.
      apply Qle_shift_div_l; [reflexivity|].
      rewrite Qmult_0_l. change 0%Q with (inject_Z 0). now rewrite <- Zle_Qle. }
    unfold Qtrunc. rewrite Hnonneg, Qfloor_div_60.
    rewrite (Z.mod_eq t 60) by lia.
    unfold Qeq, Qminus, Qplus, Qopp, Qmult, inject_Z. cbn [Qnum Qden]. lia.
Qed.

(** A day fraction within a quarter of a minute of the whole minute [k]
    rounds to [k]. *)
Lemma nearest_minute (f : Q) (k : Z) :
  (Qabs (f * 1440 - inject_Z k) <= 1 # 4)%Q ->
  Qfloor (f * 1440 + (1 # 2)) = k.
Proof.
  intros Hnear. apply Qabs_Qle_condition in Hnear. destruct Hnear as [Hlo Hhi].
  assert (Hge : k <= Qfloor (f * 1440 + (1 # 2))).
  { rewrite <- (Qfloor_Z k). apply Qfloor_resp_le. lra. }
  assert (Hlt : Qfloor (f * 1440 + (1 # 2)) < k + 1).
  { pose proof (Qfloor_le (f * 1440 + (1 # 2))) as Hfl.
    rewrite Zlt_Qlt, inject_Z_plus. change (inject_Z 1) with 1%Q. lra. }
  lia.
Qed.

(** X15. A time cell that holds a positive day fraction within a quarter of
    a minute of the [k]-th minute of the day sets the time of the date to
    that minute: the hour is the quotient and the minute the remainder of
    [k] by 60, and seconds and milliseconds are cleared.  When that leaves
    a valid date, the record has this date and its hour; otherwise no
    record with a valid date is returned. *)
Theorem day_fraction_sets_hour_and_minute `{Host} (row : Row) (index : nat)
    (d : Date) (f : Q) (k : Z) :
  parseDate (Row_get row "Дата") = Some d ->
  time_cell row = VNum (Fin f) ->
  (0 < f)%Q ->
  0 <= k < 1440 ->
  (Qabs (f * 1440 - inject_Z k) <= 1 # 4)%Q ->
  0 <= k / 60 < 24
  /\ 0 <= k mod 60 < 60
  /\ match setHours d (of_Z (k / 60)) (of_Z (k mod 60)) (of_Z 0) (of_Z 0) with
     | Some merged =>
         exists p,
           mapRowToPost row index = Returns (Dated p)
           /\ dateObj p = merged /\ hour p = getHours merged
     | None =>
         mapRowToPost row index = RangeError
         \/ exists u, mapRowToPost row index = Returns (Undated u)
     end.
Proof.
  intros Hd Ht Hf Hk Hnear.
  split; [split; [apply Z.div_pos; lia|apply Z.div_lt_upper_bound; lia]|].
  split; [apply Z.mod_pos_bound; lia|].
  destruct (minutes_of_fraction f Hf) as (_ & _ & Hh & Hm).
  rewrite (nearest_minute f k Hnear) in Hh, Hm. cbv zeta in Hh, Hm.
  unfold time_cell in Ht. unfold mapRowToPost. rewrite Hd, Ht.
  assert (Htruthy : ToBoolean (VNum (Fin f)) = true).
  { simpl. now rewrite Qzerob_pos. }
  rewrite Htruthy. cbv zeta. rewrite Hh, Hm.
  destruct (setHours d (of_Z (k / 60)) (of_Z (k mod 60)) (of_Z 0) (of_Z 0))
    as [merged|].
  - eexists. split; [reflexivity|]. split; reflexivity.
  - destruct (Row_get row "Дата"); try (now left).
    right. eexists. reflexivity.
Qed.

(** Half a day is noon. *)
Lemma day_fraction_sets_hour_and_minute_witness :
  parseDate (Row_get noon_row "Дата") = Some 1704067200000
  /\ time_cell noon_row = VNum (Fin (1 # 2))
  /\ (0 < 1 # 2)%Q
  /\ 0 <= 720 < 1440
  /\ (Qabs ((1 # 2) * 1440 - inject_Z 720) <= 1 # 4)%Q
  /\ exists p, mapRowToPost noon_row 0 = Returns (Dated p) /\ hour p = 12.
Proof.
  assert (Hd : parseDate (Row_get noon_row "Дата") = Some 1704067200000)
    by (vm_compute; reflexivity).
  assert (Hf : (0 < 1 # 2)%Q) by reflexivity.
  assert (Hk : 0 <= 720 < 1440) by lia.
  assert (Hnear : (Qabs ((1 # 2) * 1440 - inject_Z 720) <= 1 # 4)%Q)
    by (vm_compute; discriminate).
  split; [exact Hd|]. split; [reflexivity|]. split; [exact Hf|].
  split; [exact Hk|]. split; [exact Hnear|].
  destruct (day_fraction_sets_hour_and_minute noon_row 0%nat _ (1 # 2) 720
              Hd eq_refl Hf Hk Hnear) as (_ & _ & Hmerged).
  destruct (setHours 1704067200000 (of_Z (720 / 60)) (of_Z (720 mod 60))
              (of_Z 0) (of_Z 0)) as [merged|] eqn:E;
    [|vm_compute in E; discriminate E].
  destruct Hmerged as (p & Hp & _ & Hhour).
  exists p. split; [exact Hp|].
  rewrite Hhour. vm_compute in E. injection E as <-. reflexivity.
Defined.

(** ** Blank cells and missing cells *)

Section BlankCellFacts.
Context `{Host}.

Lemma mapRowToPost_postType (row : Row) (index : nat) (r : Returned) :
  mapRowToPost row index = Returns r \/ AppTsx.mapRowToPost row index = Returns r ->
  postType_of r =
  JSString (nullish (nullish (Row_get row "Тип поста") (VStr "Без типа"))
              (VStr "Без типа")).
Proof.
  intros [Hmap|Hmap];
    [unfold mapRowToPost in Hmap|unfold AppTsx.mapRowToPost in Hmap];
    normaliser_cases Hmap; now injection Hmap as <-.
Qed.

(** X16. A blank cell is not a missing cell.  When the views-of-the-day
    cell is blank the views are 0 and the total-views column is not
    consulted; only when that cell is missing or [null] are the views read
    from the total-views column.  A blank post-type cell gives the empty
    post type; only a missing or [null] one gives the default type.  This
    holds for every record that either version of the normaliser returns. *)
Theorem blank_cells_are_not_missing (row : Row) (index : nat) (r : Returned) :
  mapRowToPost row index = Returns r \/ AppTsx.mapRowToPost row index = Returns r ->
  truthy (StringToNumber EmptyString) = false ->
  (Row_get row "Количество просмотров в день поста" = VStr EmptyString ->
   views_of r = of_Z 0)
  /\ (Row_get row "Количество просмотров в день поста" = VUndefined
      \/ Row_get row "Количество просмотров в день поста" = VNull ->
      views_of r
      = or_else (Number (Row_get row "Количество просмотров общее")) (of_Z 0))
  /\ (Row_get row "Тип поста" = VStr EmptyString -> postType_of r = EmptyString)
  /\ (Row_get row "Тип поста" = VUndefined \/ Row_get row "Тип поста" = VNull ->
      postType_of r = "Без типа"%string).
Proof.
  intros Hmap Hblank.
  assert (Hm : metrics_of row index r).
  { destruct Hmap; [now apply mapRowToPost_metrics
                   |now apply AppTsx_mapRowToPost_metrics]. }
  destruct Hm as (_ & Hviews & _).
  pose proof (mapRowToPost_postType row index r Hmap) as Htype.
  unfold views_cell in Hviews.
  split; [|split; [|split]].
  - intros Hcell. rewrite Hviews, Hcell. cbn [nullish Number].
    unfold or_else. now rewrite Hblank.
  - intros [Hcell|Hcell]; rewrite Hviews, Hcell; reflexivity.
  - intros Hcell. rewrite Htype, Hcell. reflexivity.
  - intros [Hcell|Hcell]; rewrite Htype, Hcell; reflexivity.
Qed.
End BlankCellFacts.

(** A row with a blank views cell beside a total of 900, and a blank type. *)
Lemma blank_cells_are_not_missing_witness :
  truthy (StringToNumber EmptyString) = false
  /\ exists r,
       mapRowToPost blank_cells_row 0 = Returns r
       /\ views_of r = of_Z 0 /\ postType_of r = EmptyString.
Proof.
  assert (Hblank : truthy (StringToNumber EmptyString) = false) by reflexivity.
  split; [exact Hblank|].
  destruct (mapRowToPost blank_cells_row 0) as [|r|] eqn:E;
    try (vm_compute in E; discriminate E).
  exists r. split; [reflexivity|].
  destruct (blank_cells_are_not_missing blank_cells_row 0 r (or_introl E) Hblank)
    as (Hv & _ & Ht & _).
  split; [apply Hv|apply Ht]; reflexivity.
Defined.

(** ** One weekday *)

Lemma sorted_singleton (l : list Z) (k : Z) :
  StronglySorted Z.lt l -> (forall x, In x l <-> x = k) -> l = [k].
Proof.
  intros Hs Hin. destruct l as [|a l].
  - exfalso. apply (proj2 (Hin k) eq_refl).
  - assert (Ha : a = k) by (apply Hin; now left). subst a.
    destruct l as [|b l]; [reflexivity|].
    assert (Hb : b = k) by (apply Hin; right; now left). subst b.
    inversion Hs as [|? ? _ Hall]; subst. inversion Hall; subst. lia.
Qed.

Lemma on_weekday_all (filteredPosts : list PostRecord) (k : Z) :
  (forall p, In p filteredPosts -> weekdayIndex p = k) ->
  on_weekday k filteredPosts = filteredPosts.
Proof.
  intros Hall. unfold on_weekday. induction filteredPosts as [|p l IH]; [reflexivity|].
  cbn [filter]. rewrite (Hall p (or_introl eq_refl)), Z.eqb_refl.
  f_equal. apply IH. intros q Hq. apply Hall. now right.
Qed.

Lemma single_weekday_entry {V : Type} (init : PostRecord -> V)
    (upd : PostRecord -> V -> V) (filteredPosts : list PostRecord) (k : Z) :
  filteredPosts <> [] ->
  (forall p, In p filteredPosts -> weekdayIndex p = k) ->
  exists e,
    Array_sort (fun a b : Z * V => fst a - fst b)
      (group_fold Z.eqb weekdayIndex init upd filteredPosts []) = [(k, e)]
    /\ group_value init upd filteredPosts = Some e.
Proof.
  intros Hne Hall.
  destruct (weekday_groups init upd filteredPosts) as (Hs & Hk & He).
  set (sorted := Array_sort _ _) in *.
  assert (Hkeys : map fst sorted = [k]).
  { apply sorted_singleton; [exact Hs|]. intros x. rewrite Hk. split.
    - intros (p & Hp & <-). now apply Hall.
    - intros ->. destruct filteredPosts as [|p l]; [contradiction|].
      exists p. split; [now left|]. apply Hall. now left. }
  destruct sorted as [|[k' e] [|? ?]]; try discriminate Hkeys.
  injection Hkeys as ->. exists e. split; [reflexivity|].
  rewrite <- (on_weekday_all filteredPosts k Hall). apply He. now left.
Qed.

(** X17. When all the records fall on one weekday, as they do once a
    weekday is selected, each weekday chart has a single bar, and it shows
    the mean of the KPI summary: the mean views, and the mean engagement
    rate in percent. *)
Theorem single_weekday_bar_is_kpi (filteredPosts : list PostRecord) (k : Z) :
  filteredPosts <> [] ->
  (forall p, In p filteredPosts -> weekdayIndex p = k) ->
  viewsByWeekday filteredPosts =
    [{| WeekdayViews.out_weekday := group_label filteredPosts;
        WeekdayViews.avgViews := Kpi.avgViews (kpi filteredPosts) |}]
  /\ erByWeekday filteredPosts =
     [{| WeekdayEr.out_weekday := group_label filteredPosts;
         WeekdayEr.avgErPercent := mul (Kpi.avgEr (kpi filteredPosts)) (of_Z 100) |}].
Proof.
  intros Hne Hall.
  destruct filteredPosts as [|p g]; [contradiction|].
  assert (Hkpi : kpi (p :: g) =
                 {| Kpi.totalPosts := List.length (p :: g);
                    Kpi.avgViews := mean (map views (p :: g));
                    Kpi.avgReactions := mean (map reactions (p :: g));
                    Kpi.avgEr := mean (map er (p :: g)) |}).
  { unfold kpi, mean, sum.
    change (List.length (p :: g) =? 0)%nat with false. cbv iota.
    rewrite (fold_add_map views), (fold_add_map reactions), (fold_add_map er).
    rewrite !length_map. reflexivity. }
  rewrite Hkpi. cbn [Kpi.avgViews Kpi.avgEr].
  split.
  - destruct (single_weekday_entry wv_init wv_upd (p :: g) k Hne Hall)
      as (e & Hsorted & He).
    unfold viewsByWeekday, viewsByWeekday_sorted.
    rewrite viewsByWeekday_map_group_fold, Hsorted.
    cbn [group_value fold_left] in He. injection He as <-.
    destruct (wv_upd_fold g (wv_upd p (wv_init p))) as (Hl & Hsum & Hc).
    cbv zeta in Hl, Hsum, Hc. cbn [map]. rewrite Hl, Hsum, Hc. unfold mean, sum.
    cbn [wv_upd wv_init WeekdayViews.weekday WeekdayViews.viewsSum
         WeekdayViews.count group_label map fold_left List.length Nat.add
         Nat.ltb Nat.leb].
    rewrite length_map. reflexivity.
  - destruct (single_weekday_entry we_init we_upd (p :: g) k Hne Hall)
      as (e & Hsorted & He).
    unfold erByWeekday, erByWeekday_sorted.
    rewrite erByWeekday_map_group_fold, Hsorted.
    cbn [group_value fold_left] in He. injection He as <-.
    destruct (we_upd_fold g (we_upd p (we_init p))) as (Hl & Hsum & Hc).
    cbv zeta in Hl, Hsum, Hc. cbn [map]. rewrite Hl, Hsum, Hc. unfold mean, sum.
    cbn [we_upd we_init WeekdayEr.weekday WeekdayEr.erSum
         WeekdayEr.count group_label map fold_left List.length Nat.add
         Nat.ltb Nat.leb].
    rewrite length_map. reflexivity.
Qed.

(** Both posts of the example sheet are Monday posts. *)
Lemma single_weekday_bar_is_kpi_witness :
  installed_posts (handleFileUpload sample_rows) <> []
  /\ (forall p, In p (installed_posts (handleFileUpload sample_rows)) -> weekdayIndex p = 1)
  /\ map WeekdayViews.avgViews (viewsByWeekday (installed_posts (handleFileUpload sample_rows)))
     = [Kpi.avgViews (kpi (installed_posts (handleFileUpload sample_rows)))].
Proof.
  assert (Hne : installed_posts (handleFileUpload sample_rows) <> [])
    by (vm_compute; discriminate).
  assert (Hall : forall p, In p (installed_posts (handleFileUpload sample_rows)) ->
                           weekdayIndex p = 1).
  { intros p Hp. vm_compute in Hp. destruct Hp as [<-|[<-|[]]]; reflexivity. }
  split; [exact Hne|]. split; [exact Hall|].
  destruct (single_weekday_bar_is_kpi _ 1 Hne Hall) as [Hv _].
  rewrite Hv. reflexivity.
Defined.

(** ** Two-digit fields *)

Lemma string_length_append (a b : string) :
  String.length (a ++ b) = (String.length a + String.length b)%nat.
Proof. induction a as [|c a IH]; simpl; [reflexivity|now rewrite IH]. Qed.

(** A number from 0 to 99 is padded to two digits that read back as it. *)
Lemma pad2_round_trip (z : Z) :
  0 <= z <= 99 ->
  String.length (String_padStart 2 "0" (Z_toString z)) = 2%nat
  /\ read_decimal (String_padStart 2 "0" (Z_toString z)) = Some z.
Proof.
  intros Hz.
  assert (Hall :
            forallb
              (fun n =>
                 let s := String_padStart 2 "0" (Z_toString (Z.of_nat n)) in
                 (String.length s =? 2)%nat
                 && match read_decimal s with
                    | Some z' => z' =? Z.of_nat n
                    | None => false
                    end)
              (seq 0 100) = true) by (vm_compute; reflexivity).
  rewrite forallb_forall in Hall.
  specialize (Hall (Z.to_nat z)). rewrite Z2Nat.id in Hall by lia.
  assert (Hin : In (Z.to_nat z) (seq 0 100)) by (apply in_seq; lia).
  apply Hall in Hin. cbv zeta in Hin. apply andb_true_iff in Hin as [Hlen Hread].
  apply Nat.eqb_eq in Hlen. split; [exact Hlen|].
  destruct (read_decimal _) as [z'|]; [|discriminate].
  apply Z.eqb_eq in Hread. now subst.
Qed.

(** X18. For a date whose day of the month is from 1 to 31 and whose month
    index is from 0 to 11, the label of a point of the time series is the
    day and the month, each as two digits that read back as the number,
    with a dot between them: five characters. *)
Theorem formatDateLabel_is_day_dot_month `{Host} `{HostDate} (d : Date) :
  1 <= getDate d <= 31 ->
  0 <= getMonth d <= 11 ->
  exists dd mm,
    formatDateLabel d = (dd ++ "." ++ mm)%string
    /\ String.length dd = 2%nat /\ read_decimal dd = Some (getDate d)
    /\ String.length mm = 2%nat /\ read_decimal mm = Some (getMonth d + 1)
    /\ String.length (formatDateLabel d) = 5%nat.
Proof.
  intros Hday Hmonth.
  destruct (pad2_round_trip (getDate d)) as [Hl1 Hr1]; [lia|].
  destruct (pad2_round_trip (getMonth d + 1)) as [Hl2 Hr2]; [lia|].
  exists (String_padStart 2 "0" (Z_toString (getDate d))),
         (String_padStart 2 "0" (Z_toString (getMonth d + 1))).
  repeat split; try assumption.
  unfold formatDateLabel. cbv zeta.
  rewrite string_length_append, Hl1. cbn [String.append String.length].
  now rewrite Hl2.
Qed.

(** The first of January. *)
Lemma formatDateLabel_is_day_dot_month_witness :
  1 <= getDate 1704067200000 <= 31
  /\ 0 <= getMonth 1704067200000 <= 11
  /\ formatDateLabel 1704067200000 = "01.01"%string
  /\ String.length (formatDateLabel 1704067200000) = 5%nat.
Proof.
  assert (Hday : 1 <= getDate 1704067200000 <= 31) by (vm_compute; split; discriminate).
  assert (Hmonth : 0 <= getMonth 1704067200000 <= 11)
    by (vm_compute; split; discriminate).
  split; [exact Hday|]. split; [exact Hmonth|].
  split; [vm_compute; reflexivity|].
  destruct (formatDateLabel_is_day_dot_month 1704067200000 Hday Hmonth)
    as (dd & mm & _ & _ & _ & _ & _ & Hlen).
  exact Hlen.
Defined.

(** X19. The month key of a record is the year, a hyphen and the month as
    two digits that read back as the month number, when the month index of
    its date is from 0 to 11. *)
Theorem monthKey_is_year_and_padded_month `{Host} (row : Row) (index : nat)
    (p : PostRecord) :
  mapRowToPost row index = Returns (Dated p)
  \/ AppTsx.mapRowToPost row index = Returns (Dated p) ->
  0 <= getMonth (dateObj p) <= 11 ->
  exists mm,
    monthKey p = (Z_toString (getFullYear (dateObj p)) ++ "-" ++ mm)%string
    /\ String.length mm = 2%nat
    /\ read_decimal mm = Some (getMonth (dateObj p) + 1).
Proof.
  intros Hmap Hmonth.
  destruct (pad2_round_trip (getMonth (dateObj p) + 1)) as [Hl Hr]; [lia|].
  exists (String_padStart 2 "0" (Z_toString (getMonth (dateObj p) + 1))).
  split; [|split; assumption].
  destruct Hmap as [Hmap|Hmap];
    [unfold mapRowToPost in Hmap|unfold AppTsx.mapRowToPost in Hmap];
    normaliser_cases Hmap; now injection Hmap as <-.
Qed.

(** The first post of the example sheet is of January 2024. *)
Lemma monthKey_is_year_and_padded_month_witness :
  exists p,
    mapRowToPost (hd [] sample_rows) 0 = Returns (Dated p)
    /\ 0 <= getMonth (dateObj p) <= 11
    /\ monthKey p = "2024-01"%string.
Proof.
  destruct (mapRowToPost (hd [] sample_rows) 0) as [|[p|u]|] eqn:E;
    try (vm_compute in E; discriminate E).
  exists p. split; [reflexivity|].
  assert (Hmonth : 0 <= getMonth (dateObj p) <= 11).
  { pose proof E as E'. vm_compute in E'. injection E' as <-.
    vm_compute. split; discriminate. }
  split; [exact Hmonth|].
  destruct (monthKey_is_year_and_padded_month _ 0%nat p (or_introl E) Hmonth)
    as (mm & Hkey & _).
  vm_compute in E. injection E as <-. reflexivity.
Defined.

(** ** The colours of the grid *)

Lemma square_color `{Host} (filteredPosts : list PostRecord) (wIdx hr : Z) :
  (forall p, In p filteredPosts -> isFinite (views p) = true) ->
  let color := getHeatmapColor (heatmap_ratio (heatmapData filteredPosts) wIdx hr) in
  color = "#f4f4f5"%string \/ in_gradient color.
Proof.
  intros Hfin color. unfold color.
  destruct (heatmap_ratio_bounded filteredPosts wIdx hr Hfin) as [Hf Hle].
  destruct (heatmap_ratio (heatmapData filteredPosts) wIdx hr) as [| | |q];
    try discriminate Hf.
  apply leb_Fin in Hle.
  destruct (leb (Fin q) (of_Z 0)) eqn:E.
  - left. unfold getHeatmapColor. now rewrite E.
  - right. apply getHeatmapColor_unit_ratio; [|exact Hle].
    apply Qnot_le_lt. intros Hq.
    assert (Hq' : leb (Fin q) (of_Z 0) = true) by (apply leb_Fin; exact Hq).
    congruence.
Qed.

(** X20. The grid has a row of 24 squares for each of the 7 weekdays.  A
    square of a weekday and an hour without records is grey; and when the
    views of the records are finite and [maxViews] is finite (no sum of
    views went beyond the largest double), every square is grey or has a
    colour within the gradient. *)
Theorem heatmap_grid_colors `{Host} (filteredPosts : list PostRecord) :
  let grid := heatmap_colors (heatmapData filteredPosts) in
  List.length grid = 7%nat
  /\ (forall squares, In squares grid -> List.length squares = 24%nat)
  /\ (forall wIdx hr,
        existsb (fun p => (weekdayIndex p =? wIdx) && (hour p =? hr)) filteredPosts
        = false ->
        getHeatmapColor (heatmap_ratio (heatmapData filteredPosts) wIdx hr)
        = "#f4f4f5"%string)
  /\ ((forall p, In p filteredPosts -> isFinite (views p) = true) ->
      isFinite (Heat.maxViews (heatmapData filteredPosts)) = true ->
      forall squares color, In squares grid -> In color squares ->
        color = "#f4f4f5"%string \/ in_gradient color).
Proof.
  intros grid. split; [reflexivity|]. split; [|split].
  - intros squares Hin. unfold grid, heatmap_colors in Hin.
    apply in_map_iff in Hin as (w & <- & _). reflexivity.
  - intros wIdx hr Hnone. unfold heatmap_ratio.
    rewrite heatmap_cell_find_spec.
    change (fun p => Heat.key_eqb (heat_key p) (wIdx, hr))
      with (fun p => (weekdayIndex p =? wIdx) && (hour p =? hr)).
    rewrite Hnone. reflexivity.
  - intros Hfin _ squares color Hin Hc. unfold grid, heatmap_colors in Hin.
    apply in_map_iff in Hin as (w & <- & _).
    apply in_map_iff in Hc as (hr & <- & _).
    now apply square_color.
Qed.

(** On the three Monday posts the square of Monday at nine has the accent
    colour and the square of Monday at ten is grey. *)
Lemma heatmap_grid_colors_witness :
  (forall p, In p (installed_posts (handleFileUpload monday_nine_rows)) ->
             isFinite (views p) = true)
  /\ isFinite
       (Heat.maxViews (heatmapData (installed_posts (handleFileUpload monday_nine_rows))))
     = true
  /\ List.length
       (heatmap_colors (heatmapData (installed_posts (handleFileUpload monday_nine_rows))))
     = 7%nat
  /\ getHeatmapColor
       (heatmap_ratio
          (heatmapData (installed_posts (handleFileUpload monday_nine_rows))) 1 9)
     = "rgb(165, 111, 253)"%string
  /\ getHeatmapColor
       (heatmap_ratio
          (heatmapData (installed_posts (handleFileUpload monday_nine_rows))) 1 10)
     = "#f4f4f5"%string
  /\ (forall squares color,
        In squares
          (heatmap_colors
             (heatmapData (installed_posts (handleFileUpload monday_nine_rows)))) ->
        In color squares ->
        color = "#f4f4f5"%string \/ in_gradient color).
Proof.
  assert (Hfin : forall p, In p (installed_posts (handleFileUpload monday_nine_rows)) ->
                           isFinite (views p) = true).
  { intros p Hp. vm_compute in Hp.
    destruct Hp as [<-|[<-|[<-|[]]]]; reflexivity. }
  assert (Hmax : isFinite
                   (Heat.maxViews
                      (heatmapData (installed_posts (handleFileUpload monday_nine_rows))))
                 = true) by (vm_compute; reflexivity).
  split; [exact Hfin|]. split; [exact Hmax|].
  destruct (heatmap_grid_colors (installed_posts (handleFileUpload monday_nine_rows)))
    as (Hlen & _ & Hgrey & Hcolors).
  split; [exact Hlen|]. split; [vm_compute; reflexivity|].
  split; [apply Hgrey; vm_compute; reflexivity|].
  exact (Hcolors Hfin Hmax).
Defined.
